(** * xwidget.c: embedded widgets in buffers

    A shallow embedding of [src/xwidget.c] (GNU Emacs, the GTK build:
    the [USE_GTK] branches of the preprocessor conditionals) and the
    properties of its model/view bookkeeping, its callback table and its
    event bridge.

    Conventions of the embedding.
    - C [int] and [ptrdiff_t] values are integers of [Z].  Signed overflow
      is undefined in C: the draw, which computes coordinates from its
      arguments, goes through [no_overflow] and has no meaning when a sum
      or a difference does not fit an [int]; the sums that
      [xwidget_show_view] takes are sums that a draw has taken before.
      Values of a fixed unsigned or JavaScript width ([guint], [gint32])
      have their reduction written out.  [/] on [int] is [Z.quot].
    - A C [double] is a binary64 float ([PrimFloat]); a C string is the
      text before its first NUL ([c_string]).
    - [struct xwidget] and [struct xwidget_view] live in two heaps indexed
      by address; a Lisp object that designates one carries the address.
      An address always designates an object (Lisp objects are garbage
      collected, never freed by hand), so the heaps are total functions.
    - The toolkit is an opaque collaborator: every call into GTK/WebKit is
      appended to a log, in program order.  A call on a widget that was
      destroyed before is logged like any other; what the toolkit does
      with it is not modelled.
    - A function that can leave by a Lisp signal runs in the monad [M];
      the state reached when the signal is raised is kept. *)

From Stdlib Require Import PrimFloat ZArith QArith.QArith_base Lia.
From stdpp Require Import base tactics option list functions strings pretty.

Local Open Scope string_scope.
Local Open Scope Z_scope.
Local Open Scope list_scope.
Set Warnings "-register-all".

(** ** Lisp objects *)

Inductive Lisp_Object : Type :=
| Qnil
| Qt
| Symbol (name : string)            (* [intern], [DEFSYM] *)
| Fixnum (n : Z)                    (* [make_fixnum], [make_int] *)
| Float (d : float)                 (* [XFLOAT_DATA], a C [double] *)
| String (s : string)               (* [build_string] *)
| Cons (car cdr : Lisp_Object)      (* [Fcons] *)
| Vector (contents : list Lisp_Object)
| MintPtr (text : string)           (* [make_mint_ptr] of a C string *)
| Closure (id : nat)                (* a function object *)
| Buffer (b : nat)
| Window (w : nat)
| XWidget (p : nat)                 (* [XSETXWIDGET] *)
| XWidgetView (p : nat).            (* [XSETXWIDGET_VIEW] *)

Definition Qwebkit : Lisp_Object := Symbol "webkit".
Definition intern (name : string) : Lisp_Object := Symbol name.
(** [build_string] reads a C string: its argument is the text of that
    string, see [c_string]. *)
Definition build_string (s : string) : Lisp_Object := String s.
Definition make_fixnum (n : Z) : Lisp_Object := Fixnum n.

Definition NILP (o : Lisp_Object) : bool :=
  match o with Qnil => true | _ => false end.

Definition CONSP (o : Lisp_Object) : bool :=
  match o with Cons _ _ => true | _ => false end.

Definition XWIDGETP (o : Lisp_Object) : bool :=
  match o with XWidget _ => true | _ => false end.

Definition XWIDGET_VIEW_P (o : Lisp_Object) : bool :=
  match o with XWidgetView _ => true | _ => false end.

(** [EQ] is identity.  Symbols, fixnums and the objects that carry an
    address are compared by name, value and address; strings, conses and
    vectors are carried by value in this embedding and xwidget.c never
    hands one to [EQ]. *)
Definition EQ (a b : Lisp_Object) : bool :=
  match a, b with
  | Qnil, Qnil | Qt, Qt => true
  | Symbol s, Symbol t => String.eqb s t
  | Fixnum m, Fixnum n => m =? n
  | Closure i, Closure j => Nat.eqb i j
  | Buffer i, Buffer j => Nat.eqb i j
  | Window i, Window j => Nat.eqb i j
  | XWidget i, XWidget j => Nat.eqb i j
  | XWidgetView i, XWidgetView j => Nat.eqb i j
  | _, _ => false
  end.

Definition XCAR (o : Lisp_Object) : Lisp_Object :=
  match o with Cons a _ => a | _ => Qnil end.

Definition XCDR (o : Lisp_Object) : Lisp_Object :=
  match o with Cons _ d => d | _ => Qnil end.

Definition list3 (a b c : Lisp_Object) : Lisp_Object :=
  Cons a (Cons b (Cons c Qnil)).
Definition list4 (a b c d : Lisp_Object) : Lisp_Object :=
  Cons a (Cons b (Cons c (Cons d Qnil))).
Definition list5 (a b c d e : Lisp_Object) : Lisp_Object :=
  Cons a (Cons b (Cons c (Cons d (Cons e Qnil)))).

(** Conditions raised by [xsignal]/[error]. *)
Inductive Lisp_error : Type :=
| wrong_type_argument (predicate : string) (value : Lisp_Object)
| args_out_of_range_3 (value lo hi : Lisp_Object)
| error (message : string)
| memory_full.

(** ** JavaScript values and their conversion *)

(** What [run_javascript] hands back, as JavaScriptCore's [jsc_value_is_*]
    predicates classify it.  A string carries its whole text, which may
    contain NUL characters.  A number is a finite double, hence a
    rational.  An array is the sequence of its elements at the indices
    below its [length]; an object is the sequence of its enumerable
    properties, each with its name, in the order
    [jsc_value_object_enumerate_properties] reports them.  [JOther]
    stands for [undefined], [null] and every other kind. *)
Inductive JSCValue : Type :=
| JString (s : string)
| JBoolean (b : bool)
| JNumber (d : Q)
| JArray (elements : list JSCValue)
| JObject (properties : list (string * JSCValue))
| JOther.

Inductive result (A : Type) : Type :=
| Ok (a : A)
| Raise (e : Lisp_error).
Arguments Ok {A} a.
Arguments Raise {A} e.

Definition PTRDIFF_MAX : Z := 2 ^ 63 - 1.

(** Reduction of an integer to the range of [gint32]. *)
Definition wrap_int32 (z : Z) : Z := (z + 2 ^ 31) mod 2 ^ 32 - 2 ^ 31.

(** Reduction of a count to the range of [guint]. *)
Definition wrap_guint (z : Z) : Z := z mod 2 ^ 32.

(** Modelled from the spec: [jsc_value_to_int32] is JavaScriptCore's and
    is not under src/.  On a number it drops the fractional part
    ("number→integer (truncating)"); its result is a [gint32], so the
    integer part is reduced to 32 bits.  The source applies it to numbers
    only. *)
Definition jsc_value_to_int32 (value : JSCValue) : Z :=
  match value with
  | JNumber d => wrap_int32 (Z.quot (Qnum d) (Z.pos (Qden d)))
  | _ => 0
  end.

(** The text that a reader of a C string sees: the characters before the
    first NUL.  [build_string], like every function that takes a
    [char *], reads no further. *)
Fixpoint c_string (s : string) : string :=
  match s with
  | EmptyString => EmptyString
  | String.String c s' =>
      if Ascii.eqb c Ascii.zero then EmptyString else String.String c (c_string s')
  end.

(** Modelled from the spec: [jsc_value_to_string] is JavaScriptCore's
    ("string→string").  The source receives the text as a NUL-terminated
    [gchar *], so what it can read of it is the text up to the first
    NUL. *)
Definition jsc_value_to_string (value : JSCValue) : string :=
  match value with
  | JString s => c_string s
  | _ => ""
  end.

(** Modelled from the spec: [jsc_value_object_enumerate_properties] is
    JavaScriptCore's ("enumeration order as provided by backend").  The
    names come as an array of NUL-terminated strings. *)
Definition jsc_value_object_enumerate_properties (properties : list (string * JSCValue))
  : list string :=
  List.map (fun p => c_string (fst p)) properties.

(** The ["length"] property of an array. *)
Definition jsc_array_length (elements : list JSCValue) : JSCValue :=
  JNumber (inject_Z (Z.of_nat (length elements))).

Fixpoint webkit_js_to_lisp (value : JSCValue) : result Lisp_Object :=
  match value with
  | JString _ =>
      let str_value := jsc_value_to_string value in
      Ok (build_string str_value)
  | JBoolean b => Ok (if b then Qt else Qnil)
  | JNumber _ => Ok (make_fixnum (jsc_value_to_int32 value))
  | JArray elements =>
      let dlen := jsc_value_to_int32 (jsc_array_length elements) in
      if negb ((0 <=? dlen) && (dlen <? PTRDIFF_MAX + 1)) then Raise memory_full
      else
        (* for (i = 0; i < n; ++i) p->contents[i] = webkit_js_to_lisp (value[i]) *)
        let fill :=
          fix fill (es : list JSCValue) (n : nat) : result (list Lisp_Object) :=
            match n with
            | O => Ok []
            | S n' =>
                match es with
                | [] => Ok (replicate n Qnil)   (* an index past the end reads [undefined] *)
                | e :: es' =>
                    match webkit_js_to_lisp e with
                    | Raise err => Raise err
                    | Ok o =>
                        match fill es' n' with
                        | Raise err => Raise err
                        | Ok os => Ok (o :: os)
                        end
                    end
                end
            end in
        match fill elements (Z.to_nat dlen) with
        | Raise err => Raise err
        | Ok os => Ok (Vector os)
        end
  | JObject properties =>
      let properties_names := jsc_value_object_enumerate_properties properties in
      let n := wrap_guint (Z.of_nat (length properties_names)) in
      if PTRDIFF_MAX <? n then Raise memory_full
      else
        (* [webkit_js_to_lisp (jsc_value_object_get_property (value, name))]:
           the property that has this name, [undefined] when none has *)
        let get_property :=
          fix get_property (ps : list (string * JSCValue)) (name : string)
            : result Lisp_Object :=
            match ps with
            | [] => Ok Qnil
            | (name', property) :: ps' =>
                if String.eqb name' name then webkit_js_to_lisp property
                else get_property ps' name
            end in
        let fill :=
          fix fill (names : list string) (n : nat) : result (list Lisp_Object) :=
            match n with
            | O => Ok []
            | S n' =>
                match names with
                | [] => Ok (replicate n Qnil)
                | name :: names' =>
                    match get_property properties name with
                    | Raise err => Raise err
                    | Ok o =>
                        match fill names' n' with
                        | Raise err => Raise err
                        | Ok os => Ok (Cons (build_string name) o :: os)
                        end
                    end
                end
            end in
        match fill properties_names (Z.to_nat n) with
        | Raise err => Raise err
        | Ok os => Ok (Vector os)
        end
  | JOther => Ok Qnil
  end.

(** ** Toolkit objects and the log of toolkit calls *)

(** A toolkit object is named after the structure that owns it: each
    [struct xwidget] and each [struct xwidget_view] creates its widgets
    once, so the owner's address identifies them as their own addresses
    would. *)
Inductive GtkWidget : Type :=
| WebKitWebView (xw : nat)          (* [webkit_web_view_new] *)
| GtkOffscreenWindow (xw : nat)     (* [gtk_offscreen_window_new] *)
| GtkDrawingArea (xv : nat)         (* [gtk_drawing_area_new] *)
| GtkFixed (xv : nat)               (* [gtk_fixed_new] *)
| FrameWidget (f : nat).            (* [FRAME_GTK_WIDGET (f)] *)

Definition WEBKIT_IS_WEB_VIEW (widget : GtkWidget) : bool :=
  match widget with WebKitWebView _ => true | _ => false end.

Inductive gtk_call : Type :=
| gtk_widget_show (widget : GtkWidget)
| gtk_widget_show_all (widget : GtkWidget)
| gtk_widget_destroy (widget : GtkWidget)
| gtk_widget_queue_draw (widget : GtkWidget)
| gtk_widget_set_size_request (widget : GtkWidget) (width height : Z)
| gtk_widget_set_app_paintable (widget : GtkWidget)
| gtk_widget_add_events (widget : GtkWidget)
| gtk_widget_set_has_window (widget : GtkWidget)
| gtk_window_resize (window : GtkWidget) (width height : Z)
| gtk_container_resize_children (container : GtkWidget)
| gtk_container_add (container widget : GtkWidget)
| gtk_fixed_put (fixed widget : GtkWidget) (x y : Z)
| gtk_fixed_move (fixed widget : GtkWidget) (x y : Z)
| g_object_set_data (object : GtkWidget) (key : string)
| g_signal_connect (object : GtkWidget) (detailed_signal : string)
| g_signal_connect_context (detailed_signal : string) (xw : nat)
| webkit_web_context_set_sandbox_enabled
| webkit_web_view_load_uri (view : GtkWidget) (uri : string)
| webkit_web_view_go_back (view : GtkWidget)
| webkit_web_view_reload (view : GtkWidget)
| webkit_web_view_go_forward (view : GtkWidget)
| webkit_web_view_set_zoom_level (view : GtkWidget) (level : float)
| webkit_web_view_run_javascript (view : GtkWidget) (script : string) (arg : Z).

(** ** The structures of xwidget.h *)

Record xwidget : Type := {
  xw_type : Lisp_Object;
  xw_plist : Lisp_Object;
  xw_title : Lisp_Object;
  xw_buffer : Lisp_Object;
  xw_script_callbacks : Lisp_Object;
  xw_height : Z;
  xw_width : Z;
  xw_kill_without_query : bool;
  xw_widget_osr : option GtkWidget;        (* [NULL] is [None] *)
  xw_widgetwindow_osr : option GtkWidget
}.

Record xwidget_view : Type := {
  xv_model : Lisp_Object;
  xv_w : Lisp_Object;
  xv_redisplayed : bool;
  xv_hidden : bool;
  xv_widget : GtkWidget;
  xv_widgetwindow : GtkWidget;
  xv_emacswindow : GtkWidget;
  xv_x : Z;
  xv_y : Z;
  xv_clip_right : Z;
  xv_clip_bottom : Z;
  xv_clip_top : Z;
  xv_clip_left : Z
}.

Inductive event_kind : Type := XWIDGET_EVENT.

Record input_event : Type := {
  kind : event_kind;
  frame_or_window : Lisp_Object;
  arg : Lisp_Object
}.

(** The text area of a window, as [window_box (w, TEXT_AREA, ...)] reports it. *)
Record box : Type := {
  box_x : Z; box_y : Z; box_width : Z; box_height : Z
}.

(** ** The state of the editor that xwidget.c reads and writes *)

(** What the code reads from its collaborators: gtkutil.c, buffer.c,
    window.c, xdisp.c ([window_box]), eval.c ([FUNCTIONP]) and WebKit. *)
Record collaborators : Type := {
  xg_gtk_initialized : bool;
  current_buffer : nat;
  buffer_names : list (string * nat);
  next_buffer : nat;
  selected_window : nat;
  text_area : nat -> box;
  functionp : Lisp_Object -> bool;
  webkit_sandbox_enabled : bool;
  webkit_uri : nat -> string;
  webkit_title : nat -> option string;
  webkit_zoom_level : nat -> float
}.

Inductive diagnostic : Type :=
| fputs_stdout (text : string)
| message (text : string)
| g_warning (text : string).

Record emacs : Type := {
  (* the two heaps and their allocation marks *)
  xwidgets : nat -> xwidget;
  next_xwidget : nat;
  xwidget_views : nat -> xwidget_view;
  next_xwidget_view : nat;
  (* the registries *)
  Vxwidget_list : list Lisp_Object;
  Vxwidget_view_list : list Lisp_Object;
  (* [kbd_buffer_store_event], oldest first *)
  kbd_buffer : list input_event;
  (* calls into GTK and WebKit, oldest first *)
  gtk_log : list gtk_call;
  (* [xfree] of a saved script text, oldest first *)
  freed : list Lisp_Object;
  (* [fputs (..., stdout)], [message] and [g_warning], oldest first *)
  diagnostics : list diagnostic;
  host : collaborators
}.

(** Field updates. *)
Definition set_xwidgets (h : nat -> xwidget) (st : emacs) : emacs :=
  {| xwidgets := h; next_xwidget := next_xwidget st;
     xwidget_views := xwidget_views st;
     next_xwidget_view := next_xwidget_view st;
     Vxwidget_list := Vxwidget_list st;
     Vxwidget_view_list := Vxwidget_view_list st;
     kbd_buffer := kbd_buffer st; gtk_log := gtk_log st; freed := freed st;
     diagnostics := diagnostics st; host := host st |}.

Definition set_next_xwidget (n : nat) (st : emacs) : emacs :=
  {| xwidgets := xwidgets st; next_xwidget := n;
     xwidget_views := xwidget_views st;
     next_xwidget_view := next_xwidget_view st;
     Vxwidget_list := Vxwidget_list st;
     Vxwidget_view_list := Vxwidget_view_list st;
     kbd_buffer := kbd_buffer st; gtk_log := gtk_log st; freed := freed st;
     diagnostics := diagnostics st; host := host st |}.

Definition set_xwidget_views (h : nat -> xwidget_view) (st : emacs) : emacs :=
  {| xwidgets := xwidgets st; next_xwidget := next_xwidget st;
     xwidget_views := h; next_xwidget_view := next_xwidget_view st;
     Vxwidget_list := Vxwidget_list st;
     Vxwidget_view_list := Vxwidget_view_list st;
     kbd_buffer := kbd_buffer st; gtk_log := gtk_log st; freed := freed st;
     diagnostics := diagnostics st; host := host st |}.

Definition set_next_xwidget_view (n : nat) (st : emacs) : emacs :=
  {| xwidgets := xwidgets st; next_xwidget := next_xwidget st;
     xwidget_views := xwidget_views st; next_xwidget_view := n;
     Vxwidget_list := Vxwidget_list st;
     Vxwidget_view_list := Vxwidget_view_list st;
     kbd_buffer := kbd_buffer st; gtk_log := gtk_log st; freed := freed st;
     diagnostics := diagnostics st; host := host st |}.

Definition set_Vxwidget_list (l : list Lisp_Object) (st : emacs) : emacs :=
  {| xwidgets := xwidgets st; next_xwidget := next_xwidget st;
     xwidget_views := xwidget_views st;
     next_xwidget_view := next_xwidget_view st; Vxwidget_list := l;
     Vxwidget_view_list := Vxwidget_view_list st;
     kbd_buffer := kbd_buffer st; gtk_log := gtk_log st; freed := freed st;
     diagnostics := diagnostics st; host := host st |}.

Definition set_Vxwidget_view_list (l : list Lisp_Object) (st : emacs) : emacs :=
  {| xwidgets := xwidgets st; next_xwidget := next_xwidget st;
     xwidget_views := xwidget_views st;
     next_xwidget_view := next_xwidget_view st;
     Vxwidget_list := Vxwidget_list st; Vxwidget_view_list := l;
     kbd_buffer := kbd_buffer st; gtk_log := gtk_log st; freed := freed st;
     diagnostics := diagnostics st; host := host st |}.

Definition set_kbd_buffer (q : list input_event) (st : emacs) : emacs :=
  {| xwidgets := xwidgets st; next_xwidget := next_xwidget st;
     xwidget_views := xwidget_views st;
     next_xwidget_view := next_xwidget_view st;
     Vxwidget_list := Vxwidget_list st;
     Vxwidget_view_list := Vxwidget_view_list st; kbd_buffer := q;
     gtk_log := gtk_log st; freed := freed st; diagnostics := diagnostics st;
     host := host st |}.

Definition set_gtk_log (l : list gtk_call) (st : emacs) : emacs :=
  {| xwidgets := xwidgets st; next_xwidget := next_xwidget st;
     xwidget_views := xwidget_views st;
     next_xwidget_view := next_xwidget_view st;
     Vxwidget_list := Vxwidget_list st;
     Vxwidget_view_list := Vxwidget_view_list st;
     kbd_buffer := kbd_buffer st; gtk_log := l; freed := freed st;
     diagnostics := diagnostics st; host := host st |}.

Definition set_freed (l : list Lisp_Object) (st : emacs) : emacs :=
  {| xwidgets := xwidgets st; next_xwidget := next_xwidget st;
     xwidget_views := xwidget_views st;
     next_xwidget_view := next_xwidget_view st;
     Vxwidget_list := Vxwidget_list st;
     Vxwidget_view_list := Vxwidget_view_list st;
     kbd_buffer := kbd_buffer st; gtk_log := gtk_log st; freed := l;
     diagnostics := diagnostics st; host := host st |}.

Definition set_diagnostics (l : list diagnostic) (st : emacs) : emacs :=
  {| xwidgets := xwidgets st; next_xwidget := next_xwidget st;
     xwidget_views := xwidget_views st;
     next_xwidget_view := next_xwidget_view st;
     Vxwidget_list := Vxwidget_list st;
     Vxwidget_view_list := Vxwidget_view_list st;
     kbd_buffer := kbd_buffer st; gtk_log := gtk_log st; freed := freed st;
     diagnostics := l; host := host st |}.

Definition set_host (c : collaborators) (st : emacs) : emacs :=
  {| xwidgets := xwidgets st; next_xwidget := next_xwidget st;
     xwidget_views := xwidget_views st;
     next_xwidget_view := next_xwidget_view st;
     Vxwidget_list := Vxwidget_list st;
     Vxwidget_view_list := Vxwidget_view_list st;
     kbd_buffer := kbd_buffer st; gtk_log := gtk_log st; freed := freed st;
     diagnostics := diagnostics st; host := c |}.

(** ** The monad of editor code *)

Inductive outcome (A : Type) : Type :=
| Normal (a : A) (st : emacs)            (* the function returned [a] *)
| Signal (e : Lisp_error) (st : emacs)   (* it left through [xsignal] *)
| Undefined.                             (* a failed [eassume], an index out of bounds *)
Arguments Normal {A} a st.
Arguments Signal {A} e st.
Arguments Undefined {A}.

Definition M (A : Type) : Type := emacs -> outcome A.

Definition ret {A} (a : A) : M A := fun st => Normal a st.

Definition bind {A B} (c : M A) (k : A -> M B) : M B :=
  fun st =>
    match c st with
    | Normal a st' => k a st'
    | Signal e st' => Signal e st'
    | Undefined => Undefined
    end.

Notation "'let*' x ':=' c 'in' k" := (bind c (fun x => k))
  (at level 10, x pattern, c at level 100, k at level 200).

Definition xsignal {A} (e : Lisp_error) : M A := fun st => Signal e st.
Definition undefined {A} : M A := fun _ => Undefined.
Definition gets {A} (f : emacs -> A) : M A := fun st => Normal (f st) st.
Definition modify (f : emacs -> emacs) : M unit := fun st => Normal tt (f st).

Definition when (b : bool) (c : M unit) : M unit := if b then c else ret tt.

(** [for (tail = l; CONSP (tail); tail = XCDR (tail)) body (XCAR (tail))] *)
Fixpoint for_each {A} (l : list A) (body : A -> M unit) : M unit :=
  match l with
  | [] => ret tt
  | a :: l' => let* _ := body a in for_each l' body
  end.

Definition lift_result {A} (r : result A) : M A :=
  match r with Ok a => ret a | Raise e => xsignal e end.

(** Heap accesses. *)
Definition get_xwidget (p : nat) : M xwidget := gets (fun st => xwidgets st p).
Definition put_xwidget (p : nat) (xw : xwidget) : M unit :=
  modify (fun st => set_xwidgets (<[p := xw]> (xwidgets st)) st).
Definition get_xwidget_view (p : nat) : M xwidget_view :=
  gets (fun st => xwidget_views st p).
Definition put_xwidget_view (p : nat) (xv : xwidget_view) : M unit :=
  modify (fun st => set_xwidget_views (<[p := xv]> (xwidget_views st)) st).

(** Effects on the collaborators. *)
Definition gtk (c : gtk_call) : M unit :=
  modify (fun st => set_gtk_log (gtk_log st ++ [c]) st).
Definition xfree (o : Lisp_Object) : M unit :=
  modify (fun st => set_freed (freed st ++ [o]) st).
Definition diagnose (d : diagnostic) : M unit :=
  modify (fun st => set_diagnostics (diagnostics st ++ [d]) st).
Definition kbd_buffer_store_event (event : input_event) : M unit :=
  modify (fun st => set_kbd_buffer (kbd_buffer st ++ [event]) st).

(** ** Type checks of lisp.h *)

Definition CHECK_XWIDGET (x : Lisp_Object) : M unit :=
  if XWIDGETP x then ret tt else xsignal (wrong_type_argument "xwidgetp" x).

Definition CHECK_XWIDGET_VIEW (x : Lisp_Object) : M unit :=
  if XWIDGET_VIEW_P x then ret tt else xsignal (wrong_type_argument "xwidget-view-p" x).

Definition CHECK_SYMBOL (x : Lisp_Object) : M unit :=
  match x with
  | Qnil | Qt | Symbol _ => ret tt
  | _ => xsignal (wrong_type_argument "symbolp" x)
  end.

Definition CHECK_FIXNAT (x : Lisp_Object) : M unit :=
  match x with
  | Fixnum n => if 0 <=? n then ret tt else xsignal (wrong_type_argument "wholenump" x)
  | _ => xsignal (wrong_type_argument "wholenump" x)
  end.

Definition CHECK_STRING (x : Lisp_Object) : M unit :=
  match x with
  | String _ => ret tt
  | _ => xsignal (wrong_type_argument "stringp" x)
  end.

Definition CHECK_WINDOW (x : Lisp_Object) : M unit :=
  match x with
  | Window _ => ret tt
  | _ => xsignal (wrong_type_argument "windowp" x)
  end.

Definition CHECK_LIST (x : Lisp_Object) : M unit :=
  match x with
  | Qnil | Cons _ _ => ret tt
  | _ => xsignal (wrong_type_argument "listp" x)
  end.

(** [XXWIDGET], [XXWIDGET_VIEW], [XFIXNUM], [SSDATA]: the payload of an
    object of the right type; anything else is undefined. *)
Definition XXWIDGET (x : Lisp_Object) : M nat :=
  match x with XWidget p => ret p | _ => undefined end.
Definition XXWIDGET_VIEW (x : Lisp_Object) : M nat :=
  match x with XWidgetView p => ret p | _ => undefined end.
Definition XFIXNUM (x : Lisp_Object) : M Z :=
  match x with Fixnum n => ret n | _ => undefined end.
Definition SSDATA (x : Lisp_Object) : M string :=
  match x with String s => ret s | _ => undefined end.

(** [XFIXNAT] assumes a fixnum that is not negative ([eassume (0 <= n)]);
    on any other object it is undefined.  Its callers store the result
    in, or switch on it as, an [int]: a value above [INT_MAX] is reduced
    modulo 2^32. *)
Definition XFIXNAT (x : Lisp_Object) : M Z :=
  match x with
  | Fixnum n => if 0 <=? n then ret (wrap_int32 n) else undefined
  | _ => undefined
  end.

Definition INT_MAX : Z := 2 ^ 31 - 1.
Definition INT_MIN : Z := - 2 ^ 31.

(** The value fits an [int]. *)
Definition int_fits (z : Z) : bool := (INT_MIN <=? z) && (z <=? INT_MAX).

(** Signed overflow is undefined: a computation on [int]s has a meaning
    only when its results fit. *)
Definition no_overflow (fits : bool) : M unit := if fits then ret tt else undefined.

Definition check_integer_range (x : Lisp_Object) (lo hi : Z) : M Z :=
  match x with
  | Fixnum n =>
      if (lo <=? n) && (n <=? hi) then ret n
      else xsignal (args_out_of_range_3 x (Fixnum lo) (Fixnum hi))
  | _ => xsignal (wrong_type_argument "integerp" x)
  end.

(** [AREF] and [ASET] on the callback table. *)
Definition AREF (array : Lisp_Object) (idx : Z) : M Lisp_Object :=
  match array with
  | Vector contents =>
      if (0 <=? idx) && (idx <? Z.of_nat (length contents))
      then ret (default Qnil (contents !! Z.to_nat idx))
      else undefined
  | _ => undefined
  end.

Definition ASET (array : Lisp_Object) (idx : Z) (val : Lisp_Object) : M Lisp_Object :=
  match array with
  | Vector contents =>
      if (0 <=? idx) && (idx <? Z.of_nat (length contents))
      then ret (Vector (<[Z.to_nat idx := val]> contents))
      else undefined
  | _ => undefined
  end.

Definition Fdelq (elt : Lisp_Object) (l : list Lisp_Object) : list Lisp_Object :=
  filter (fun o => EQ elt o = false) l.

(** ** buffer.c, as make-xwidget and get-buffer-xwidgets use it

    buffer.c is not under src/; these are its functions as their
    docstrings give them. *)

Fixpoint assoc_buffer (name : string) (names : list (string * nat)) : option nat :=
  match names with
  | [] => None
  | (n, b) :: rest => if String.eqb n name then Some b else assoc_buffer name rest
  end.

Definition Fcurrent_buffer : M Lisp_Object :=
  gets (fun st => Buffer (current_buffer (host st))).

(** [Fget_buffer] returns a buffer as it is, the buffer of that name for
    a string, nil when there is none. *)
Definition Fget_buffer (buffer_or_name : Lisp_Object) : M Lisp_Object :=
  match buffer_or_name with
  | Buffer _ => ret buffer_or_name
  | String name =>
      gets (fun st => match assoc_buffer name (buffer_names (host st)) with
                      | Some b => Buffer b
                      | None => Qnil
                      end)
  | _ => xsignal (wrong_type_argument "stringp" buffer_or_name)
  end.

Definition set_buffers (names : list (string * nat)) (n : nat) (c : collaborators)
  : collaborators :=
  {| xg_gtk_initialized := xg_gtk_initialized c; current_buffer := current_buffer c;
     buffer_names := names; next_buffer := n;
     selected_window := selected_window c; text_area := text_area c;
     functionp := functionp c; webkit_sandbox_enabled := webkit_sandbox_enabled c;
     webkit_uri := webkit_uri c; webkit_title := webkit_title c;
     webkit_zoom_level := webkit_zoom_level c |}.

(** [Fget_buffer_create] also makes the buffer when the name is free. *)
Definition Fget_buffer_create (buffer_or_name : Lisp_Object) : M Lisp_Object :=
  let* found := Fget_buffer buffer_or_name in
  match found, buffer_or_name with
  | Qnil, String name =>
      if String.eqb name "" then xsignal (error "Empty string for buffer name is not allowed")
      else
        let* b := gets (fun st => next_buffer (host st)) in
        let* _ := modify (fun st =>
                    set_host (set_buffers ((name, b) :: buffer_names (host st)) (S b)
                                          (host st)) st) in
        ret (Buffer b)
  | _, _ => ret found
  end.

(** ** Model registry *)

(** [ALLOCATE_PSEUDOVECTOR (struct xwidget, script_callbacks, PVEC_XWIDGET)]:
    a fresh address; the Lisp members, up to [script_callbacks], are nil and
    the other members hold whatever the memory held. *)
Definition allocate_xwidget : M nat :=
  fun st =>
    let p := next_xwidget st in
    let raw := xwidgets st p in
    let xw := {| xw_type := Qnil; xw_plist := Qnil; xw_title := Qnil;
                 xw_buffer := Qnil; xw_script_callbacks := Qnil;
                 xw_height := xw_height raw; xw_width := xw_width raw;
                 xw_kill_without_query := xw_kill_without_query raw;
                 xw_widget_osr := xw_widget_osr raw;
                 xw_widgetwindow_osr := xw_widgetwindow_osr raw |} in
    Normal p (set_next_xwidget (S p) (set_xwidgets (<[p := xw]> (xwidgets st)) st)).

(** [ALLOCATE_PSEUDOVECTOR (struct xwidget_view, w, PVEC_XWIDGET_VIEW)] *)
Definition allocate_xwidget_view : M nat :=
  fun st =>
    let p := next_xwidget_view st in
    let raw := xwidget_views st p in
    let xv := {| xv_model := Qnil; xv_w := Qnil;
                 xv_redisplayed := xv_redisplayed raw; xv_hidden := xv_hidden raw;
                 xv_widget := xv_widget raw; xv_widgetwindow := xv_widgetwindow raw;
                 xv_emacswindow := xv_emacswindow raw;
                 xv_x := xv_x raw; xv_y := xv_y raw;
                 xv_clip_right := xv_clip_right raw; xv_clip_bottom := xv_clip_bottom raw;
                 xv_clip_top := xv_clip_top raw; xv_clip_left := xv_clip_left raw |} in
    Normal p (set_next_xwidget_view (S p)
                (set_xwidget_views (<[p := xv]> (xwidget_views st)) st)).

Definition set_sandbox (c : collaborators) : collaborators :=
  {| xg_gtk_initialized := xg_gtk_initialized c; current_buffer := current_buffer c;
     buffer_names := buffer_names c; next_buffer := next_buffer c;
     selected_window := selected_window c; text_area := text_area c;
     functionp := functionp c; webkit_sandbox_enabled := true;
     webkit_uri := webkit_uri c; webkit_title := webkit_title c;
     webkit_zoom_level := webkit_zoom_level c |}.

(** The toolkit half of make-xwidget for a webkit widget.  The saving and
    restoring of the SIGCHLD action around the first load leaves no trace
    in this state. *)
Definition make_xwidget_webkit (p : nat) (width height : Z) : M unit :=
  let* sandbox := gets (fun st => webkit_sandbox_enabled (host st)) in
  let* _ := when (negb sandbox)
              (let* _ := gtk webkit_web_context_set_sandbox_enabled in
               modify (fun st => set_host (set_sandbox (host st)) st)) in
  let widgetwindow_osr := GtkOffscreenWindow p in
  let* _ := gtk (gtk_window_resize widgetwindow_osr width height) in
  let widget_osr := WebKitWebView p in
  let* _ := gtk (webkit_web_view_load_uri widget_osr "about:blank") in
  let* _ := gtk (gtk_widget_set_size_request widget_osr width height) in
  let* _ := gtk (gtk_container_add widgetwindow_osr widget_osr) in
  let* _ := gtk (gtk_widget_show widget_osr) in
  let* _ := gtk (gtk_widget_show widgetwindow_osr) in
  let* _ := gtk (g_object_set_data widget_osr "XG_XWIDGET") in
  let* _ := gtk (g_object_set_data widgetwindow_osr "XG_XWIDGET") in
  let* _ := gtk (g_signal_connect widget_osr "load-changed") in
  let* _ := gtk (g_signal_connect_context "download-started" p) in
  gtk (g_signal_connect widget_osr "decide-policy").

Definition Fmake_xwidget
    (type title width height arguments buffer : Lisp_Object) : M Lisp_Object :=
  let* initialized := gets (fun st => xg_gtk_initialized (host st)) in
  if negb initialized then xsignal (error "make-xwidget: GTK has not been initialized")
  else
    let* _ := CHECK_SYMBOL type in
    let* _ := CHECK_FIXNAT width in
    let* _ := CHECK_FIXNAT height in
    let* p := allocate_xwidget in
    let* b := (if NILP buffer then Fcurrent_buffer else Fget_buffer_create buffer) in
    let* w := XFIXNAT width in
    let* h := XFIXNAT height in
    let val := XWidget p in
    let* _ := modify (fun st => set_Vxwidget_list (val :: Vxwidget_list st) st) in
    let webkit := EQ type Qwebkit in
    let* _ := put_xwidget p
                {| xw_type := type; xw_plist := Qnil; xw_title := title;
                   xw_buffer := b; xw_script_callbacks := Qnil;
                   xw_height := h; xw_width := w;
                   xw_kill_without_query := false;
                   xw_widget_osr := if webkit then Some (WebKitWebView p) else None;
                   xw_widgetwindow_osr :=
                     if webkit then Some (GtkOffscreenWindow p) else None |} in
    let* _ := when webkit (make_xwidget_webkit p w h) in
    ret val.

Definition Fxwidget_buffer (xwidget : Lisp_Object) : M Lisp_Object :=
  let* _ := CHECK_XWIDGET xwidget in
  let* p := XXWIDGET xwidget in
  let* xw := get_xwidget p in
  ret (xw_buffer xw).

(** The result is the Lisp list [xw_list], given here by its elements. *)
Definition Fget_buffer_xwidgets (buffer : Lisp_Object) : M (list Lisp_Object) :=
  if NILP buffer then ret []
  else
    let* buffer := Fget_buffer buffer in
    if NILP buffer then ret []
    else
      let* all := gets Vxwidget_list in
      (fix scan (tail xw_list : list Lisp_Object) : M (list Lisp_Object) :=
         match tail with
         | [] => ret xw_list
         | xw :: tail' =>
             if XWIDGETP xw then
               let* b := Fxwidget_buffer xw in
               if EQ b buffer then scan tail' (xw :: xw_list) else scan tail' xw_list
             else scan tail' xw_list
         end) all [].

Definition xwidget_hidden (xv : xwidget_view) : bool := xv_hidden xv.

Definition set_hidden (b : bool) (xv : xwidget_view) : xwidget_view :=
  {| xv_model := xv_model xv; xv_w := xv_w xv;
     xv_redisplayed := xv_redisplayed xv; xv_hidden := b;
     xv_widget := xv_widget xv; xv_widgetwindow := xv_widgetwindow xv;
     xv_emacswindow := xv_emacswindow xv; xv_x := xv_x xv; xv_y := xv_y xv;
     xv_clip_right := xv_clip_right xv; xv_clip_bottom := xv_clip_bottom xv;
     xv_clip_top := xv_clip_top xv; xv_clip_left := xv_clip_left xv |}.

Definition set_redisplayed (b : bool) (xv : xwidget_view) : xwidget_view :=
  {| xv_model := xv_model xv; xv_w := xv_w xv;
     xv_redisplayed := b; xv_hidden := xv_hidden xv;
     xv_widget := xv_widget xv; xv_widgetwindow := xv_widgetwindow xv;
     xv_emacswindow := xv_emacswindow xv; xv_x := xv_x xv; xv_y := xv_y xv;
     xv_clip_right := xv_clip_right xv; xv_clip_bottom := xv_clip_bottom xv;
     xv_clip_top := xv_clip_top xv; xv_clip_left := xv_clip_left xv |}.

Definition xwidget_show_view (p : nat) : M unit :=
  let* xv := get_xwidget_view p in
  let* _ := put_xwidget_view p (set_hidden false xv) in
  let* _ := gtk (gtk_widget_show (xv_widgetwindow xv)) in
  gtk (gtk_fixed_move (xv_emacswindow xv) (xv_widgetwindow xv)
         (xv_x xv + xv_clip_left xv) (xv_y xv + xv_clip_top xv)).

Definition xwidget_hide_view (p : nat) : M unit :=
  let* xv := get_xwidget_view p in
  let* _ := put_xwidget_view p (set_hidden true xv) in
  gtk (gtk_fixed_move (xv_emacswindow xv) (xv_widgetwindow xv) 10000 10000).

(** ** Event bridge *)

Definition store_xwidget_event_string (xw : nat) (eventname eventstr : string) : M unit :=
  kbd_buffer_store_event
    {| kind := XWIDGET_EVENT; frame_or_window := Qnil;
       arg := list3 (intern eventname) (XWidget xw) (build_string eventstr) |}.

Definition store_xwidget_download_callback_event
    (xw : nat) (url mimetype filename : string) : M unit :=
  kbd_buffer_store_event
    {| kind := XWIDGET_EVENT; frame_or_window := Qnil;
       arg := list5 (intern "download-callback") (XWidget xw) (build_string url)
                    (build_string mimetype) (build_string filename) |}.

Definition store_xwidget_js_callback_event (xw : nat) (proc argument : Lisp_Object)
  : M unit :=
  kbd_buffer_store_event
    {| kind := XWIDGET_EVENT; frame_or_window := Qnil;
       arg := list4 (intern "javascript-callback") (XWidget xw) proc argument |}.

Inductive WebKitLoadEvent : Type :=
| WEBKIT_LOAD_STARTED | WEBKIT_LOAD_REDIRECTED | WEBKIT_LOAD_COMMITTED
| WEBKIT_LOAD_FINISHED.

Definition webkit_view_load_changed_cb (xw : nat) (load_event : WebKitLoadEvent) : M unit :=
  match load_event with
  | WEBKIT_LOAD_FINISHED => store_xwidget_event_string xw "load-changed" ""
  | _ => ret tt
  end.

Definition set_script_callbacks (cbs : Lisp_Object) (xw : xwidget) : xwidget :=
  {| xw_type := xw_type xw; xw_plist := xw_plist xw; xw_title := xw_title xw;
     xw_buffer := xw_buffer xw; xw_script_callbacks := cbs;
     xw_height := xw_height xw; xw_width := xw_width xw;
     xw_kill_without_query := xw_kill_without_query xw;
     xw_widget_osr := xw_widget_osr xw;
     xw_widgetwindow_osr := xw_widgetwindow_osr xw |}.

(** What [webkit_web_view_run_javascript_finish] reports: a result value,
    or no result and an error. *)
Inductive GAsyncResult : Type :=
| js_value (value : JSCValue)
| js_error (message : string).

(** [xw] is the widget that [g_object_get_data (webview, XG_XWIDGET)]
    yields, [arg] the index handed to [webkit_web_view_run_javascript]. *)
Definition webkit_javascript_finished_cb (xw : nat) (result : GAsyncResult) (arg : Z)
  : M unit :=
  let script_idx := arg in
  let* x := get_xwidget xw in
  let* script_callback := AREF (xw_script_callbacks x) script_idx in
  let* cbs := ASET (xw_script_callbacks x) script_idx Qnil in
  let* _ := put_xwidget xw (set_script_callbacks cbs x) in
  let* _ := when (negb (NILP script_callback)) (xfree (XCAR script_callback)) in
  match result with
  | js_error msg => diagnose (g_warning ("Error running javascript: " ++ msg))
  | js_value value =>
      when (negb (NILP script_callback) && negb (NILP (XCDR script_callback)))
        (let* lisp_value := lift_result (webkit_js_to_lisp value) in
         store_xwidget_js_callback_event xw (XCDR script_callback) lisp_value)
  end.

(** A download as [webkit_download_cb] receives it: the widget of its web
    view and its request, with what WebKit knows besides. *)
Record WebKitDownload : Type := {
  download_web_view : nat;
  download_request_uri : string;
  download_response_mime_type : string;
  download_destination : option string
}.

(** The handler returns [FALSE]. *)
Definition webkit_download_cb (arg1 : WebKitDownload) : M bool :=
  let xw := download_web_view arg1 in
  let* _ := store_xwidget_event_string xw "download-started" (download_request_uri arg1) in
  ret false.

(** ** View registry *)

Definition Fxwidget_view_model (xwidget_view : Lisp_Object) : M Lisp_Object :=
  let* _ := CHECK_XWIDGET_VIEW xwidget_view in
  let* p := XXWIDGET_VIEW xwidget_view in
  let* xv := get_xwidget_view p in
  ret (xv_model xv).

Definition Fxwidget_view_window (xwidget_view : Lisp_Object) : M Lisp_Object :=
  let* _ := CHECK_XWIDGET_VIEW xwidget_view in
  let* p := XXWIDGET_VIEW xwidget_view in
  let* xv := get_xwidget_view p in
  ret (xv_w xv).

Definition Fselected_window : M Lisp_Object :=
  gets (fun st => Window (selected_window (host st))).

Fixpoint view_lookup_loop (tail : list Lisp_Object) (xwidget window : Lisp_Object)
  : M Lisp_Object :=
  match tail with
  | [] => ret Qnil
  | xwidget_view :: tail' =>
      let* m := Fxwidget_view_model xwidget_view in
      if EQ m xwidget then
        let* w := Fxwidget_view_window xwidget_view in
        if EQ w window then ret xwidget_view
        else view_lookup_loop tail' xwidget window
      else view_lookup_loop tail' xwidget window
  end.

Definition Fxwidget_view_lookup (xwidget window : Lisp_Object) : M Lisp_Object :=
  let* _ := CHECK_XWIDGET xwidget in
  let* window := (if NILP window then Fselected_window else ret window) in
  let* _ := CHECK_WINDOW window in
  let* views := gets Vxwidget_view_list in
  view_lookup_loop views xwidget window.

(** [NULL] is [None]. *)
Definition xwidget_view_lookup (xw w : nat) : M (option nat) :=
  let* r := Fxwidget_view_lookup (XWidget xw) (Window w) in
  if NILP r then ret None
  else let* p := XXWIDGET_VIEW r in ret (Some p).

(** A call on a widget pointer that may be [NULL]; GLib rejects a null
    instance and does nothing. *)
Definition gtk_on (o : option GtkWidget) (call : GtkWidget -> gtk_call) : M unit :=
  match o with Some widget => gtk (call widget) | None => ret tt end.

Definition set_size (width height : Z) (xw : xwidget) : xwidget :=
  {| xw_type := xw_type xw; xw_plist := xw_plist xw; xw_title := xw_title xw;
     xw_buffer := xw_buffer xw; xw_script_callbacks := xw_script_callbacks xw;
     xw_height := height; xw_width := width;
     xw_kill_without_query := xw_kill_without_query xw;
     xw_widget_osr := xw_widget_osr xw;
     xw_widgetwindow_osr := xw_widgetwindow_osr xw |}.

Definition Fxwidget_resize (xwidget new_width new_height : Lisp_Object) : M Lisp_Object :=
  let* _ := CHECK_XWIDGET xwidget in
  let* w := check_integer_range new_width 0 INT_MAX in
  let* h := check_integer_range new_height 0 INT_MAX in
  let* p := XXWIDGET xwidget in
  let* xw := get_xwidget p in
  let* _ := put_xwidget p (set_size w h xw) in
  (* If there is an offscreen widget resize it first.  *)
  let* _ := match xw_widget_osr xw with
            | Some widget_osr =>
                let* _ := gtk_on (xw_widgetwindow_osr xw) (fun ww => gtk_window_resize ww w h) in
                let* _ := gtk_on (xw_widgetwindow_osr xw) gtk_container_resize_children in
                gtk (gtk_widget_set_size_request widget_osr w h)
            | None => ret tt
            end in
  let* views := gets Vxwidget_view_list in
  let* _ := for_each views (fun o =>
              if XWIDGET_VIEW_P o then
                let* q := XXWIDGET_VIEW o in
                let* xv := get_xwidget_view q in
                let* m := XXWIDGET (xv_model xv) in
                when (Nat.eqb m p) (gtk (gtk_widget_set_size_request (xv_widget xv) w h))
              else ret tt) in
  ret Qnil.

(** ** Placement *)

(** The members of [struct glyph_string] that the drawing code reads. *)
Record glyph_string : Type := {
  gs_xwidget : nat;
  gs_w : nat;
  gs_f : nat;
  gs_x : Z;
  gs_y : Z;
  gs_height : Z
}.

Definition xwidget_init_view (xww : nat) (s : glyph_string) (x y : Z) : M nat :=
  let* initialized := gets (fun st => xg_gtk_initialized (host st)) in
  if negb initialized then xsignal (error "xwidget_init_view: GTK has not been initialized")
  else
    let* p := allocate_xwidget_view in
    let* _ := modify (fun st =>
                set_Vxwidget_view_list (XWidgetView p :: Vxwidget_view_list st) st) in
    let* raw := get_xwidget_view p in
    let* xw := get_xwidget xww in
    let webkit := EQ (xw_type xw) Qwebkit in
    let* _ := when webkit
                (let widget := GtkDrawingArea p in
                 let* _ := gtk (gtk_widget_set_app_paintable widget) in
                 let* _ := gtk (gtk_widget_add_events widget) in
                 let* _ := gtk_on (xw_widgetwindow_osr xw)
                             (fun osr => g_signal_connect osr "damage-event") in
                 let* _ := gtk (g_signal_connect widget "button-press-event") in
                 let* _ := gtk (g_signal_connect widget "button-release-event") in
                 let* _ := gtk (g_signal_connect widget "motion-notify-event") in
                 gtk (g_signal_connect widget "draw")) in
    let emacswindow := FrameWidget (gs_f s) in
    let widgetwindow := GtkFixed p in
    let* _ := gtk (gtk_widget_set_has_window widgetwindow) in
    (* [xv->widget] has been assigned for a webkit widget only.  For any
       other type the calls that follow are handed a pointer that was
       never set: what the memory held.  *)
    let* widget := (if webkit then ret (GtkDrawingArea p) else undefined) in
    let* _ := gtk (gtk_container_add widgetwindow widget) in
    let* _ := gtk (g_object_set_data widget "XG_FRAME_DATA") in
    let* _ := gtk (g_object_set_data widget "XG_XWIDGET") in
    let* _ := gtk (g_object_set_data widget "XG_XWIDGET_VIEW") in
    let* _ := gtk (g_object_set_data widgetwindow "XG_XWIDGET") in
    let* _ := gtk (g_object_set_data widgetwindow "XG_XWIDGET_VIEW") in
    let* _ := gtk (gtk_widget_set_size_request widget (xw_width xw) (xw_height xw)) in
    let* _ := gtk (gtk_widget_set_size_request widgetwindow (xw_width xw) (xw_height xw)) in
    let* _ := gtk (gtk_fixed_put (FrameWidget (gs_f s)) widgetwindow x y) in
    let* _ := put_xwidget_view p
                {| xv_model := XWidget xww; xv_w := Window (gs_w s);
                   xv_redisplayed := xv_redisplayed raw; xv_hidden := xv_hidden raw;
                   xv_widget := widget; xv_widgetwindow := widgetwindow;
                   xv_emacswindow := emacswindow;
                   xv_x := x; xv_y := y;
                   xv_clip_right := xv_clip_right raw;
                   xv_clip_bottom := xv_clip_bottom raw;
                   xv_clip_top := xv_clip_top raw;
                   xv_clip_left := xv_clip_left raw |} in
    let* _ := gtk (gtk_widget_show_all widgetwindow) in
    ret p.

Definition set_origin (x y : Z) (xv : xwidget_view) : xwidget_view :=
  {| xv_model := xv_model xv; xv_w := xv_w xv;
     xv_redisplayed := xv_redisplayed xv; xv_hidden := xv_hidden xv;
     xv_widget := xv_widget xv; xv_widgetwindow := xv_widgetwindow xv;
     xv_emacswindow := xv_emacswindow xv; xv_x := x; xv_y := y;
     xv_clip_right := xv_clip_right xv; xv_clip_bottom := xv_clip_bottom xv;
     xv_clip_top := xv_clip_top xv; xv_clip_left := xv_clip_left xv |}.

Definition set_clip (clip_right clip_bottom clip_top clip_left : Z) (xv : xwidget_view)
  : xwidget_view :=
  {| xv_model := xv_model xv; xv_w := xv_w xv;
     xv_redisplayed := xv_redisplayed xv; xv_hidden := xv_hidden xv;
     xv_widget := xv_widget xv; xv_widgetwindow := xv_widgetwindow xv;
     xv_emacswindow := xv_emacswindow xv; xv_x := xv_x xv; xv_y := xv_y xv;
     xv_clip_right := clip_right; xv_clip_bottom := clip_bottom;
     xv_clip_top := clip_top; xv_clip_left := clip_left |}.

(** The clip rectangle of a widget of size [width] x [height] drawn at
    [(x, y)] in a window whose text area is [ta]. *)
Record clip : Type := {
  clip_left : Z; clip_top : Z; clip_right : Z; clip_bottom : Z
}.

Definition compute_clip (ta : box) (width height x y : Z) : clip :=
  let clip_left := Z.max 0 (box_x ta - x) in
  let clip_right := Z.max clip_left (Z.min width (box_x ta + box_width ta - x)) in
  let clip_top := Z.max 0 (box_y ta - y) in
  let clip_bottom := Z.max clip_top (Z.min height (box_y ta + box_height ta - y)) in
  {| clip_left := clip_left; clip_top := clip_top;
     clip_right := clip_right; clip_bottom := clip_bottom |}.

(** The sums and differences that the clip rectangle is computed from fit
    an [int].  The rectangle then lies between 0 and [INT_MAX], so that
    [clip_right - clip_left], [clip_bottom - clip_top], [-clip_left] and
    [-clip_top] fit as well. *)
Definition clip_fits (ta : box) (x y : Z) : bool :=
  int_fits (box_x ta - x)
  && int_fits (box_x ta + box_width ta) && int_fits (box_x ta + box_width ta - x)
  && int_fits (box_y ta - y)
  && int_fits (box_y ta + box_height ta) && int_fits (box_y ta + box_height ta - y).

(** The sums of the movement test and of the move fit an [int]:
    [xv->x + xv->clip_left] and [x + clip_left]; [y + clip_top], which is
    computed by the test or else by the move; and [xv->y + xv->clip_top],
    which [||] computes only when the first two are equal. *)
Definition move_fits (v : xwidget_view) (x y : Z) (c : clip) : bool :=
  int_fits (xv_x v + xv_clip_left v) && int_fits (x + clip_left c)
  && int_fits (y + clip_top c)
  && (negb (xv_x v + xv_clip_left v =? x + clip_left c)
      || int_fits (xv_y v + xv_clip_top v)).

Definition x_draw_xwidget_glyph_string (s : glyph_string) : M unit :=
  let xww := gs_xwidget s in
  let* found := xwidget_view_lookup xww (gs_w s) in
  let* xw := get_xwidget xww in
  let x := gs_x s in
  let y := gs_y s + Z.quot (gs_height s) 2 - Z.quot (xw_height xw) 2 in
  let* _ := no_overflow (int_fits (gs_y s + Z.quot (gs_height s) 2) && int_fits y) in
  let* xv := match found with
             | Some p => ret p
             | None => xwidget_init_view xww s x y
             end in
  let* ta := gets (fun st => text_area (host st) (gs_w s)) in
  let* _ := when (EQ (xw_type xw) Qwebkit
                  && (negb (xw_width xw =? box_width ta)
                      || negb (xw_height xw =? box_height ta)))
              (let* _ := Fxwidget_resize (XWidget xww) (Fixnum (box_width ta))
                                         (Fixnum (box_height ta)) in
               ret tt) in
  let* xw := get_xwidget xww in
  let* _ := no_overflow (clip_fits ta x y) in
  let c := compute_clip ta (xw_width xw) (xw_height xw) x y in
  let* v := get_xwidget_view xv in
  let* _ := no_overflow (move_fits v x y c) in
  let moved := negb (xv_x v + xv_clip_left v =? x + clip_left c)
               || negb (xv_y v + xv_clip_top v =? y + clip_top c) in
  let* _ := put_xwidget_view xv (set_origin x y v) in
  let* _ := when moved
              (gtk (gtk_fixed_move (FrameWidget (gs_f s)) (xv_widgetwindow v)
                      (x + clip_left c) (y + clip_top c))) in
  let* _ := when (negb (xv_clip_right v =? clip_right c)
                  || negb (xv_clip_bottom v =? clip_bottom c)
                  || negb (xv_clip_top v =? clip_top c)
                  || negb (xv_clip_left v =? clip_left c))
              (let* _ := gtk (gtk_widget_set_size_request (xv_widgetwindow v)
                                (clip_right c - clip_left c)
                                (clip_bottom c - clip_top c)) in
               let* _ := gtk (gtk_fixed_move (xv_widgetwindow v) (xv_widget v)
                                (- clip_left c) (- clip_top c)) in
               let* v' := get_xwidget_view xv in
               put_xwidget_view xv
                 (set_clip (clip_right c) (clip_bottom c) (clip_top c) (clip_left c) v')) in
  let* v := get_xwidget_view xv in
  when (negb (xwidget_hidden v))
    (let* _ := gtk (gtk_widget_queue_draw (xv_widgetwindow v)) in
     gtk (gtk_widget_queue_draw (xv_widget v))).

(** ** Web view operations *)

Definition xwidget_is_web_view (xw : xwidget) : bool :=
  match xw_widget_osr xw with
  | Some widget_osr => WEBKIT_IS_WEB_VIEW widget_osr
  | None => false
  end.

Definition not_a_webkit_instance : string :=
  "ERROR xw->widget_osr does not hold a webkit instance"
  ++ String.String (Ascii.ascii_of_nat 10) "".

(** [WEBKIT_FN_INIT ()], followed by the rest of the function, which
    receives the address [xw]. *)
Definition WEBKIT_FN_INIT (xwidget : Lisp_Object) (rest : nat -> M Lisp_Object)
  : M Lisp_Object :=
  let* _ := CHECK_XWIDGET xwidget in
  let* xw := XXWIDGET xwidget in
  let* x := get_xwidget xw in
  if negb (xwidget_is_web_view x) then
    let* _ := diagnose (fputs_stdout not_a_webkit_instance) in
    ret Qnil
  else rest xw.

(** [WEBKIT_WEB_VIEW (xw->widget_osr)] *)
Definition WEBKIT_WEB_VIEW (xw : nat) : M GtkWidget :=
  let* x := get_xwidget xw in
  match xw_widget_osr x with
  | Some widget_osr => ret widget_osr
  | None => undefined
  end.

Definition Fxwidget_webkit_uri (xwidget : Lisp_Object) : M Lisp_Object :=
  WEBKIT_FN_INIT xwidget (fun xw =>
    let* wkwv := WEBKIT_WEB_VIEW xw in
    let* uri := gets (fun st => webkit_uri (host st) xw) in
    ret (build_string uri)).

Definition Fxwidget_webkit_title (xwidget : Lisp_Object) : M Lisp_Object :=
  WEBKIT_FN_INIT xwidget (fun xw =>
    let* wkwv := WEBKIT_WEB_VIEW xw in
    let* title := gets (fun st => webkit_title (host st) xw) in
    ret (build_string (default "" title))).

(** [ENCODE_FILE] and [ENCODE_SYSTEM] recode the text of a string; the
    embedding keeps the text. *)
Definition Fxwidget_webkit_goto_uri (xwidget uri : Lisp_Object) : M Lisp_Object :=
  WEBKIT_FN_INIT xwidget (fun xw =>
    let* _ := CHECK_STRING uri in
    let* data := SSDATA uri in
    let* wkwv := WEBKIT_WEB_VIEW xw in
    let* _ := gtk (webkit_web_view_load_uri wkwv data) in
    ret Qnil).

Definition Fxwidget_webkit_goto_history (xwidget rel_pos : Lisp_Object) : M Lisp_Object :=
  WEBKIT_FN_INIT xwidget (fun xw =>
    let* n := XFIXNUM rel_pos in
    (* Should be one of -1, 0, 1 *)
    if (n <? -1) || (n >? 1)
    then xsignal (args_out_of_range_3 rel_pos (make_fixnum (-1)) (make_fixnum 1))
    else
      let* wkwv := WEBKIT_WEB_VIEW xw in
      (* [switch (XFIXNAT (rel_pos))] *)
      let* pos := XFIXNAT rel_pos in
      let* _ := (if pos =? -1 then gtk (webkit_web_view_go_back wkwv)
                 else if pos =? 0 then gtk (webkit_web_view_reload wkwv)
                 else if pos =? 1 then gtk (webkit_web_view_go_forward wkwv)
                 else ret tt) in
      ret Qnil).

Definition set_zoom (p : nat) (level : float) (c : collaborators) : collaborators :=
  {| xg_gtk_initialized := xg_gtk_initialized c; current_buffer := current_buffer c;
     buffer_names := buffer_names c; next_buffer := next_buffer c;
     selected_window := selected_window c; text_area := text_area c;
     functionp := functionp c; webkit_sandbox_enabled := webkit_sandbox_enabled c;
     webkit_uri := webkit_uri c; webkit_title := webkit_title c;
     webkit_zoom_level := <[p := level]> (webkit_zoom_level c) |}.

(** [webkit_web_view_get_zoom_level (...) + zoom_change] is the sum of two
    C [double]s: IEEE 754 binary64 addition, rounding to nearest. *)
Definition Fxwidget_webkit_zoom (xwidget factor : Lisp_Object) : M Lisp_Object :=
  WEBKIT_FN_INIT xwidget (fun xw =>
    let* _ := match factor with
              | Float zoom_change =>
                  let* wkwv := WEBKIT_WEB_VIEW xw in
                  let* level := gets (fun st => webkit_zoom_level (host st) xw) in
                  let level' := PrimFloat.add level zoom_change in
                  let* _ := gtk (webkit_web_view_set_zoom_level wkwv level') in
                  modify (fun st => set_host (set_zoom xw level' (host st)) st)
              | _ => ret tt
              end in
    ret Qnil).

(** ** The callback table *)

Definition make_nil_vector (size : nat) : Lisp_Object := Vector (replicate size Qnil).

(** Modelled from the spec: [larger_vector] is defined in fns.c, which is
    not under src/ ("the table grows by reallocation when full").  The new
    vector holds the old elements at their indices, followed by nil
    slots: at least [incr_min] of them, and half the old size when that is
    more (a negative [nitems_max] sets no limit). *)
Definition larger_vector (vec : list Lisp_Object) (incr_min : nat) (nitems_max : Z)
  : list Lisp_Object :=
  vec ++ replicate (Nat.max incr_min (Nat.div2 (length vec))) Qnil.

(** The scan [for (idx = 0; !NILP (AREF (cbs, idx)); idx++)] of
    [save_script_callback], with its body; [fuel] bounds the number of
    increments still allowed.  The result is the table and the value of
    [idx] when the loop is left. *)
Fixpoint find_first_free (fuel : nat) (cbs : list Lisp_Object) (idx : nat)
  : option (list Lisp_Object * nat) :=
  match cbs !! idx with
  | None => None                      (* [AREF] past the end *)
  | Some cb =>
      if NILP cb then Some (cbs, idx)
      else if Nat.eqb (idx + 1) (length cbs)
           then Some (larger_vector cbs 1 (-1), idx)     (* [break] *)
           else match fuel with
                | O => None
                | S fuel' => find_first_free fuel' cbs (idx + 1)%nat
                end
  end.

(** Save script and fun in the script/callback save vector and return
    its index. *)
Definition save_script_callback (xw : nat) (script : string) (fn : Lisp_Object) : M Z :=
  let* x := get_xwidget xw in
  let* cbs := match (if NILP (xw_script_callbacks x) then make_nil_vector 32
                     else xw_script_callbacks x) with
              | Vector contents => ret contents
              | _ => undefined
              end in
  match find_first_free (length cbs) cbs 0 with
  | None => undefined
  | Some (cbs, idx) =>
      let* cbs := ASET (Vector cbs) (Z.of_nat idx) (Cons (MintPtr script) fn) in
      let* _ := put_xwidget xw (set_script_callbacks cbs x) in
      ret (Z.of_nat idx)
  end.

Definition Fxwidget_webkit_execute_script (xwidget script fn : Lisp_Object)
  : M Lisp_Object :=
  WEBKIT_FN_INIT xwidget (fun xw =>
    let* _ := CHECK_STRING script in
    let* is_function := gets (fun st => functionp (host st) fn) in
    if negb (NILP fn) && negb is_function
    then xsignal (wrong_type_argument "invalid-function" fn)
    else
      let* text := SSDATA script in
      (* Protect script and fun during GC.  *)
      let* idx := save_script_callback xw text fn in
      let* x := get_xwidget xw in
      let* cb := AREF (xw_script_callbacks x) idx in
      let* script_string := (match XCAR cb with
                             | MintPtr t => ret t
                             | _ => undefined
                             end) in
      let* wkwv := WEBKIT_WEB_VIEW xw in
      let* _ := gtk (webkit_web_view_run_javascript wkwv script_string idx) in
      ret Qnil).

(** ** Accessors *)

Definition Fvector (l : list Lisp_Object) : Lisp_Object := Vector l.

Definition Fxwidget_info (xwidget : Lisp_Object) : M Lisp_Object :=
  let* _ := CHECK_XWIDGET xwidget in
  let* p := XXWIDGET xwidget in
  let* xw := get_xwidget p in
  ret (Fvector [xw_type xw; xw_title xw;
                make_fixnum (xw_width xw); make_fixnum (xw_height xw)]).

Definition Fxwidget_view_info (xwidget_view : Lisp_Object) : M Lisp_Object :=
  let* _ := CHECK_XWIDGET_VIEW xwidget_view in
  let* p := XXWIDGET_VIEW xwidget_view in
  let* xv := get_xwidget_view p in
  ret (Fvector [make_fixnum (xv_x xv); make_fixnum (xv_y xv);
                make_fixnum (xv_clip_right xv); make_fixnum (xv_clip_bottom xv);
                make_fixnum (xv_clip_top xv); make_fixnum (xv_clip_left xv)]).

Definition Fxwidget_plist (xwidget : Lisp_Object) : M Lisp_Object :=
  let* _ := CHECK_XWIDGET xwidget in
  let* p := XXWIDGET xwidget in
  let* xw := get_xwidget p in
  ret (xw_plist xw).

Definition set_kill_without_query (b : bool) (xw : xwidget) : xwidget :=
  {| xw_type := xw_type xw; xw_plist := xw_plist xw; xw_title := xw_title xw;
     xw_buffer := xw_buffer xw; xw_script_callbacks := xw_script_callbacks xw;
     xw_height := xw_height xw; xw_width := xw_width xw;
     xw_kill_without_query := b;
     xw_widget_osr := xw_widget_osr xw;
     xw_widgetwindow_osr := xw_widgetwindow_osr xw |}.

Definition Fset_xwidget_query_on_exit_flag (xwidget flag : Lisp_Object) : M Lisp_Object :=
  let* _ := CHECK_XWIDGET xwidget in
  let* p := XXWIDGET xwidget in
  let* xw := get_xwidget p in
  let* _ := put_xwidget p (set_kill_without_query (NILP flag) xw) in
  ret flag.

Definition Fxwidget_query_on_exit_flag (xwidget : Lisp_Object) : M Lisp_Object :=
  let* _ := CHECK_XWIDGET xwidget in
  let* p := XXWIDGET xwidget in
  let* xw := get_xwidget p in
  ret (if xw_kill_without_query xw then Qnil else Qt).

(** ** Visibility tracking *)

(** A glyph is a tagged union; only an xwidget glyph carries a widget. *)
Inductive glyph : Type :=
| CHAR_GLYPH
| COMPOSITE_GLYPH
| GLYPHLESS_GLYPH
| IMAGE_GLYPH
| STRETCH_GLYPH
| XWIDGET_GLYPH (xwidget : nat).

(** A row holds, for each of the areas [LEFT_MARGIN_AREA], [TEXT_AREA]
    and [RIGHT_MARGIN_AREA] in this order, the [used[area]] glyphs that
    start at [glyphs[area]]. *)
Record glyph_row : Type := {
  enabled_p : bool;
  glyphs : list (list glyph)
}.

(** [matrix->nrows] rows. *)
Record glyph_matrix : Type := {
  rows : list glyph_row
}.

(** Set up detection of touched xwidget. *)
Definition xwidget_start_redisplay : M unit :=
  let* views := gets Vxwidget_view_list in
  for_each views (fun o =>
    if XWIDGET_VIEW_P o then
      let* p := XXWIDGET_VIEW o in
      let* xv := get_xwidget_view p in
      put_xwidget_view p (set_redisplayed false xv)
    else ret tt).

(** The xwidget was touched during redisplay, so it isn't a candidate
    for hiding. *)
Definition xwidget_touch (p : nat) : M unit :=
  let* xv := get_xwidget_view p in
  put_xwidget_view p (set_redisplayed true xv).

Definition xwidget_touched (xv : xwidget_view) : bool := xv_redisplayed xv.

Definition touch_glyph (w : nat) (g : glyph) : M unit :=
  match g with
  | XWIDGET_GLYPH xwidget =>
      let* xv := xwidget_view_lookup xwidget w in
      match xv with
      | Some p => xwidget_touch p
      | None => undefined                 (* [eassume (xv)] *)
      end
  | _ => ret tt
  end.

(** Redisplay has ended, now we should hide untouched xwidgets. *)
Definition xwidget_end_redisplay (w : nat) (matrix : glyph_matrix) : M unit :=
  let* _ := xwidget_start_redisplay in
  let* _ := for_each (rows matrix) (fun row =>
              when (enabled_p row)
                (for_each (glyphs row) (fun area =>
                   for_each area (touch_glyph w)))) in
  let* views := gets Vxwidget_view_list in
  for_each views (fun o =>
    if XWIDGET_VIEW_P o then
      let* p := XXWIDGET_VIEW o in
      let* xv := get_xwidget_view p in
      (* "touched" is only meaningful for the current window, so
         disregard other views.  *)
      if EQ (xv_w xv) (Window w) then
        if xwidget_touched xv then xwidget_show_view p else xwidget_hide_view p
      else ret tt
    else ret tt).

(** ** Killing the widgets of a buffer *)

(** The loop over the callback table: every saved script text is freed
    and every slot set to nil. *)
Fixpoint release_callbacks (cbs : list Lisp_Object) : M unit :=
  match cbs with
  | [] => ret tt
  | cb :: rest =>
      let* _ := when (negb (NILP cb)) (xfree (XCAR cb)) in
      release_callbacks rest
  end.

Definition kill_xwidget (xwidget : Lisp_Object) : M unit :=
  let* _ := modify (fun st => set_Vxwidget_list (Fdelq xwidget (Vxwidget_list st)) st) in
  (* TODO free the GTK things in xw.  *)
  let* _ := CHECK_XWIDGET xwidget in
  let* p := XXWIDGET xwidget in
  let* xw := get_xwidget p in
  let* _ := match xw_widget_osr xw, xw_widgetwindow_osr xw with
            | Some widget_osr, Some widgetwindow_osr =>
                let* _ := gtk (gtk_widget_destroy widget_osr) in
                gtk (gtk_widget_destroy widgetwindow_osr)
            | _, _ => ret tt
            end in
  if NILP (xw_script_callbacks xw) then ret tt
  else
    match xw_script_callbacks xw with
    | Vector cbs =>
        let* _ := release_callbacks cbs in
        put_xwidget p (set_script_callbacks (Vector (replicate (length cbs) Qnil)) xw)
    | _ => undefined
    end.

(** Kill all xwidget in BUFFER. *)
Definition kill_buffer_xwidgets (buffer : Lisp_Object) : M unit :=
  let* tail := Fget_buffer_xwidgets buffer in
  for_each tail kill_xwidget.

(** ** A concrete editor state, for the examples *)

Definition raw_xwidget : xwidget :=
  {| xw_type := Qnil; xw_plist := Qnil; xw_title := Qnil; xw_buffer := Qnil;
     xw_script_callbacks := Qnil; xw_height := 0; xw_width := 0;
     xw_kill_without_query := false; xw_widget_osr := None;
     xw_widgetwindow_osr := None |}.

Definition raw_xwidget_view : xwidget_view :=
  {| xv_model := Qnil; xv_w := Qnil; xv_redisplayed := false; xv_hidden := false;
     xv_widget := FrameWidget 0; xv_widgetwindow := FrameWidget 0;
     xv_emacswindow := FrameWidget 0; xv_x := 0; xv_y := 0;
     xv_clip_right := 0; xv_clip_bottom := 0; xv_clip_top := 0; xv_clip_left := 0 |}.

(** One buffer, ["*scratch*"], current; GTK initialized; every window
    has the text area [ta]. *)
Definition sample_host (ta : box) : collaborators :=
  {| xg_gtk_initialized := true; current_buffer := 0;
     buffer_names := [("*scratch*", 0%nat)]; next_buffer := 1;
     selected_window := 0; text_area := fun _ => ta;
     functionp := fun o => match o with Closure _ => true | _ => false end;
     webkit_sandbox_enabled := false;
     webkit_uri := fun _ => "about:blank"; webkit_title := fun _ => None;
     webkit_zoom_level := fun _ => 1%float |}.

(** The state after [syms_of_xwidget]: both registries are nil. *)
Definition startup (ta : box) : emacs :=
  {| xwidgets := fun _ => raw_xwidget; next_xwidget := 0;
     xwidget_views := fun _ => raw_xwidget_view; next_xwidget_view := 0;
     Vxwidget_list := []; Vxwidget_view_list := [];
     kbd_buffer := []; gtk_log := []; freed := []; diagnostics := [];
     host := sample_host ta |}.

(** The state an editor command leaves behind, whether it returned or
    signalled. *)
Definition state_after {A} (o : outcome A) (st : emacs) : emacs :=
  match o with
  | Normal _ st' | Signal _ st' => st'
  | Undefined => st
  end.

Definition run {A} (c : M A) (st : emacs) : emacs := state_after (c st) st.

Definition returned {A} (o : outcome A) : option A :=
  match o with Normal a _ => Some a | _ => None end.

Definition signalled {A} (o : outcome A) : bool :=
  match o with Signal _ _ => true | _ => false end.

(** ** Notions used to state the properties *)

Section JSCValue_induction.

Variable P : JSCValue -> Prop.
Hypothesis P_string : forall s, P (JString s).
Hypothesis P_boolean : forall b, P (JBoolean b).
Hypothesis P_number : forall d, P (JNumber d).
Hypothesis P_array : forall l, Forall P l -> P (JArray l).
Hypothesis P_object : forall ps, Forall (fun p => P (snd p)) ps -> P (JObject ps).
Hypothesis P_other : P JOther.

(** Induction on a value, with the hypothesis for every element of an
    array and every property of an object. *)
Fixpoint JSCValue_nested_ind (v : JSCValue) : P v :=
  match v with
  | JString s => P_string s
  | JBoolean b => P_boolean b
  | JNumber d => P_number d
  | JArray l =>
      P_array l
        ((fix all (l : list JSCValue) : Forall P l :=
            match l with
            | [] => List.Forall_nil P
            | e :: l' => @List.Forall_cons _ P e l' (JSCValue_nested_ind e) (all l')
            end) l)
  | JObject ps =>
      P_object ps
        ((fix all (ps : list (string * JSCValue)) : Forall (fun p => P (snd p)) ps :=
            match ps with
            | [] => List.Forall_nil _
            | p :: ps' =>
                @List.Forall_cons _ (fun p => P (snd p)) p ps'
                  (JSCValue_nested_ind (snd p)) (all ps')
            end) ps)
  | JOther => P_other
  end.

End JSCValue_induction.

(** The integer part of a number. *)
Definition truncate (d : Q) : Z := Z.quot (Qnum d) (Z.pos (Qden d)).

(** The conversion in the words of the spec: strings to strings,
    booleans to booleans, numbers to integers by truncation, arrays to
    the sequence of their converted elements, objects to the sequence of
    their (name, converted value) pairs, anything else to nil. *)
Fixpoint js_to_lisp_spec (v : JSCValue) : Lisp_Object :=
  match v with
  | JString s => String s
  | JBoolean b => if b then Qt else Qnil
  | JNumber d => Fixnum (truncate d)
  | JArray l => Vector (List.map js_to_lisp_spec l)
  | JObject ps =>
      Vector (List.map (fun p => match p with
                                 | (name, property) =>
                                     Cons (String name) (js_to_lisp_spec property)
                                 end) ps)
  | JOther => Qnil
  end.

(** The text has no NUL character: a C string carries all of it. *)
Definition c_text (s : string) : bool := String.eqb (c_string s) s.

(** The values that keep their text as C strings: no string and no
    property name has a NUL character, at every depth. *)
Fixpoint js_c_text (v : JSCValue) : bool :=
  match v with
  | JString s => c_text s
  | JArray l => forallb js_c_text l
  | JObject ps =>
      forallb (fun p => match p with
                        | (name, property) => c_text name && js_c_text property
                        end) ps
  | _ => true
  end.

(** The property names of an object are distinct, at every depth; this
    holds of every JavaScript object. *)
Fixpoint js_names_distinct (v : JSCValue) : bool :=
  match v with
  | JArray l => forallb js_names_distinct l
  | JObject ps =>
      bool_decide (NoDup (List.map fst ps))
      && forallb (fun p => match p with (_, property) => js_names_distinct property end) ps
  | _ => true
  end.

(** The values on which nothing is lost to the widths of [gint32] and
    [guint]: the integer part of every number is a [gint32], every array
    is shorter than 2^31 and every object has fewer than 2^32 properties,
    at every depth. *)
Fixpoint js_fits (v : JSCValue) : bool :=
  match v with
  | JNumber d => (- 2 ^ 31 <=? truncate d) && (truncate d <? 2 ^ 31)
  | JArray l => (Z.of_nat (length l) <? 2 ^ 31) && forallb js_fits l
  | JObject ps =>
      (Z.of_nat (length ps) <? 2 ^ 32)
      && forallb (fun p => match p with (_, property) => js_fits property end) ps
  | _ => true
  end.

(** The two loops of [webkit_js_to_lisp], named. *)
Fixpoint fill_array (es : list JSCValue) (n : nat) : result (list Lisp_Object) :=
  match n with
  | O => Ok []
  | S n' =>
      match es with
      | [] => Ok (replicate n Qnil)
      | e :: es' =>
          match webkit_js_to_lisp e with
          | Raise err => Raise err
          | Ok o => match fill_array es' n' with
                    | Raise err => Raise err
                    | Ok os => Ok (o :: os)
                    end
          end
      end
  end.

(** What [jsc_value_object_get_property] returns for a name: the property
    that has this name, [undefined] when none has (a property that is not
    enumerable, which only a name cut at a NUL can name, is not
    represented). *)
Fixpoint jsc_value_object_get_property (ps : list (string * JSCValue)) (name : string)
  : JSCValue :=
  match ps with
  | [] => JOther
  | (name', property) :: ps' =>
      if String.eqb name' name then property
      else jsc_value_object_get_property ps' name
  end.

Fixpoint fill_object (ps : list (string * JSCValue)) (names : list string) (n : nat)
  : result (list Lisp_Object) :=
  match n with
  | O => Ok []
  | S n' =>
      match names with
      | [] => Ok (replicate n Qnil)
      | name :: names' =>
          match webkit_js_to_lisp (jsc_value_object_get_property ps name) with
          | Raise err => Raise err
          | Ok o => match fill_object ps names' n' with
                    | Raise err => Raise err
                    | Ok os => Ok (Cons (build_string name) o :: os)
                    end
          end
      end
  end.

(** An array of 2^31 elements, all [undefined]. *)
Definition long_array : JSCValue := JArray (replicate (Z.to_nat (2 ^ 31)) JOther).

(** The text of the three characters a, NUL, b. *)
Definition nul_separated : string :=
  "a" ++ String.String Ascii.zero "b".

(** The value of the spec's example, [{"a": [1, "x", true], "b": {}}]. *)
Definition nested_example : JSCValue :=
  JObject [("a", JArray [JNumber (inject_Z 1); JString "x"; JBoolean true]);
           ("b", JObject [])].

(** The slots of the callback table of the widget at [xw]. *)
Definition callback_slots (st : emacs) (xw : nat) : list Lisp_Object :=
  match xw_script_callbacks (xwidgets st xw) with
  | Vector contents => contents
  | _ => []
  end.

(** A slot is pending when it holds a request, that is, is not nil. *)
Definition pending (cbs : list Lisp_Object) (i : nat) : Prop :=
  exists cb, cbs !! i = Some cb /\ NILP cb = false.

(** A continuation is registered in a slot that holds a pair whose
    second component is not nil. *)
Definition continuation_registered (cb : Lisp_Object) : bool :=
  negb (NILP cb) && negb (NILP (XCDR cb)).

Definition script_callback_event (xw : nat) (cb lisp_value : Lisp_Object) : input_event :=
  {| kind := XWIDGET_EVENT; frame_or_window := Qnil;
     arg := list4 (Symbol "javascript-callback") (XWidget xw) (XCDR cb) lisp_value |}.

(** The callback [webkit_javascript_finished_cb], computed on a table
    [cbs] whose slot [idx] holds [cb]. *)
Definition finished_cb_outcome (st : emacs) (xw : nat) (cbs : list Lisp_Object)
    (idx : nat) (cb : Lisp_Object) (res : GAsyncResult) : outcome unit :=
  let st1 := set_xwidgets
               (<[xw := set_script_callbacks (Vector (<[idx := Qnil]> cbs))
                          (xwidgets st xw)]> (xwidgets st)) st in
  let st2 := if NILP cb then st1 else set_freed (freed st1 ++ [XCAR cb]) st1 in
  match res with
  | js_error msg =>
      Normal tt (set_diagnostics
                   (diagnostics st2 ++ [g_warning ("Error running javascript: " ++ msg)])
                   st2)
  | js_value value =>
      if continuation_registered cb then
        match webkit_js_to_lisp value with
        | Ok lisp_value =>
            Normal tt (set_kbd_buffer
                         (kbd_buffer st2 ++ [script_callback_event xw cb lisp_value]) st2)
        | Raise e => Signal e st2
        end
      else Normal tt st2
  end.

(** A webkit widget, 300 x 200, in the current buffer of a fresh editor
    whose windows have the text area (10, 10, 300, 200). *)
Definition sample_text_area : box :=
  {| box_x := 10; box_y := 10; box_width := 300; box_height := 200 |}.

Definition webkit_widget : emacs :=
  run (Fmake_xwidget Qwebkit (String "browser") (Fixnum 300) (Fixnum 200) Qnil Qnil)
      (startup sample_text_area).

(** [requests n st]: [n] scripts sent to the widget at address 0, the
    [i]-th with the continuation [Closure i], none of them finished. *)
Fixpoint requests (n : nat) (st : emacs) : emacs :=
  match n with
  | O => st
  | S n' =>
      run (Fxwidget_webkit_execute_script (XWidget 0)
             (String ("f(" ++ pretty n' ++ ")")) (Closure n'))
          (requests n' st)
  end.

(** What every web view operation does on a widget that is not a web
    view: a line on stdout, and nil. *)
Definition not_a_web_view (st : emacs) : outcome Lisp_Object :=
  Normal Qnil
    (set_diagnostics (diagnostics st ++ [fputs_stdout not_a_webkit_instance]) st).

(** A widget of a type other than webkit, in the current buffer of a
    fresh editor. *)
Definition other_widget : emacs :=
  run (Fmake_xwidget (Symbol "button") (String "ok") (Fixnum 80) (Fixnum 20) Qnil Qnil)
      (startup sample_text_area).

(** The event [webkit_download_cb] enqueues. *)
Definition download_started_event (arg1 : WebKitDownload) : input_event :=
  {| kind := XWIDGET_EVENT; frame_or_window := Qnil;
     arg := list3 (Symbol "download-started") (XWidget (download_web_view arg1))
                  (String (download_request_uri arg1)) |}.

(** A download of a PDF file whose destination is known. *)
Definition sample_download : WebKitDownload :=
  {| download_web_view := 0;
     download_request_uri := "https://example.org/paper.pdf";
     download_response_mime_type := "application/pdf";
     download_destination := Some "/tmp/paper.pdf" |}.

(** ** Notions for the buffer teardown *)

(** The callback table of a widget is nil or a vector; nothing in
    xwidget.c stores anything else there. *)
Definition callback_table_ok (xw : xwidget) : Prop :=
  xw_script_callbacks xw = Qnil \/ exists cbs, xw_script_callbacks xw = Vector cbs.

(** The object is an xwidget whose buffer is [buffer]. *)
Definition owned_by (h : nat -> xwidget) (buffer o : Lisp_Object) : bool :=
  match o with
  | XWidget p => EQ (xw_buffer (h p)) buffer
  | _ => false
  end.

(** The scan of get-buffer-xwidgets over [tail], consing onto [xw_list]. *)
Fixpoint buffer_xwidgets (h : nat -> xwidget) (buffer : Lisp_Object)
    (tail xw_list : list Lisp_Object) : list Lisp_Object :=
  match tail with
  | [] => xw_list
  | xw :: tail' =>
      buffer_xwidgets h buffer tail' (if owned_by h buffer xw then xw :: xw_list else xw_list)
  end.

(** The script texts that [release_callbacks] frees. *)
Fixpoint released (cbs : list Lisp_Object) : list Lisp_Object :=
  match cbs with
  | [] => []
  | cb :: rest => if NILP cb then released rest else XCAR cb :: released rest
  end.

(** The state that [kill_xwidget] leaves for the widget at [p]. *)
Definition killed (p : nat) (st : emacs) : emacs :=
  let xw := xwidgets st p in
  let st1 := set_Vxwidget_list (Fdelq (XWidget p) (Vxwidget_list st)) st in
  let st2 := match xw_widget_osr xw, xw_widgetwindow_osr xw with
             | Some widget_osr, Some widgetwindow_osr =>
                 set_gtk_log ((gtk_log st1 ++ [gtk_widget_destroy widget_osr])
                              ++ [gtk_widget_destroy widgetwindow_osr]) st1
             | _, _ => st1
             end in
  match xw_script_callbacks xw with
  | Vector cbs =>
      set_xwidgets
        (<[p := set_script_callbacks (Vector (replicate (length cbs) Qnil)) xw]>
           (xwidgets st2))
        (set_freed (freed st2 ++ released cbs) st2)
  | _ => st2
  end.

(** Every slot of the table is nil. *)
Definition slots_released (st : emacs) (p : nat) : Prop :=
  forall i cb, callback_slots st p !! i = Some cb -> cb = Qnil.

(** What [kill_xwidget] leaves of a widget: everything but its table. *)
Definition same_widget (xw xw' : xwidget) : Prop :=
  xw_type xw' = xw_type xw /\ xw_title xw' = xw_title xw
  /\ xw_buffer xw' = xw_buffer xw /\ xw_plist xw' = xw_plist xw
  /\ xw_width xw' = xw_width xw /\ xw_height xw' = xw_height xw
  /\ xw_kill_without_query xw' = xw_kill_without_query xw.

(** ** Notions for placement and visibility *)

(** The search of xwidget-view-lookup through [tail], on the heap [h]. *)
Fixpoint lookup_in (h : nat -> xwidget_view) (tail : list Lisp_Object)
    (xwidget window : Lisp_Object) : result Lisp_Object :=
  match tail with
  | [] => Ok Qnil
  | o :: tail' =>
      match o with
      | XWidgetView q =>
          if EQ (xv_model (h q)) xwidget && EQ (xv_w (h q)) window then Ok o
          else lookup_in h tail' xwidget window
      | _ => Raise (wrong_type_argument "xwidget-view-p" o)
      end
  end.

(** The view that [xwidget_view_lookup (xw, w)] finds. *)
Definition view_of (h : nat -> xwidget_view) (registry : list Lisp_Object) (xw w : nat)
  : result (option nat) :=
  match lookup_in h registry (XWidget xw) (Window w) with
  | Ok (XWidgetView q) => Ok (Some q)
  | Ok _ => Ok None
  | Raise e => Raise e
  end.

(** The end of [x_draw_xwidget_glyph_string], from the computation of
    the clip rectangle on: [ta] is the text area of the window and [xv]
    the view. *)
Definition place_clipped (s : glyph_string) (ta : box) (x y : Z) (xv : nat) : M unit :=
  let* xw := get_xwidget (gs_xwidget s) in
  let* _ := no_overflow (clip_fits ta x y) in
  let c := compute_clip ta (xw_width xw) (xw_height xw) x y in
  let* v := get_xwidget_view xv in
  let* _ := no_overflow (move_fits v x y c) in
  let moved := negb (xv_x v + xv_clip_left v =? x + clip_left c)
               || negb (xv_y v + xv_clip_top v =? y + clip_top c) in
  let* _ := put_xwidget_view xv (set_origin x y v) in
  let* _ := when moved
              (gtk (gtk_fixed_move (FrameWidget (gs_f s)) (xv_widgetwindow v)
                      (x + clip_left c) (y + clip_top c))) in
  let* _ := when (negb (xv_clip_right v =? clip_right c)
                  || negb (xv_clip_bottom v =? clip_bottom c)
                  || negb (xv_clip_top v =? clip_top c)
                  || negb (xv_clip_left v =? clip_left c))
              (let* _ := gtk (gtk_widget_set_size_request (xv_widgetwindow v)
                                (clip_right c - clip_left c)
                                (clip_bottom c - clip_top c)) in
               let* _ := gtk (gtk_fixed_move (xv_widgetwindow v) (xv_widget v)
                                (- clip_left c) (- clip_top c)) in
               let* v' := get_xwidget_view xv in
               put_xwidget_view xv
                 (set_clip (clip_right c) (clip_bottom c) (clip_top c) (clip_left c) v')) in
  let* v := get_xwidget_view xv in
  when (negb (xwidget_hidden v))
    (let* _ := gtk (gtk_widget_queue_draw (xv_widgetwindow v)) in
     gtk (gtk_widget_queue_draw (xv_widget v))).

(** The part of [x_draw_xwidget_glyph_string] that follows the lookup or
    creation of the view [xv]: [xw] is the widget as read on entry. *)
Definition place_view (s : glyph_string) (xw : xwidget) (x y : Z) (xv : nat) : M unit :=
  let* ta := gets (fun st => text_area (host st) (gs_w s)) in
  let* _ := when (EQ (xw_type xw) Qwebkit
                  && (negb (xw_width xw =? box_width ta)
                      || negb (xw_height xw =? box_height ta)))
              (let* _ := Fxwidget_resize (XWidget (gs_xwidget s)) (Fixnum (box_width ta))
                                         (Fixnum (box_height ta)) in
               ret tt) in
  place_clipped s ta x y xv.

(** The view [v] placed at [(x, y)] with the clip rectangle [c]. *)
Definition placed (x y : Z) (c : clip) (v : xwidget_view) : xwidget_view :=
  set_clip (clip_right c) (clip_bottom c) (clip_top c) (clip_left c) (set_origin x y v).

(** The toolkit calls by which [place_clipped] moves and reclips [v]. *)
Definition placement_calls (s : glyph_string) (x y : Z) (c : clip) (v : xwidget_view)
  : list gtk_call :=
  (if negb (xv_x v + xv_clip_left v =? x + clip_left c)
      || negb (xv_y v + xv_clip_top v =? y + clip_top c)
   then [gtk_fixed_move (FrameWidget (gs_f s)) (xv_widgetwindow v)
           (x + clip_left c) (y + clip_top c)]
   else [])
  ++ (if negb (xv_clip_right v =? clip_right c)
         || negb (xv_clip_bottom v =? clip_bottom c)
         || negb (xv_clip_top v =? clip_top c)
         || negb (xv_clip_left v =? clip_left c)
      then [gtk_widget_set_size_request (xv_widgetwindow v)
              (clip_right c - clip_left c) (clip_bottom c - clip_top c);
            gtk_fixed_move (xv_widgetwindow v) (xv_widget v)
              (- clip_left c) (- clip_top c)]
      else []).

(** The vertical origin that a draw of [s] computes in the state [st]. *)
Definition draw_y (s : glyph_string) (st : emacs) : Z :=
  gs_y s + Z.quot (gs_height s) 2 - Z.quot (xw_height (xwidgets st (gs_xwidget s))) 2.

(** The view holds the origin [(x, y)] and the clip rectangle [c]. *)
Definition placed_at (v : xwidget_view) (x y : Z) (c : clip) : Prop :=
  xv_x v = x /\ xv_y v = y
  /\ xv_clip_left v = clip_left c /\ xv_clip_top v = clip_top c
  /\ xv_clip_right v = clip_right c /\ xv_clip_bottom v = clip_bottom c.

(** The second state has the heaps, the registries and the collaborators
    of the first. *)
Definition only_log (st st' : emacs) : Prop :=
  xwidgets st' = xwidgets st
  /\ xwidget_views st' = xwidget_views st
  /\ next_xwidget_view st' = next_xwidget_view st
  /\ Vxwidget_view_list st' = Vxwidget_view_list st
  /\ host st' = host st.

(** The redraw requests that end a draw of the view [v]. *)
Definition queue_draws (v : xwidget_view) : list gtk_call :=
  if xv_hidden v then []
  else [gtk_widget_queue_draw (xv_widgetwindow v); gtk_widget_queue_draw (xv_widget v)].

(** The window's text area becomes [ta]. *)
Definition set_text_area (ta : box) (c : collaborators) : collaborators :=
  {| xg_gtk_initialized := xg_gtk_initialized c; current_buffer := current_buffer c;
     buffer_names := buffer_names c; next_buffer := next_buffer c;
     selected_window := selected_window c; text_area := fun _ => ta;
     functionp := functionp c; webkit_sandbox_enabled := webkit_sandbox_enabled c;
     webkit_uri := webkit_uri c; webkit_title := webkit_title c;
     webkit_zoom_level := webkit_zoom_level c |}.

(** The glyph string of a widget glyph 200 pixels high at (50, 60) in
    window 0 of frame 0. *)
Definition sample_glyph_string : glyph_string :=
  {| gs_xwidget := 0; gs_w := 0; gs_f := 0; gs_x := 50; gs_y := 60; gs_height := 200 |}.

(** The widget drawn once in its window: its view exists. *)
Definition drawn_widget : emacs :=
  run (x_draw_xwidget_glyph_string sample_glyph_string) webkit_widget.

(** Then the window shrinks to a text area 100 pixels high. *)
Definition shrunk_window : emacs :=
  set_host (set_text_area {| box_x := 10; box_y := 10; box_width := 300; box_height := 100 |}
                          (host drawn_widget))
           drawn_widget.

(** [v'] is [v] but for its two flags, [hidden] and [redisplayed]. *)
Definition flags_only (v v' : xwidget_view) : Prop :=
  v' = set_hidden (xv_hidden v') (set_redisplayed (xv_redisplayed v') v).

(** The view at [q] is among the objects [l]. *)
Definition registered (q : nat) (l : list Lisp_Object) : bool :=
  existsb (EQ (XWidgetView q)) l.

(** The heap after the loop of [xwidget_start_redisplay] over [l]. *)
Fixpoint reset_redisplayed (l : list Lisp_Object) (h : nat -> xwidget_view)
  : nat -> xwidget_view :=
  match l with
  | [] => h
  | o :: l' =>
      reset_redisplayed l'
        (match o with
         | XWidgetView q => <[q := set_redisplayed false (h q)]> h
         | _ => h
         end)
  end.

(** The heap after [xwidget_touch] of the views [qs], in order. *)
Fixpoint touch_all (qs : list nat) (h : nat -> xwidget_view) : nat -> xwidget_view :=
  match qs with
  | [] => h
  | q :: qs' => touch_all qs' (<[q := set_redisplayed true (h q)]> h)
  end.

(** The glyphs that the scan of [xwidget_end_redisplay] visits: those of
    the enabled rows, in order. *)
Definition matrix_glyphs (matrix : glyph_matrix) : list glyph :=
  flat_map (fun row => if enabled_p row then concat (glyphs row) else []) (rows matrix).

(** The view that an xwidget glyph of window [w] resolves to. *)
Definition glyph_view (h : nat -> xwidget_view) (registry : list Lisp_Object) (w : nat)
    (g : glyph) : option nat :=
  match g with
  | XWIDGET_GLYPH xwidget =>
      match view_of h registry xwidget w with
      | Ok (Some q) => Some q
      | _ => None
      end
  | _ => None
  end.

(** Every xwidget glyph has a view: what [eassume (xv)] assumes. *)
Definition glyph_resolves (h : nat -> xwidget_view) (registry : list Lisp_Object) (w : nat)
    (g : glyph) : Prop :=
  match g with
  | XWIDGET_GLYPH _ => exists q, glyph_view h registry w g = Some q
  | _ => True
  end.

(** The views that the scan touches, in order. *)
Fixpoint touched_views (h : nat -> xwidget_view) (registry : list Lisp_Object) (w : nat)
    (gs : list glyph) : list nat :=
  match gs with
  | [] => []
  | g :: gs' =>
      match glyph_view h registry w g with
      | Some q => q :: touched_views h registry w gs'
      | None => touched_views h registry w gs'
      end
  end.

(** The toolkit calls of [xwidget_show_view] and [xwidget_hide_view]. *)
Definition show_calls (v : xwidget_view) : list gtk_call :=
  [gtk_widget_show (xv_widgetwindow v);
   gtk_fixed_move (xv_emacswindow v) (xv_widgetwindow v)
     (xv_x v + xv_clip_left v) (xv_y v + xv_clip_top v)].

Definition hide_calls (v : xwidget_view) : list gtk_call :=
  [gtk_fixed_move (xv_emacswindow v) (xv_widgetwindow v) 10000 10000].

(** The last loop of [xwidget_end_redisplay] over [l], on a heap and a
    log. *)
Fixpoint reconcile (w : nat) (l : list Lisp_Object)
    (h : nat -> xwidget_view) (log : list gtk_call)
  : (nat -> xwidget_view) * list gtk_call :=
  match l with
  | [] => (h, log)
  | o :: l' =>
      match o with
      | XWidgetView q =>
          let v := h q in
          if EQ (xv_w v) (Window w) then
            if xv_redisplayed v
            then reconcile w l' (<[q := set_hidden false v]> h) (log ++ show_calls v)
            else reconcile w l' (<[q := set_hidden true v]> h) (log ++ hide_calls v)
          else reconcile w l' h log
      | _ => reconcile w l' h log
      end
  end.

(** What the last loop tells the toolkit about one object of the
    registry, on the heap [h]. *)
Definition reconcile_calls (w : nat) (h : nat -> xwidget_view) (o : Lisp_Object)
  : list gtk_call :=
  match o with
  | XWidgetView q =>
      if EQ (xv_w (h q)) (Window w) then
        if xv_redisplayed (h q) then show_calls (h q) else hide_calls (h q)
      else []
  | _ => []
  end.

(** The heap when the scan of the glyphs [gs] is over: the flags
    [redisplayed] are reset, then set for the views touched. *)
Definition scanned (h : nat -> xwidget_view) (registry : list Lisp_Object) (w : nat)
    (gs : list glyph) : nat -> xwidget_view :=
  touch_all (touched_views h registry w gs) (reset_redisplayed registry h).

(** What [xwidget_end_redisplay] tells the toolkit about one object of
    the registry: for a view of the window [w], the calls that hide it
    when it ends up hidden and the calls that show it otherwise, at the
    geometry it had on entry; nothing for any other object.  [h] is the
    heap on entry and [h'] the heap on return. *)
Definition visibility_calls (w : nat) (h h' : nat -> xwidget_view) (o : Lisp_Object)
  : list gtk_call :=
  match o with
  | XWidgetView q =>
      if EQ (xv_w (h q)) (Window w) then
        if xv_hidden (h' q) then hide_calls (h q) else show_calls (h q)
      else []
  | _ => []
  end.

(** Some glyph of an enabled row of the matrix is an xwidget glyph that
    resolves, in window [w], to the view at [q]. *)
Definition glyph_encountered (h : nat -> xwidget_view) (registry : list Lisp_Object)
    (w : nat) (matrix : glyph_matrix) (q : nat) : Prop :=
  exists row area xwidget,
    row ∈ rows matrix /\ enabled_p row = true /\ area ∈ glyphs row
    /\ XWIDGET_GLYPH xwidget ∈ area
    /\ view_of h registry xwidget w = Ok (Some q).

(** A second widget, and both widgets drawn in window 0; then a matrix
    whose only enabled row shows the first widget. *)
Definition two_widgets_drawn : emacs :=
  run (x_draw_xwidget_glyph_string
         {| gs_xwidget := 1; gs_w := 0; gs_f := 0; gs_x := 50; gs_y := 300;
            gs_height := 200 |})
      (run (Fmake_xwidget Qwebkit (String "other") (Fixnum 300) (Fixnum 200) Qnil Qnil)
           drawn_widget).

Definition sample_matrix : glyph_matrix :=
  {| rows := [ {| enabled_p := true;
                  glyphs := [[]; [CHAR_GLYPH; XWIDGET_GLYPH 0; CHAR_GLYPH]; []] |};
               {| enabled_p := false;
                  glyphs := [[]; [XWIDGET_GLYPH 1]; []] |} ] |}.
(** ** Type predicates and the property list *)

Definition Fxwidgetp (object : Lisp_Object) : Lisp_Object :=
  if XWIDGETP object then Qt else Qnil.

Definition Fxwidget_view_p (object : Lisp_Object) : Lisp_Object :=
  if XWIDGET_VIEW_P object then Qt else Qnil.

Definition set_plist (plist : Lisp_Object) (xw : xwidget) : xwidget :=
  {| xw_type := xw_type xw; xw_plist := plist; xw_title := xw_title xw;
     xw_buffer := xw_buffer xw; xw_script_callbacks := xw_script_callbacks xw;
     xw_height := xw_height xw; xw_width := xw_width xw;
     xw_kill_without_query := xw_kill_without_query xw;
     xw_widget_osr := xw_widget_osr xw;
     xw_widgetwindow_osr := xw_widgetwindow_osr xw |}.

Definition Fset_xwidget_plist (xwidget plist : Lisp_Object) : M Lisp_Object :=
  let* _ := CHECK_XWIDGET xwidget in
  let* _ := CHECK_LIST plist in
  let* p := XXWIDGET xwidget in
  let* xw := get_xwidget p in
  let* _ := put_xwidget p (set_plist plist xw) in
  ret plist.

(** ** Display specifications *)

Definition Qxwidget : Lisp_Object := Symbol "xwidget".
Definition QCxwidget : Lisp_Object := Symbol ":xwidget".

Definition valid_xwidget_spec_p (object : Lisp_Object) : bool :=
  CONSP object && EQ (XCAR object) Qxwidget.

(** The loop of [xwidget_spec_value]:
    [for (tail = XCDR (spec); CONSP (tail) && CONSP (XCDR (tail));
          tail = XCDR (XCDR (tail)))]. *)
Fixpoint spec_value_loop (tail key : Lisp_Object) : Lisp_Object :=
  match tail with
  | Cons k (Cons v tail') => if EQ k key then v else spec_value_loop tail' key
  | _ => Qnil
  end.

(** Find a value associated with key in spec.  The function starts with
    [eassert (valid_xwidget_spec_p (spec))]; on any other object it is
    given no meaning here. *)
Definition xwidget_spec_value (spec key : Lisp_Object) : M Lisp_Object :=
  if valid_xwidget_spec_p spec then ret (spec_value_loop (XCDR spec) key)
  else undefined.

Definition lookup_xwidget (spec : Lisp_Object) : M nat :=
  let* value := xwidget_spec_value spec QCxwidget in
  XXWIDGET value.

(** ** Deleting views *)

(** [g_signal_handlers_disconnect_matched (instance, G_SIGNAL_MATCH_DATA,
    0, 0, 0, 0, data)].  delete-xwidget-view is the only caller, and
    nothing in xwidget.c reads the handlers of a widget back: the
    disconnections that a function makes are returned with its value,
    oldest first. *)
Inductive disconnection : Type :=
| g_signal_handlers_disconnect_matched (instance : GtkWidget) (data : GtkWidget).

(** As for [gtk_on], GLib rejects a null instance and does nothing. *)
Definition disconnect_on (o : option GtkWidget) (data : GtkWidget) : list disconnection :=
  match o with
  | Some instance => [g_signal_handlers_disconnect_matched instance data]
  | None => []
  end.

Definition Fdelete_xwidget_view (xwidget_view : Lisp_Object)
  : M (Lisp_Object * list disconnection) :=
  let* _ := CHECK_XWIDGET_VIEW xwidget_view in
  let* q := XXWIDGET_VIEW xwidget_view in
  let* xv := get_xwidget_view q in
  let* _ := gtk (gtk_widget_destroy (xv_widgetwindow xv)) in
  (* xv->model still has signals pointing to the view.  There can be
     several views.  Find the matching signals and delete them all.  *)
  let* m := XXWIDGET (xv_model xv) in
  let* xw := get_xwidget m in
  let disconnected := disconnect_on (xw_widgetwindow_osr xw) (xv_widget xv) in
  let* _ := modify (fun st =>
              set_Vxwidget_view_list (Fdelq xwidget_view (Vxwidget_view_list st)) st) in
  ret (Qnil, disconnected).

(** The loop of [xwidget_view_delete_all_in_window] walks the cells of
    [Vxwidget_view_list] while delete-xwidget-view takes cells out of
    that very list.  [Fdelq] takes a cell out by redirecting the [cdr] of
    the last cell it kept, and leaves the [cdr] of the cell it takes out
    as it is.  The walk, standing on a cell that held [elt], therefore
    still meets the cells that follow it immediately and hold [elt] as
    well, then the first cell that holds something else, and from there
    on no cell that holds [elt]. *)
Fixpoint relinked (elt : Lisp_Object) (rest : list Lisp_Object) : list Lisp_Object :=
  match rest with
  | [] => []
  | o :: rest' => if EQ elt o then o :: relinked elt rest' else o :: Fdelq elt rest'
  end.

(** [fuel] bounds the number of cells still to visit. *)
Fixpoint delete_all_loop (fuel : nat) (tail : list Lisp_Object) (w : nat)
  : M (list disconnection) :=
  match tail with
  | [] => ret []
  | o :: rest =>
      match fuel with
      | O => undefined
      | S fuel' =>
          if XWIDGET_VIEW_P o then
            let* q := XXWIDGET_VIEW o in
            let* xv := get_xwidget_view q in
            if EQ (xv_w xv) (Window w) then
              let* r := Fdelete_xwidget_view o in
              let* ds := delete_all_loop fuel' (relinked o rest) w in
              ret (snd r ++ ds)
            else delete_all_loop fuel' rest w
          else delete_all_loop fuel' rest w
      end
  end.

Definition xwidget_view_delete_all_in_window (w : nat) : M (list disconnection) :=
  let* views := gets Vxwidget_view_list in
  delete_all_loop (length views) views w.

(** ** The policy handler *)

(** [WebKitPolicyDecisionType] has these three values. *)
Inductive WebKitPolicyDecisionType : Type :=
| WEBKIT_POLICY_DECISION_TYPE_NAVIGATION_ACTION
| WEBKIT_POLICY_DECISION_TYPE_NEW_WINDOW_ACTION
| WEBKIT_POLICY_DECISION_TYPE_RESPONSE.

(** What the handler reads from a decision: whether WebKit can show the
    MIME type of the response, and the URI of the request of the
    navigation action; and what it may do to it,
    [webkit_policy_decision_download]. *)
Record WebKitPolicyDecision : Type := {
  is_mime_type_supported : bool;
  navigation_request_uri : string;
  download_decided : bool
}.

Definition webkit_policy_decision_download (decision : WebKitPolicyDecision)
  : WebKitPolicyDecision :=
  {| is_mime_type_supported := is_mime_type_supported decision;
     navigation_request_uri := navigation_request_uri decision;
     download_decided := true |}.

(** [xw] is the widget that [g_object_get_data (webView, XG_XWIDGET)]
    yields.  The result is the handler's [gboolean] and the decision as
    the handler leaves it. *)
Definition webkit_decide_policy_cb (xw : nat) (decision : WebKitPolicyDecision)
    (type : WebKitPolicyDecisionType) : M (bool * WebKitPolicyDecision) :=
  match type with
  | WEBKIT_POLICY_DECISION_TYPE_RESPONSE =>
      if negb (is_mime_type_supported decision)
      then ret (true, webkit_policy_decision_download decision)
      else ret (false, decision)
  | WEBKIT_POLICY_DECISION_TYPE_NEW_WINDOW_ACTION
  | WEBKIT_POLICY_DECISION_TYPE_NAVIGATION_ACTION =>
      let* _ := store_xwidget_event_string xw "decide-policy"
                  (navigation_request_uri decision) in
      ret (false, decision)
  end.
(** ** Notions used to state the further properties *)

(** [listp], as [CHECK_LIST] tests it. *)
Definition listp (o : Lisp_Object) : bool := NILP o || CONSP o.

(** A function of one argument that does nothing but read an object
    that satisfies the Lisp predicate [predicate], of name [name]: on
    such an object it returns in the state it was called in, and on any
    other it signals wrong-type-argument with the name of the predicate,
    in the state it was called in as well. *)
Definition reads_only (predicate : Lisp_Object -> Lisp_Object) (name : string)
    (f : Lisp_Object -> M Lisp_Object) : Prop :=
  forall o st,
    if NILP (predicate o) then f o st = Signal (wrong_type_argument name o) st
    else exists r, f o st = Normal r st.

(** [symbolp] and [wholenump] on the objects of this embedding, as
    [CHECK_SYMBOL] and [CHECK_FIXNAT] test them. *)
Definition symbolp (o : Lisp_Object) : bool :=
  match o with Qnil | Qt | Symbol _ => true | _ => false end.

Definition fixnatp (o : Lisp_Object) : bool :=
  match o with Fixnum n => 0 <=? n | _ => false end.

(** The buffer that the last argument of make-xwidget designates without
    a buffer being made: the current buffer for nil, a buffer for
    itself, and for a string the buffer of that name. *)
Definition designated_buffer (c : collaborators) (buffer : Lisp_Object)
  : option Lisp_Object :=
  match buffer with
  | Qnil => Some (Buffer (current_buffer c))
  | Buffer _ => Some buffer
  | String name => option_map Buffer (assoc_buffer name (buffer_names c))
  | _ => None
  end.

(** The widget that make-xwidget builds at the address [p]. *)
Definition made_xwidget (p : nat) (type title buffer : Lisp_Object) (width height : Z)
  : xwidget :=
  {| xw_type := type; xw_plist := Qnil; xw_title := title; xw_buffer := buffer;
     xw_script_callbacks := Qnil; xw_height := height; xw_width := width;
     xw_kill_without_query := false;
     xw_widget_osr := if EQ type Qwebkit then Some (WebKitWebView p) else None;
     xw_widgetwindow_osr :=
       if EQ type Qwebkit then Some (GtkOffscreenWindow p) else None |}.

(** The second state differs from the first in the log of toolkit calls
    and in the collaborators at most. *)
Definition same_editor (st st' : emacs) : Prop :=
  xwidgets st' = xwidgets st /\ next_xwidget st' = next_xwidget st
  /\ xwidget_views st' = xwidget_views st
  /\ next_xwidget_view st' = next_xwidget_view st
  /\ Vxwidget_list st' = Vxwidget_list st
  /\ Vxwidget_view_list st' = Vxwidget_view_list st
  /\ kbd_buffer st' = kbd_buffer st /\ freed st' = freed st
  /\ diagnostics st' = diagnostics st.

(** make-xwidget once its arguments are checked. *)
Definition make_xwidget_checked (type title width height buffer : Lisp_Object)
  : M Lisp_Object :=
  let* p := allocate_xwidget in
  let* b := (if NILP buffer then Fcurrent_buffer else Fget_buffer_create buffer) in
  let* w := XFIXNAT width in
  let* h := XFIXNAT height in
  let val := XWidget p in
  let* _ := modify (fun st => set_Vxwidget_list (val :: Vxwidget_list st) st) in
  let webkit := EQ type Qwebkit in
  let* _ := put_xwidget p
              {| xw_type := type; xw_plist := Qnil; xw_title := title;
                 xw_buffer := b; xw_script_callbacks := Qnil;
                 xw_height := h; xw_width := w;
                 xw_kill_without_query := false;
                 xw_widget_osr := if webkit then Some (WebKitWebView p) else None;
                 xw_widgetwindow_osr :=
                   if webkit then Some (GtkOffscreenWindow p) else None |} in
  let* _ := when webkit (make_xwidget_webkit p w h) in
  ret val.

(** The toolkit calls of xwidget-resize for the widget [xw] at [p]: the
    offscreen window and the offscreen widget when there is one, then
    the widget of every view of [p], in the order of the registry. *)
Definition resize_calls (xw : xwidget) (p : nat) (w h : Z)
    (views : nat -> xwidget_view) (registry : list Lisp_Object) : list gtk_call :=
  match xw_widget_osr xw with
  | Some widget_osr =>
      match xw_widgetwindow_osr xw with
      | Some widgetwindow_osr =>
          [gtk_window_resize widgetwindow_osr w h;
           gtk_container_resize_children widgetwindow_osr]
      | None => []
      end ++ [gtk_widget_set_size_request widget_osr w h]
  | None => []
  end
  ++ flat_map (fun o =>
       match o with
       | XWidgetView q =>
           if EQ (xv_model (views q)) (XWidget p)
           then [gtk_widget_set_size_request (xv_widget (views q)) w h]
           else []
       | _ => []
       end) registry.

(** Every view of the registry is the view of a widget. *)
Definition views_have_models (st : emacs) : Prop :=
  forall q, XWidgetView q ∈ Vxwidget_view_list st ->
            exists m, xv_model (xwidget_views st q) = XWidget m.

(** The state that xwidget-resize leaves. *)
Definition resized (p : nat) (w h : Z) (st : emacs) : emacs :=
  set_gtk_log
    (gtk_log st
     ++ resize_calls (xwidgets st p) p w h (xwidget_views st) (Vxwidget_view_list st))
    (set_xwidgets (<[p := set_size w h (xwidgets st p)]> (xwidgets st)) st).

(** The object is a view of the widget [xwidget] in the window [window],
    on the heap [h]: the test of xwidget-view-lookup. *)
Definition view_matches (h : nat -> xwidget_view) (xwidget window o : Lisp_Object) : bool :=
  match o with
  | XWidgetView q => EQ (xv_model (h q)) xwidget && EQ (xv_w (h q)) window
  | _ => false
  end.

(** The object is a view that the search passes over. *)
Definition view_passed (h : nat -> xwidget_view) (xwidget window o : Lisp_Object) : Prop :=
  XWIDGET_VIEW_P o = true /\ view_matches h xwidget window o = false.

(** The object is a view in the window [w], on the heap [h]. *)
Definition in_window (h : nat -> xwidget_view) (w : nat) (o : Lisp_Object) : bool :=
  match o with
  | XWidgetView q => EQ (xv_w (h q)) (Window w)
  | _ => false
  end.

(** The call and the disconnections that delete-xwidget-view makes for
    the object [o], on the heaps [xws] and [h]. *)
Definition delete_calls (h : nat -> xwidget_view) (o : Lisp_Object) : list gtk_call :=
  match o with
  | XWidgetView q => [gtk_widget_destroy (xv_widgetwindow (h q))]
  | _ => []
  end.

Definition delete_disconnections (xws : nat -> xwidget) (h : nat -> xwidget_view)
    (o : Lisp_Object) : list disconnection :=
  match o with
  | XWidgetView q =>
      match xv_model (h q) with
      | XWidget m => disconnect_on (xw_widgetwindow_osr (xws m)) (xv_widget (h q))
      | _ => []
      end
  | _ => []
  end.

(** Some object of [tail] is a view in the window [w] and is [x]. *)
Definition deleted_from (h : nat -> xwidget_view) (w : nat) (tail : list Lisp_Object)
    (x : Lisp_Object) : bool :=
  existsb (fun e => in_window h w e && EQ e x) tail.

(** The view registry is well formed: it lists views, none twice, each
    at an allocated address, each the view of a widget in a window, and
    no two of them views of the same widget in the same window. *)
Definition views_ok (st : emacs) : Prop :=
  NoDup (Vxwidget_view_list st)
  /\ (forall o, o ∈ Vxwidget_view_list st ->
        exists q xw w,
          o = XWidgetView q /\ (q < next_xwidget_view st)%nat
          /\ xv_model (xwidget_views st q) = XWidget xw
          /\ xv_w (xwidget_views st q) = Window w)
  /\ (forall q1 q2,
        XWidgetView q1 ∈ Vxwidget_view_list st ->
        XWidgetView q2 ∈ Vxwidget_view_list st ->
        xv_model (xwidget_views st q1) = xv_model (xwidget_views st q2) ->
        xv_w (xwidget_views st q1) = xv_w (xwidget_views st q2) ->
        q1 = q2).

(** The operations that make, show, resize and delete widgets and views,
    as Lisp programs, redisplay and the window and buffer code call them;
    [op_collaborators] stands for what the rest of the editor does in
    between: buffers, windows and their text areas change. *)
Inductive operation : Type :=
| op_make_xwidget (type title width height arguments buffer : Lisp_Object)
| op_draw (s : glyph_string)
| op_end_redisplay (w : nat) (matrix : glyph_matrix)
| op_resize (xwidget new_width new_height : Lisp_Object)
| op_delete_view (xwidget_view : Lisp_Object)
| op_delete_all_in_window (w : nat)
| op_kill_buffer (buffer : Lisp_Object)
| op_collaborators (c : collaborators).

Definition perform (op : operation) : M unit :=
  match op with
  | op_make_xwidget type title width height arguments buffer =>
      let* _ := Fmake_xwidget type title width height arguments buffer in ret tt
  | op_draw s => x_draw_xwidget_glyph_string s
  | op_end_redisplay w matrix => xwidget_end_redisplay w matrix
  | op_resize xwidget new_width new_height =>
      let* _ := Fxwidget_resize xwidget new_width new_height in ret tt
  | op_delete_view xwidget_view =>
      let* _ := Fdelete_xwidget_view xwidget_view in ret tt
  | op_delete_all_in_window w =>
      let* _ := xwidget_view_delete_all_in_window w in ret tt
  | op_kill_buffer buffer => kill_buffer_xwidgets buffer
  | op_collaborators c => modify (set_host c)
  end.

(** The second state has the views, the view registry and the
    allocation mark of the views of the first. *)
Definition same_views (st st' : emacs) : Prop :=
  xwidget_views st' = xwidget_views st
  /\ Vxwidget_view_list st' = Vxwidget_view_list st
  /\ next_xwidget_view st' = next_xwidget_view st.

(** The second state has the view registry and the allocation mark of
    the first, and every view is still the view of the same widget in
    the same window. *)
Definition same_view_identities (st st' : emacs) : Prop :=
  Vxwidget_view_list st' = Vxwidget_view_list st
  /\ next_xwidget_view st' = next_xwidget_view st
  /\ forall q, xv_model (xwidget_views st' q) = xv_model (xwidget_views st q)
               /\ xv_w (xwidget_views st' q) = xv_w (xwidget_views st q).

(** A widget is made and drawn in two windows, redisplay of the first
    window ends, the second window goes away and the widget is resized. *)
Definition sample_operations : list operation :=
  [op_make_xwidget Qwebkit (String "browser") (Fixnum 300) (Fixnum 200) Qnil Qnil;
   op_draw sample_glyph_string;
   op_draw {| gs_xwidget := 0; gs_w := 1; gs_f := 0; gs_x := 5; gs_y := 6;
              gs_height := 200 |};
   op_draw sample_glyph_string;
   op_end_redisplay 0 sample_matrix;
   op_delete_all_in_window 1;
   op_resize (XWidget 0) (Fixnum 640) (Fixnum 480)].

(** A coordinate or a size that a display produces: at most 2^28 in
    absolute value, so that the sums and differences of a few of them
    fit an [int]. *)
Definition small (z : Z) : Prop := - 2 ^ 28 <= z <= 2 ^ 28.

(** The origin and the clip offsets that the view holds are small. *)
Definition view_small (v : xwidget_view) : Prop :=
  small (xv_x v) /\ small (xv_y v) /\ small (xv_clip_left v) /\ small (xv_clip_top v).

(** The widgets that have been destroyed, oldest first. *)
Definition destroyed (log : list gtk_call) : list GtkWidget :=
  flat_map (fun c => match c with gtk_widget_destroy widget => [widget] | _ => [] end) log.

(** The property list that holds the keys and values [pairs], in order,
    before [tail]. *)
Fixpoint plist_of (pairs : list (Lisp_Object * Lisp_Object)) (tail : Lisp_Object)
  : Lisp_Object :=
  match pairs with
  | [] => tail
  | (k, v) :: rest => Cons k (Cons v (plist_of rest tail))
  end.

(** The value under the first of the keys [pairs] that is [key], and
    nil when there is none. *)
Fixpoint first_value (pairs : list (Lisp_Object * Lisp_Object)) (key : Lisp_Object)
  : Lisp_Object :=
  match pairs with
  | [] => Qnil
  | (k, v) :: rest => if EQ k key then v else first_value rest key
  end.

(** What may end a property list: nil, a key without a value, or
    anything that is not a cons. *)
Definition plist_end (tail : Lisp_Object) : bool :=
  match tail with
  | Cons _ (Cons _ _) => false
  | _ => true
  end.

(** The table that [save_script_callback] works on: a nil member stands
    for a new table of 32 nil slots. *)
Definition callback_table (xw : xwidget) : option (list Lisp_Object) :=
  match xw_script_callbacks xw with
  | Qnil => Some (replicate 32 Qnil)
  | Vector contents => Some contents
  | _ => None
  end.

(** The state in which the slot [i] of the table [cbs] of the widget at
    [p] holds the request [(script . fn)]. *)
Definition requested (p : nat) (cbs : list Lisp_Object) (i : nat) (script : string)
    (fn : Lisp_Object) (st : emacs) : emacs :=
  set_xwidgets
    (<[p := set_script_callbacks (Vector (<[i := Cons (MintPtr script) fn]> cbs))
              (xwidgets st p)]> (xwidgets st)) st.

(** The Lisp values that a conversion from JavaScript can yield: nil,
    t, strings, integers of the range of [gint32], vectors of such
    values and, for the properties of an object, pairs of a string and
    such a value. *)
Fixpoint converted (o : Lisp_Object) : bool :=
  match o with
  | Qnil | Qt | String _ => true
  | Fixnum n => (- 2 ^ 31 <=? n) && (n <? 2 ^ 31)
  | Vector contents => forallb converted contents
  | Cons (String _) value => converted value
  | _ => false
  end.

(** * Properties *)

(** ** Reasoning about the monad *)

Lemma bind_Normal_inv {A B} (c : M A) (k : A -> M B) (st st' : emacs) (b : B) :
  bind c k st = Normal b st' ->
  exists a st1, c st = Normal a st1 /\ k a st1 = Normal b st'.
Proof.
  unfold bind. destruct (c st) as [a st1| |]; [eauto|discriminate|discriminate].
Qed.

Lemma Normal_inv {A} (a b : A) (st st' : emacs) :
  Normal a st = Normal b st' -> a = b /\ st = st'.
Proof. intros H. injection H as -> ->. auto. Qed.

(** Read a hypothesis that a step returned. *)
Tactic Notation "normal_inv" hyp(H) "as" simple_intropattern(pa) simple_intropattern(ps) :=
  unfold ret, gets, modify, get_xwidget, put_xwidget, get_xwidget_view,
    put_xwidget_view, gtk in H;
  apply Normal_inv in H as [pa ps].

(** Decompose a hypothesis that a sequence of steps returned. *)
Tactic Notation "bind_inv" hyp(H) "as" ident(a) ident(st) ident(H1) :=
  apply bind_Normal_inv in H as (a & st & H1 & H).

Lemma in_bounds (n len : nat) :
  (n < len)%nat -> (0 <=? Z.of_nat n) && (Z.of_nat n <? Z.of_nat len) = true.
Proof.
  intros Hlt. apply andb_true_intro; split; [apply Z.leb_le|apply Z.ltb_lt]; lia.
Qed.

(** ** Script-result conversion *)

Lemma wrap_int32_small (z : Z) : - 2 ^ 31 <= z < 2 ^ 31 -> wrap_int32 z = z.
Proof.
  intros Hz. unfold wrap_int32.
  rewrite Z.mod_small by lia. lia.
Qed.

Lemma array_length_int32 (l : list JSCValue) :
  jsc_value_to_int32 (jsc_array_length l) = wrap_int32 (Z.of_nat (length l)).
Proof.
  unfold jsc_array_length, jsc_value_to_int32, inject_Z. cbn [Qnum Qden].
  by rewrite Z.quot_1_r.
Qed.

Lemma webkit_js_to_lisp_array (l : list JSCValue) :
  webkit_js_to_lisp (JArray l)
  = let dlen := jsc_value_to_int32 (jsc_array_length l) in
    if negb ((0 <=? dlen) && (dlen <? PTRDIFF_MAX + 1)) then Raise memory_full
    else match fill_array l (Z.to_nat dlen) with
         | Raise err => Raise err
         | Ok os => Ok (Vector os)
         end.
Proof. reflexivity. Qed.

Lemma webkit_js_to_lisp_object (ps : list (string * JSCValue)) :
  webkit_js_to_lisp (JObject ps)
  = let names := jsc_value_object_enumerate_properties ps in
    let n := wrap_guint (Z.of_nat (length names)) in
    if PTRDIFF_MAX <? n then Raise memory_full
    else match fill_object ps names (Z.to_nat n) with
         | Raise err => Raise err
         | Ok os => Ok (Vector os)
         end.
Proof.
  assert (Hget : forall qs name,
            (fix get_property (ps : list (string * JSCValue)) (name : string)
               : result Lisp_Object :=
               match ps with
               | [] => Ok Qnil
               | (name', property) :: ps' =>
                   if String.eqb name' name then webkit_js_to_lisp property
                   else get_property ps' name
               end) qs name
            = webkit_js_to_lisp (jsc_value_object_get_property qs name)).
  { induction qs as [|[name' property] qs IH]; intros name; [reflexivity|].
    cbn [jsc_value_object_get_property]. destruct (String.eqb name' name); [reflexivity|].
    apply IH. }
  cbn [webkit_js_to_lisp]. cbv zeta.
  destruct (PTRDIFF_MAX <? _); [reflexivity|].
  generalize (Z.to_nat
                (wrap_guint (Z.of_nat (length (jsc_value_object_enumerate_properties ps)))))
    as n.
  generalize (jsc_value_object_enumerate_properties ps) as names.
  intros names n.
  match goal with
  | |- match ?t with _ => _ end = _ =>
      enough (Ht : t = fill_object ps names n) by (by rewrite Ht)
  end.
  revert n. induction names as [|name names IH]; intros [|n]; try reflexivity.
  cbn [fill_object]. rewrite <- Hget, <- IH. reflexivity.
Qed.

Lemma fill_array_all (l : list JSCValue) :
  Forall (fun e => js_fits e = true -> js_c_text e = true -> js_names_distinct e = true ->
                   webkit_js_to_lisp e = Ok (js_to_lisp_spec e)) l ->
  forallb js_fits l = true ->
  forallb js_c_text l = true ->
  forallb js_names_distinct l = true ->
  fill_array l (length l) = Ok (List.map js_to_lisp_spec l).
Proof.
  induction 1 as [|e l He _ IH]; intros Hfits Htext Hdist; [reflexivity|].
  cbn [forallb] in Hfits, Htext, Hdist.
  apply andb_prop in Hfits as [Hfe Hfl]. apply andb_prop in Htext as [Hte Htl].
  apply andb_prop in Hdist as [Hde Hdl].
  cbn [fill_array length List.map]. rewrite (He Hfe Hte Hde), (IH Hfl Htl Hdl). reflexivity.
Qed.

Lemma enumerate_properties_length (ps : list (string * JSCValue)) :
  length (jsc_value_object_enumerate_properties ps) = length ps.
Proof. apply length_map. Qed.

Lemma c_text_c_string (s : string) : c_text s = true -> c_string s = s.
Proof. unfold c_text. apply String.eqb_eq. Qed.

(** Among properties of distinct names, a name finds the property listed
    with it. *)
Lemma get_property_listed (ps : list (string * JSCValue)) (name : string)
    (property : JSCValue) :
  NoDup (List.map fst ps) -> (name, property) ∈ ps ->
  jsc_value_object_get_property ps name = property.
Proof.
  induction ps as [|[name' property'] ps IH]; intros Hdistinct Hin.
  - by apply elem_of_nil in Hin.
  - cbn [List.map fst] in Hdistinct. apply NoDup_cons in Hdistinct as [Hnew Hdistinct].
    cbn [jsc_value_object_get_property].
    apply elem_of_cons in Hin as [[= -> ->]|Hin].
    + by rewrite String.eqb_refl.
    + destruct (String.eqb_spec name' name) as [->|_]; [|by apply IH].
      exfalso. apply Hnew. change name with (fst (name, property)).
      apply list_elem_of_fmap_2. exact Hin.
Qed.

Lemma fill_object_all (ps qs : list (string * JSCValue)) :
  NoDup (List.map fst ps) ->
  Forall (fun q => q ∈ ps) qs ->
  Forall (fun p => js_fits (snd p) = true -> js_c_text (snd p) = true ->
                   js_names_distinct (snd p) = true ->
                   webkit_js_to_lisp (snd p) = Ok (js_to_lisp_spec (snd p))) qs ->
  forallb (fun p => match p with (_, property) => js_fits property end) qs = true ->
  forallb (fun p => match p with
                    | (name, property) => c_text name && js_c_text property
                    end) qs = true ->
  forallb (fun p => match p with (_, property) => js_names_distinct property end) qs
  = true ->
  fill_object ps (jsc_value_object_enumerate_properties qs) (length qs)
  = Ok (List.map (fun p => match p with
                           | (name, property) =>
                               Cons (String name) (js_to_lisp_spec property)
                           end) qs).
Proof.
  intros Hdistinct Hsub Hall. revert Hsub.
  induction Hall as [|[name property] qs Hp _ IH]; intros Hsub Hfits Htext Hdist;
    [reflexivity|].
  apply Forall_cons in Hsub as [Hin Hsub].
  cbn [forallb] in Hfits, Htext, Hdist.
  apply andb_prop in Hfits as [Hfp Hfl]. apply andb_prop in Htext as [Htp Htl].
  apply andb_prop in Htp as [Htn Htp]. apply andb_prop in Hdist as [Hdp Hdl].
  cbn [jsc_value_object_enumerate_properties List.map fst fill_object length].
  cbn [snd] in Hp. rewrite (c_text_c_string name Htn).
  rewrite (get_property_listed ps name property Hdistinct Hin), (Hp Hfp Htp Hdp).
  fold (jsc_value_object_enumerate_properties qs).
  rewrite (IH Hsub Hfl Htl Hdl). reflexivity.
Qed.

Lemma webkit_js_to_lisp_fits (v : JSCValue) :
  js_fits v = true -> js_c_text v = true -> js_names_distinct v = true ->
  webkit_js_to_lisp v = Ok (js_to_lisp_spec v).
Proof.
  induction v as [s|b|d|l IH|ps IH|] using JSCValue_nested_ind;
    intros Hfits Htext Hdist.
  - cbn [js_c_text] in Htext.
    cbn [webkit_js_to_lisp jsc_value_to_string build_string js_to_lisp_spec].
    by rewrite (c_text_c_string s Htext).
  - reflexivity.
  - cbn [js_fits] in Hfits. apply andb_prop in Hfits as [Hlo Hhi].
    apply Z.leb_le in Hlo. apply Z.ltb_lt in Hhi.
    cbn [webkit_js_to_lisp jsc_value_to_int32 js_to_lisp_spec make_fixnum].
    fold (truncate d). rewrite wrap_int32_small; [reflexivity|lia].
  - cbn [js_fits] in Hfits. apply andb_prop in Hfits as [Hlen Hall].
    apply Z.ltb_lt in Hlen. cbn [js_c_text js_names_distinct] in Htext, Hdist.
    rewrite webkit_js_to_lisp_array, array_length_int32. cbn zeta.
    rewrite wrap_int32_small by lia.
    replace (negb _) with false
      by (symmetry; apply negb_false_iff, andb_true_intro;
          unfold PTRDIFF_MAX; split; [apply Z.leb_le|apply Z.ltb_lt]; lia).
    rewrite Nat2Z.id, (fill_array_all l IH Hall Htext Hdist). reflexivity.
  - cbn [js_fits] in Hfits. apply andb_prop in Hfits as [Hlen Hall].
    apply Z.ltb_lt in Hlen. cbn [js_c_text js_names_distinct] in Htext, Hdist.
    apply andb_prop in Hdist as [Hnames Hdist]. apply bool_decide_eq_true in Hnames.
    rewrite webkit_js_to_lisp_object. cbn zeta.
    rewrite !enumerate_properties_length.
    unfold wrap_guint. rewrite Z.mod_small by lia.
    replace (PTRDIFF_MAX <? _) with false
      by (symmetry; apply Z.ltb_ge; unfold PTRDIFF_MAX; lia).
    rewrite Nat2Z.id, (fill_object_all ps ps Hnames) by (auto; by apply Forall_forall).
    reflexivity.
  - reflexivity.
Qed.

Lemma webkit_js_to_lisp_long_array (l : list JSCValue) :
  wrap_int32 (Z.of_nat (length l)) < 0 ->
  webkit_js_to_lisp (JArray l) = Raise memory_full.
Proof.
  intros Hneg. rewrite webkit_js_to_lisp_array, array_length_int32. cbn zeta.
  replace (0 <=? _) with false by (symmetry; apply Z.leb_gt; lia). reflexivity.
Qed.

(** The conversion of the properties of an object: each enumerated name,
    cut at its first NUL, is paired with the conversion of the property
    that [jsc_value_object_get_property] returns for the cut name. *)
Lemma fill_object_pairs (ps : list (string * JSCValue)) (names : list string)
    (os : list Lisp_Object) :
  fill_object ps names (length names) = Ok os ->
  Forall2 (fun name o =>
             exists value,
               webkit_js_to_lisp (jsc_value_object_get_property ps name) = Ok value
               /\ o = Cons (String name) value) names os.
Proof.
  revert os. induction names as [|name names IH]; intros os.
  - intros [= <-]. constructor.
  - cbn [length fill_object].
    destruct (webkit_js_to_lisp (jsc_value_object_get_property ps name)) as [o|]
      eqn:Hname; [|discriminate].
    destruct (fill_object ps names (length names)) as [os'|]; [|discriminate].
    intros [= <-]. constructor; [by exists o|by apply IH].
Qed.

(** C8, amended.  On every value that fits the widths of [gint32] and
    [guint] (see [js_fits]), whose strings and property names have no NUL
    character and whose objects have distinct property names, at every
    nesting depth, [webkit_js_to_lisp] returns, without raising, the
    conversion the spec describes: strings to strings, booleans to
    [t]/[nil], numbers to their integer part, arrays to the vector of
    their converted elements in order, objects to the vector of their
    (name . converted value) pairs in enumeration order, any other kind
    to nil.  The spec's example [{"a": [1, "x", true], "b": {}}] converts
    to [[("a" . [1 "x" t]) ("b" . [])]].  Whatever its text, a string
    converts to the text before its first NUL character; and the
    properties of an object of fewer than 2^32 properties of distinct
    names, when they convert, are listed each under its name cut at the
    first NUL, with the conversion of the property that has the cut name
    as its name when the object lists one. *)
Theorem webkit_js_to_lisp_conversion :
  (forall v : JSCValue,
     js_fits v = true -> js_c_text v = true -> js_names_distinct v = true ->
     webkit_js_to_lisp v = Ok (js_to_lisp_spec v))
  /\ webkit_js_to_lisp nested_example
     = Ok (Vector [Cons (String "a") (Vector [Fixnum 1; String "x"; Qt]);
                   Cons (String "b") (Vector [])])
  /\ (forall s, webkit_js_to_lisp (JString s) = Ok (String (c_string s)))
  /\ (forall ps o,
        Z.of_nat (length ps) < 2 ^ 32 ->
        NoDup (List.map fst ps) ->
        webkit_js_to_lisp (JObject ps) = Ok o ->
        exists os,
          o = Vector os
          /\ Forall2 (fun p o =>
                        exists value,
                          o = Cons (String (c_string (fst p))) value
                          /\ forall property,
                               (c_string (fst p), property) ∈ ps ->
                               webkit_js_to_lisp property = Ok value) ps os).
Proof.
  split; [exact webkit_js_to_lisp_fits|]. split; [vm_compute; reflexivity|].
  split; [reflexivity|].
  intros ps o Hlen Hdistinct. rewrite webkit_js_to_lisp_object. cbn zeta.
  rewrite !enumerate_properties_length.
  unfold wrap_guint. rewrite Z.mod_small by lia.
  replace (PTRDIFF_MAX <? _) with false
    by (symmetry; apply Z.ltb_ge; unfold PTRDIFF_MAX; lia).
  rewrite Nat2Z.id.
  destruct (fill_object _ _ _) as [os|] eqn:Hfill; [|discriminate].
  intros [= <-]. exists os. split; [reflexivity|].
  rewrite <- (enumerate_properties_length ps) in Hfill.
  apply fill_object_pairs in Hfill.
  unfold jsc_value_object_enumerate_properties in Hfill.
  apply Forall2_fmap_l in Hfill.
  eapply Forall2_impl; [exact Hfill|].
  intros p o (value & Hvalue & ->). exists value. split; [reflexivity|].
  intros property Hin.
  by rewrite (get_property_listed ps _ property Hdistinct Hin) in Hvalue.
Qed.

Lemma webkit_js_to_lisp_conversion_witness :
  js_fits nested_example = true
  /\ js_c_text nested_example = true
  /\ js_names_distinct nested_example = true
  /\ webkit_js_to_lisp nested_example = Ok (js_to_lisp_spec nested_example).
Proof.
  split; [reflexivity|]. split; [reflexivity|]. split; [reflexivity|].
  apply (proj1 webkit_js_to_lisp_conversion); reflexivity.
Defined.

(** C8 as stated fails: the number 2^31 does not convert to its integer
    part but to -2^31, and an array of 2^31 elements is not converted at
    all: the conversion raises [memory_full].  Nor do strings always
    convert to themselves: the string of the three characters a, NUL, b
    converts to "a", and in the object of a property of that name and a
    property named "a", both are listed under "a" with the value of the
    second. *)
Lemma webkit_js_to_lisp_not_total :
  webkit_js_to_lisp (JNumber (inject_Z (2 ^ 31))) = Ok (Fixnum (- 2 ^ 31))
  /\ js_to_lisp_spec (JNumber (inject_Z (2 ^ 31))) = Fixnum (2 ^ 31)
  /\ webkit_js_to_lisp long_array = Raise memory_full
  /\ webkit_js_to_lisp (JString nul_separated) = Ok (String "a")
  /\ js_to_lisp_spec (JString nul_separated) = String nul_separated
  /\ webkit_js_to_lisp
       (JObject [(nul_separated, JNumber (inject_Z 1)); ("a", JNumber (inject_Z 2))])
     = Ok (Vector [Cons (String "a") (Fixnum 2); Cons (String "a") (Fixnum 2)]).
Proof.
  split; [vm_compute; reflexivity|]. split; [vm_compute; reflexivity|].
  split.
  { apply webkit_js_to_lisp_long_array. unfold long_array.
    rewrite length_replicate, Z2Nat.id by lia. vm_compute. reflexivity. }
  repeat split; vm_compute; reflexivity.
Qed.

(** ** The callback table *)

Lemma find_first_free_hole (cbs : list Lisp_Object) (k idx fuel : nat) :
  (forall j, (idx <= j < idx + k)%nat -> pending cbs j) ->
  cbs !! (idx + k)%nat = Some Qnil ->
  (k <= fuel)%nat ->
  find_first_free fuel cbs idx = Some (cbs, (idx + k)%nat).
Proof.
  revert idx fuel. induction k as [|k IH]; intros idx fuel Hpend Hnil Hfuel.
  - rewrite Nat.add_0_r in *. destruct fuel; cbn; rewrite Hnil; reflexivity.
  - destruct fuel as [|fuel]; [lia|].
    destruct (Hpend idx ltac:(lia)) as (cb & Hcb & Hnn).
    cbn. rewrite Hcb, Hnn.
    pose proof (lookup_lt_Some _ _ _ Hnil) as Hlt.
    destruct (Nat.eqb_spec (idx + 1) (length cbs)) as [Heq|_]; [lia|].
    rewrite (IH (idx + 1)%nat fuel).
    + f_equal. f_equal. lia.
    + intros j Hj. apply Hpend. lia.
    + rewrite <- Hnil. f_equal. lia.
    + lia.
Qed.

Lemma find_first_free_full (cbs : list Lisp_Object) (k idx fuel : nat) :
  (forall j, (idx <= j < length cbs)%nat -> pending cbs j) ->
  length cbs = (idx + k + 1)%nat ->
  (k <= fuel)%nat ->
  find_first_free fuel cbs idx = Some (larger_vector cbs 1 (-1), (length cbs - 1)%nat).
Proof.
  revert idx fuel. induction k as [|k IH]; intros idx fuel Hpend Hlen Hfuel.
  - destruct (Hpend idx ltac:(lia)) as (cb & Hcb & Hnn).
    destruct fuel; cbn; rewrite Hcb, Hnn;
      (destruct (Nat.eqb_spec (idx + 1) (length cbs)) as [_|Hne]; [|lia]);
      do 2 f_equal; lia.
  - destruct fuel as [|fuel]; [lia|].
    destruct (Hpend idx ltac:(lia)) as (cb & Hcb & Hnn).
    cbn. rewrite Hcb, Hnn.
    destruct (Nat.eqb_spec (idx + 1) (length cbs)) as [Heq|_]; [lia|].
    apply IH; [intros j Hj; apply Hpend; lia | lia | lia].
Qed.

(** With a free slot, the request goes to the first one and no other
    slot changes. *)
Lemma save_script_callback_free_slot (st : emacs) (xw : nat) (cbs : list Lisp_Object)
    (i : nat) (script : string) (fn : Lisp_Object) :
  xw_script_callbacks (xwidgets st xw) = Vector cbs ->
  (forall j, (j < i)%nat -> pending cbs j) ->
  cbs !! i = Some Qnil ->
  exists st',
    save_script_callback xw script fn st = Normal (Z.of_nat i) st'
    /\ callback_slots st' xw = <[i := Cons (MintPtr script) fn]> cbs.
Proof.
  intros Hcbs Hpend Hnil.
  pose proof (lookup_lt_Some _ _ _ Hnil) as Hlt.
  unfold save_script_callback, bind, get_xwidget, gets. rewrite Hcbs. cbn.
  rewrite (find_first_free_hole cbs i 0 (length cbs)); [|intros; apply Hpend; lia|done|lia].
  cbn. unfold ASET. cbn.
  replace ((0 <=? Z.of_nat i) && (Z.of_nat i <? Z.of_nat (length cbs))) with true
    by (symmetry; apply in_bounds; lia).
  cbn. eexists; split; [reflexivity|].
  unfold callback_slots. cbn. rewrite fn_lookup_insert. cbn. by rewrite Nat2Z.id.
Qed.

(** With every slot pending, the table grows and the request replaces
    the one in the last slot of the old table. *)
Lemma save_script_callback_full (st : emacs) (xw : nat) (cbs : list Lisp_Object)
    (script : string) (fn : Lisp_Object) :
  xw_script_callbacks (xwidgets st xw) = Vector cbs ->
  (0 < length cbs)%nat ->
  (forall j, (j < length cbs)%nat -> pending cbs j) ->
  exists st',
    save_script_callback xw script fn st = Normal (Z.of_nat (length cbs - 1)) st'
    /\ callback_slots st' xw
       = <[(length cbs - 1)%nat := Cons (MintPtr script) fn]> (larger_vector cbs 1 (-1)).
Proof.
  intros Hcbs Hpos Hpend.
  unfold save_script_callback, bind, get_xwidget, gets. rewrite Hcbs. cbn.
  rewrite (find_first_free_full cbs (length cbs - 1) 0 (length cbs));
    [|intros; apply Hpend; lia|lia|lia].
  cbn. unfold ASET.
  replace ((0 <=? Z.of_nat (length cbs - 1))
           && (Z.of_nat (length cbs - 1) <? Z.of_nat (length (larger_vector cbs 1 (-1)))))
    with true.
  2:{ symmetry; apply in_bounds. unfold larger_vector. rewrite length_app. lia. }
  cbn. eexists; split; [reflexivity|].
  unfold callback_slots. cbn. rewrite fn_lookup_insert. cbn. by rewrite Nat2Z.id.
Qed.

(** C1, at the input where the code departs from it.  With 32 requests
    pending the table is full; the 33rd request makes it grow to 48
    slots, yet it is stored at index 31, over the request that is still
    pending there, and the first free slot, 32, stays nil.  The 32nd and
    the 33rd request are both handed index 31. *)
Theorem save_script_callback_full_table :
  let st := requests 32 webkit_widget in
  let o := save_script_callback 0 "f(32)" (Closure 32) st in
  let st' := state_after o st in
  length (callback_slots st 0) = 32%nat
  /\ callback_slots st 0 !! 31%nat = Some (Cons (MintPtr "f(31)") (Closure 31))
  /\ returned o = Some 31
  /\ length (callback_slots st' 0) = 48%nat
  /\ callback_slots st' 0 !! 31%nat = Some (Cons (MintPtr "f(32)") (Closure 32))
  /\ callback_slots st' 0 !! 32%nat = Some Qnil.
Proof. vm_compute. repeat split; reflexivity. Qed.

(** ** Completion of a script *)

Lemma webkit_javascript_finished_cb_outcome
    (st : emacs) (xw : nat) (cbs : list Lisp_Object) (idx : nat) (cb : Lisp_Object)
    (res : GAsyncResult) :
  xw_script_callbacks (xwidgets st xw) = Vector cbs ->
  cbs !! idx = Some cb ->
  webkit_javascript_finished_cb xw res (Z.of_nat idx) st
  = finished_cb_outcome st xw cbs idx cb res.
Proof.
  intros Hcbs Hcb.
  pose proof (lookup_lt_Some _ _ _ Hcb) as Hlt.
  unfold webkit_javascript_finished_cb, finished_cb_outcome, bind, get_xwidget, gets.
  rewrite Hcbs. unfold AREF, ASET, continuation_registered.
  rewrite (in_bounds _ _ Hlt), Nat2Z.id, Hcb. cbn.
  destruct (NILP cb), res as [value|msg]; cbn; try reflexivity.
  destruct (NILP (XCDR cb)); cbn; [reflexivity|].
  unfold lift_result, bind. destruct (webkit_js_to_lisp value); reflexivity.
Qed.

(** A result whose conversion raises, for a slot with a continuation:
    the callback leaves by the signal, with the slot cleared and nothing
    enqueued. *)
Lemma webkit_javascript_finished_cb_raises
    (st : emacs) (xw : nat) (cbs : list Lisp_Object) (idx : nat) (cb : Lisp_Object)
    (value : JSCValue) (e : Lisp_error) :
  xw_script_callbacks (xwidgets st xw) = Vector cbs ->
  cbs !! idx = Some cb ->
  continuation_registered cb = true ->
  webkit_js_to_lisp value = Raise e ->
  exists st',
    webkit_javascript_finished_cb xw (js_value value) (Z.of_nat idx) st = Signal e st'
    /\ kbd_buffer st' = kbd_buffer st
    /\ callback_slots st' xw = <[idx := Qnil]> cbs.
Proof.
  intros Hcbs Hcb Hreg Hraise.
  rewrite (webkit_javascript_finished_cb_outcome st xw cbs idx cb _ Hcbs Hcb).
  unfold finished_cb_outcome. rewrite Hreg, Hraise.
  eexists. split; [reflexivity|].
  unfold callback_slots.
  destruct (NILP cb); cbn -[insert]; rewrite fn_lookup_insert; split; reflexivity.
Qed.

(** C7, amended.  A script-finished notification for slot [idx] of the
    table clears that slot and releases the saved script text, whatever
    the result and whether or not the callback returns normally, and
    leaves the other slots alone.  On an execution error it logs a
    diagnostic and enqueues nothing.  On a result whose conversion
    returns a value it enqueues the event (javascript-callback, model,
    continuation, converted result) exactly when a continuation was
    registered in the slot; on a result whose conversion raises, with a
    continuation registered, it leaves by that signal and enqueues
    nothing.  A further notification for the same slot finds it nil: it
    releases nothing and enqueues nothing.  With no continuation
    registered a result is not converted at all: the callback returns and
    enqueues nothing.  In all: the event is enqueued if and only if a
    continuation was registered, the backend produced a result value and
    the conversion of that value returns; nothing else is ever enqueued,
    and the callback returns unless that conversion raises. *)
Theorem webkit_javascript_finished_cb_spec
    (st : emacs) (xw : nat) (cbs : list Lisp_Object) (idx : nat) (cb : Lisp_Object)
    (res : GAsyncResult) :
  xw_script_callbacks (xwidgets st xw) = Vector cbs ->
  cbs !! idx = Some cb ->
  let o := webkit_javascript_finished_cb xw res (Z.of_nat idx) st in
  let st' := state_after o st in
  callback_slots st' xw = <[idx := Qnil]> cbs
  /\ freed st' = freed st ++ (if NILP cb then [] else [XCAR cb])
  /\ (forall msg, res = js_error msg ->
        o = Normal tt st'
        /\ kbd_buffer st' = kbd_buffer st
        /\ diagnostics st'
           = diagnostics st ++ [g_warning ("Error running javascript: " ++ msg)])
  /\ (forall value lisp_value,
        res = js_value value -> webkit_js_to_lisp value = Ok lisp_value ->
        o = Normal tt st'
        /\ diagnostics st' = diagnostics st
        /\ kbd_buffer st'
           = kbd_buffer st
             ++ (if continuation_registered cb
                 then [script_callback_event xw cb lisp_value] else []))
  /\ (forall value e,
        res = js_value value -> webkit_js_to_lisp value = Raise e ->
        continuation_registered cb = true ->
        o = Signal e st' /\ kbd_buffer st' = kbd_buffer st)
  /\ (forall res',
        let st'' :=
          state_after (webkit_javascript_finished_cb xw res' (Z.of_nat idx) st') st' in
        freed st'' = freed st' /\ kbd_buffer st'' = kbd_buffer st')
  /\ (forall value,
        res = js_value value -> continuation_registered cb = false ->
        o = Normal tt st'
        /\ kbd_buffer st' = kbd_buffer st /\ diagnostics st' = diagnostics st)
  /\ kbd_buffer st'
     = kbd_buffer st
       ++ match res with
          | js_value value =>
              if continuation_registered cb then
                match webkit_js_to_lisp value with
                | Ok lisp_value => [script_callback_event xw cb lisp_value]
                | Raise _ => []
                end
              else []
          | js_error _ => []
          end
  /\ (o = Normal tt st'
      \/ exists value e,
           res = js_value value /\ continuation_registered cb = true
           /\ webkit_js_to_lisp value = Raise e /\ o = Signal e st').
Proof.
  intros Hcbs Hcb o st'.
  pose proof (lookup_lt_Some _ _ _ Hcb) as Hlt.
  assert (Ho : o = finished_cb_outcome st xw cbs idx cb res)
    by (apply webkit_javascript_finished_cb_outcome; assumption).
  assert (Htable : xw_script_callbacks (xwidgets st' xw) = Vector (<[idx := Qnil]> cbs)).
  { unfold st'. rewrite Ho. unfold finished_cb_outcome.
    destruct res as [value|msg], (NILP cb); cbn;
      try destruct (continuation_registered cb); cbn;
      try destruct (webkit_js_to_lisp value); cbn;
      rewrite fn_lookup_insert; reflexivity. }
  assert (Hfreed : freed st' = freed st ++ (if NILP cb then [] else [XCAR cb])).
  { unfold st'. rewrite Ho. unfold finished_cb_outcome.
    destruct res as [value|msg], (NILP cb); cbn;
      try destruct (continuation_registered cb); cbn;
      try destruct (webkit_js_to_lisp value); cbn;
      rewrite ?app_nil_r; reflexivity. }
  split; [unfold callback_slots; by rewrite Htable|].
  split; [exact Hfreed|].
  split; [|split; [|split; [|split; [|split; [|split]]]]].
  - intros msg ->. unfold st'. rewrite Ho. unfold finished_cb_outcome.
    destruct (NILP cb); cbn; auto.
  - intros value lisp_value -> Hconv. unfold st'. rewrite Ho.
    unfold finished_cb_outcome. rewrite Hconv.
    destruct (NILP cb), (continuation_registered cb); cbn; rewrite ?app_nil_r; auto.
  - intros value e -> Hconv Hreg. unfold st'. rewrite Ho.
    unfold finished_cb_outcome. rewrite Hconv, Hreg.
    destruct (NILP cb); cbn; auto.
  - intros res' st''.
    assert (Hnil : <[idx := Qnil]> cbs !! idx = Some Qnil)
      by (apply list_lookup_insert_eq; exact Hlt).
    unfold st''.
    rewrite (webkit_javascript_finished_cb_outcome st' xw _ idx Qnil res' Htable Hnil).
    unfold finished_cb_outcome. destruct res'; cbn; auto.
  - intros value -> Hreg. unfold st'. rewrite Ho.
    unfold finished_cb_outcome. rewrite Hreg.
    destruct (NILP cb); cbn; auto.
  - unfold st'. rewrite Ho. unfold finished_cb_outcome.
    destruct res as [value|msg], (NILP cb); cbn;
      try destruct (continuation_registered cb); cbn;
      try destruct (webkit_js_to_lisp value); cbn;
      rewrite ?app_nil_r; reflexivity.
  - unfold st'. rewrite Ho. unfold finished_cb_outcome.
    destruct res as [value|msg]; [|left; by destruct (NILP cb)].
    destruct (continuation_registered cb) eqn:Hreg; [|left; by destruct (NILP cb)].
    destruct (webkit_js_to_lisp value) as [lisp_value|e] eqn:Hconv;
      [left; by destruct (NILP cb)|].
    right. exists value, e. by destruct (NILP cb).
Qed.

Lemma webkit_javascript_finished_cb_spec_witness :
  let st := requests 2 webkit_widget in
  let cbs := [Cons (MintPtr "f(0)") (Closure 0); Cons (MintPtr "f(1)") (Closure 1)]
             ++ replicate 30 Qnil in
  xw_script_callbacks (xwidgets st 0) = Vector cbs
  /\ cbs !! 1%nat = Some (Cons (MintPtr "f(1)") (Closure 1))
  /\ callback_slots
       (state_after (webkit_javascript_finished_cb 0 (js_value nested_example) 1 st) st) 0
     = <[1%nat := Qnil]> cbs.
Proof.
  intros st cbs.
  assert (Hcbs : xw_script_callbacks (xwidgets st 0) = Vector cbs) by reflexivity.
  assert (Hcb : cbs !! 1%nat = Some (Cons (MintPtr "f(1)") (Closure 1))) by reflexivity.
  split; [exact Hcbs|]. split; [exact Hcb|].
  exact (proj1 (webkit_javascript_finished_cb_spec st 0 cbs 1
                  (Cons (MintPtr "f(1)") (Closure 1)) (js_value nested_example)
                  Hcbs Hcb)).
Defined.


(** C7 as stated fails: a continuation is registered in slot 0 and the
    backend produces a result value, an array of 2^31 elements; the slot
    is cleared, but the conversion raises [memory_full] and no event is
    enqueued. *)
Lemma finished_cb_unconvertible_result :
  callback_slots (requests 1 webkit_widget) 0 !! 0%nat
  = Some (Cons (MintPtr "f(0)") (Closure 0))
  /\ continuation_registered (Cons (MintPtr "f(0)") (Closure 0)) = true
  /\ exists st',
       webkit_javascript_finished_cb 0 (js_value long_array) 0 (requests 1 webkit_widget)
       = Signal memory_full st'
       /\ kbd_buffer st' = kbd_buffer (requests 1 webkit_widget)
       /\ callback_slots st' 0 !! 0%nat = Some Qnil.
Proof.
  assert (Hcbs : xw_script_callbacks (xwidgets (requests 1 webkit_widget) 0)
                 = Vector (Cons (MintPtr "f(0)") (Closure 0) :: replicate 31 Qnil))
    by (vm_compute; reflexivity).
  assert (Hraise : webkit_js_to_lisp long_array = Raise memory_full).
  { apply webkit_js_to_lisp_long_array. unfold long_array.
    rewrite length_replicate, Z2Nat.id by lia. vm_compute. reflexivity. }
  split; [unfold callback_slots; rewrite Hcbs; reflexivity|].
  split; [reflexivity|].
  destruct (webkit_javascript_finished_cb_raises (requests 1 webkit_widget) 0 _ 0
              (Cons (MintPtr "f(0)") (Closure 0)) long_array memory_full
              Hcbs eq_refl eq_refl Hraise) as (st' & Hrun & Hkbd & Hslots).
  exists st'. split; [exact Hrun|]. split; [exact Hkbd|].
  rewrite Hslots. reflexivity.
Qed.

(** ** Web view operations on other widgets *)

Lemma WEBKIT_FN_INIT_other (st : emacs) (p : nat) (rest : nat -> M Lisp_Object) :
  xwidget_is_web_view (xwidgets st p) = false ->
  WEBKIT_FN_INIT (XWidget p) rest st = not_a_web_view st.
Proof.
  intros Hother. unfold WEBKIT_FN_INIT, bind, get_xwidget, gets. cbn.
  rewrite Hother. reflexivity.
Qed.

(** C4, amended.  Each web view operation, applied to an xwidget that
    does not hold a web view, writes one line to stdout and returns nil
    to its caller; it raises nothing and calls nothing in the toolkit
    (the state changes in its diagnostics only). *)
Theorem web_view_operation_on_other_widget
    (st : emacs) (p : nat) (uri rel_pos factor script fn : Lisp_Object) :
  xwidget_is_web_view (xwidgets st p) = false ->
  Fxwidget_webkit_uri (XWidget p) st = not_a_web_view st
  /\ Fxwidget_webkit_title (XWidget p) st = not_a_web_view st
  /\ Fxwidget_webkit_goto_uri (XWidget p) uri st = not_a_web_view st
  /\ Fxwidget_webkit_goto_history (XWidget p) rel_pos st = not_a_web_view st
  /\ Fxwidget_webkit_zoom (XWidget p) factor st = not_a_web_view st
  /\ Fxwidget_webkit_execute_script (XWidget p) script fn st = not_a_web_view st.
Proof.
  intros Hother.
  unfold Fxwidget_webkit_uri, Fxwidget_webkit_title, Fxwidget_webkit_goto_uri,
    Fxwidget_webkit_goto_history, Fxwidget_webkit_zoom, Fxwidget_webkit_execute_script.
  repeat split; apply WEBKIT_FN_INIT_other; exact Hother.
Qed.

Lemma web_view_operation_on_other_widget_witness :
  xwidget_is_web_view (xwidgets other_widget 0) = false
  /\ Fxwidget_webkit_goto_uri (XWidget 0) (String "https://example.org") other_widget
     = not_a_web_view other_widget.
Proof.
  assert (Hother : xwidget_is_web_view (xwidgets other_widget 0) = false)
    by (vm_compute; reflexivity).
  split; [exact Hother|].
  exact (proj1 (proj2 (proj2
           (web_view_operation_on_other_widget other_widget 0
              (String "https://example.org") (Fixnum 0) (Float 1%float)
              (String "1 + 1") Qnil Hother)))).
Defined.

(** C4 as stated fails: on a widget that is not a web view,
    xwidget-webkit-uri raises no error; it returns nil. *)
Lemma webkit_uri_on_other_widget_returns_nil :
  xwidget_is_web_view (xwidgets other_widget 0) = false
  /\ signalled (Fxwidget_webkit_uri (XWidget 0) other_widget) = false
  /\ returned (Fxwidget_webkit_uri (XWidget 0) other_widget) = Some Qnil.
Proof. vm_compute. repeat split; reflexivity. Qed.

(** ** Downloads *)

(** C9, amended.  Each download-started notification handed to
    [webkit_download_cb] enqueues exactly one input event and changes
    nothing else; the payload of the event is the list
    (download-started MODEL URI): the tag, the model and the URI of the
    download's request.  It is no list of five fields: it carries no MIME
    type and no file name. *)
Theorem webkit_download_cb_event (arg1 : WebKitDownload) (st : emacs) :
  exists event,
    webkit_download_cb arg1 st
    = Normal false (set_kbd_buffer (kbd_buffer st ++ [event]) st)
    /\ kind event = XWIDGET_EVENT
    /\ arg event
       = list3 (Symbol "download-started") (XWidget (download_web_view arg1))
               (String (download_request_uri arg1))
    /\ forall tag model url mimetype filename,
         arg event <> list5 tag model url mimetype filename.
Proof.
  exists (download_started_event arg1).
  split; [reflexivity|]. split; [reflexivity|]. split; [reflexivity|].
  intros tag model url mimetype filename. discriminate.
Qed.

(** C9 as stated fails: for a PDF download whose destination is known,
    the one event enqueued has three fields; it is not the five-field
    event (tag, model, url, mimeType, filename). *)
Lemma webkit_download_cb_three_fields :
  kbd_buffer (run (webkit_download_cb sample_download) webkit_widget)
  = [{| kind := XWIDGET_EVENT; frame_or_window := Qnil;
        arg := list3 (Symbol "download-started") (XWidget 0)
                     (String "https://example.org/paper.pdf") |}]
  /\ ~ (exists tag filename,
          In {| kind := XWIDGET_EVENT; frame_or_window := Qnil;
                arg := list5 tag (XWidget 0) (String "https://example.org/paper.pdf")
                             (String "application/pdf") filename |}
             (kbd_buffer (run (webkit_download_cb sample_download) webkit_widget))).
Proof.
  split; [reflexivity|].
  intros (tag & filename & Hin). cbn in Hin.
  destruct Hin as [Heq|[]]. discriminate Heq.
Qed.

(** ** Exit-confirmation flag *)

Lemma make_xwidget_webkit_heap (p : nat) (w h : Z) (st : emacs) :
  exists st', make_xwidget_webkit p w h st = Normal tt st'
              /\ xwidgets st' = xwidgets st
              /\ Vxwidget_list st' = Vxwidget_list st.
Proof.
  unfold make_xwidget_webkit, bind, gets, when, gtk, modify.
  destruct (webkit_sandbox_enabled (host st)); cbn; eexists; split; try reflexivity; auto.
Qed.

Lemma Fget_buffer_create_heap (b v : Lisp_Object) (st st' : emacs) :
  Fget_buffer_create b st = Normal v st' ->
  xwidgets st' = xwidgets st /\ Vxwidget_list st' = Vxwidget_list st
  /\ next_xwidget st' = next_xwidget st.
Proof.
  unfold Fget_buffer_create, Fget_buffer, bind, gets, ret, xsignal, modify.
  destruct b; cbn; try discriminate; try (intros [= _ <-]; auto).
  destruct (assoc_buffer s (buffer_names (host st))); [intros [= _ <-]; auto|].
  destruct (String.eqb s ""); [discriminate|]. intros [= _ <-]. auto.
Qed.

Lemma CHECK_SYMBOL_state (x : Lisp_Object) (u : unit) (st st' : emacs) :
  CHECK_SYMBOL x st = Normal u st' -> st' = st.
Proof. destruct x; cbn; unfold ret, xsignal; congruence. Qed.

Lemma CHECK_FIXNAT_state (x : Lisp_Object) (u : unit) (st st' : emacs) :
  CHECK_FIXNAT x st = Normal u st' -> st' = st.
Proof.
  destruct x; cbn; unfold ret, xsignal; try congruence.
  destruct (0 <=? n); congruence.
Qed.

Lemma XFIXNAT_state (x : Lisp_Object) (n : Z) (st st' : emacs) :
  XFIXNAT x st = Normal n st' -> st' = st.
Proof.
  destruct x; cbn; unfold ret, undefined; try congruence.
  destruct (0 <=? n0); congruence.
Qed.

Lemma Fmake_xwidget_fresh type title width height arguments buffer st val st' :
  Fmake_xwidget type title width height arguments buffer st = Normal val st' ->
  val = XWidget (next_xwidget st)
  /\ xw_kill_without_query (xwidgets st' (next_xwidget st)) = false.
Proof.
  unfold Fmake_xwidget. intros H.
  bind_inv H as init st0 Hinit. destruct init; cbn in H; [|discriminate].
  unfold gets in Hinit. assert (st0 = st) as -> by congruence. clear Hinit.
  bind_inv H as u1 st1 Hsym. apply CHECK_SYMBOL_state in Hsym as ->.
  bind_inv H as u2 st2 Hw. apply CHECK_FIXNAT_state in Hw as ->.
  bind_inv H as u3 st3 Hh. apply CHECK_FIXNAT_state in Hh as ->.
  bind_inv H as p st4 Halloc.
  unfold allocate_xwidget in Halloc.
  assert (p = next_xwidget st) as -> by congruence.
  assert (Hlist4 : Vxwidget_list st4 = Vxwidget_list st)
    by (injection Halloc as <-; reflexivity).
  clear Halloc.
  bind_inv H as b st5 Hbuf.
  assert (Hlist5 : Vxwidget_list st5 = Vxwidget_list st).
  { rewrite <- Hlist4. destruct (NILP buffer).
    - unfold Fcurrent_buffer, gets in Hbuf. congruence.
    - apply Fget_buffer_create_heap in Hbuf as (_ & -> & _). auto. }
  clear Hbuf.
  bind_inv H as w st6 Hw. apply XFIXNAT_state in Hw as ->.
  bind_inv H as h st7 Hh. apply XFIXNAT_state in Hh as ->.
  bind_inv H as u4 st8 Hreg. unfold modify in Hreg.
  assert (st8 = set_Vxwidget_list (XWidget (next_xwidget st) :: Vxwidget_list st5) st5)
    as -> by congruence.
  clear Hreg.
  bind_inv H as u5 st9 Hput. unfold put_xwidget, modify in Hput.
  bind_inv H as u6 st10 Hgtk. unfold ret in H.
  assert (val = XWidget (next_xwidget st) /\ st' = st10) as [-> ->]
    by (split; congruence).
  split; [reflexivity|].
  assert (Hk : xw_kill_without_query (xwidgets st9 (next_xwidget st)) = false).
  { simplify_eq. cbn -[insert]. rewrite fn_lookup_insert. reflexivity. }
  unfold when in Hgtk. destruct (EQ type Qwebkit).
  - match type of Hgtk with make_xwidget_webkit ?p ?w ?h ?s = _ =>
      destruct (make_xwidget_webkit_heap p w h s) as (st'' & Hrun & Hheap & _) end.
    rewrite Hrun in Hgtk. assert (st10 = st'') as -> by congruence.
    rewrite Hheap. exact Hk.
  - unfold ret in Hgtk. assert (st10 = st9) as -> by congruence. exact Hk.
Qed.

(** C10.  On an xwidget, set-xwidget-query-on-exit-flag returns FLAG and
    stores its negation in [kill_without_query]; right after it,
    xwidget-query-on-exit-flag returns t when FLAG is not nil and nil
    when it is.  An xwidget that make-xwidget has just returned reads as
    query-on-exit = t. *)
Theorem query_on_exit_flag_roundtrip (st : emacs) (p : nat) (flag : Lisp_Object) :
  (exists st',
      Fset_xwidget_query_on_exit_flag (XWidget p) flag st = Normal flag st'
      /\ xw_kill_without_query (xwidgets st' p) = NILP flag
      /\ Fxwidget_query_on_exit_flag (XWidget p) st'
         = Normal (if NILP flag then Qnil else Qt) st')
  /\ (forall type title width height arguments buffer val st',
        Fmake_xwidget type title width height arguments buffer st = Normal val st' ->
        Fxwidget_query_on_exit_flag val st' = Normal Qt st').
Proof.
  split.
  - exists (set_xwidgets
              (<[p := set_kill_without_query (NILP flag) (xwidgets st p)]> (xwidgets st))
              st).
    split; [reflexivity|].
    unfold Fxwidget_query_on_exit_flag, bind, get_xwidget, gets.
    cbn -[insert]. rewrite fn_lookup_insert. cbn.
    split; [reflexivity|]. by destruct (NILP flag).
  - intros type title width height arguments buffer val st' Hmake.
    apply Fmake_xwidget_fresh in Hmake as [-> Hk].
    unfold Fxwidget_query_on_exit_flag, bind, get_xwidget, gets. cbn.
    by rewrite Hk.
Qed.

Lemma query_on_exit_flag_roundtrip_witness :
  Fmake_xwidget Qwebkit (String "browser") (Fixnum 300) (Fixnum 200) Qnil Qnil
    (startup sample_text_area)
  = Normal (XWidget 0) webkit_widget
  /\ Fxwidget_query_on_exit_flag (XWidget 0) webkit_widget = Normal Qt webkit_widget.
Proof.
  assert (Hmake : Fmake_xwidget Qwebkit (String "browser") (Fixnum 300) (Fixnum 200)
                    Qnil Qnil (startup sample_text_area)
                  = Normal (XWidget 0) webkit_widget) by (vm_compute; reflexivity).
  split; [exact Hmake|].
  exact (proj2 (query_on_exit_flag_roundtrip (startup sample_text_area) 0 Qnil)
           Qwebkit (String "browser") (Fixnum 300) (Fixnum 200) Qnil Qnil
           (XWidget 0) webkit_widget Hmake).
Defined.

(** ** Killing the widgets of a buffer *)

Lemma Fget_buffer_xwidgets_scan (b : nat) (st : emacs) :
  Fget_buffer_xwidgets (Buffer b) st
  = Normal (buffer_xwidgets (xwidgets st) (Buffer b) (Vxwidget_list st) []) st.
Proof.
  unfold Fget_buffer_xwidgets, bind, gets. cbn.
  generalize (@nil Lisp_Object) as acc.
  induction (Vxwidget_list st) as [|o tail IH]; intros acc; [reflexivity|].
  cbn [buffer_xwidgets]. destruct o; cbn; try apply IH.
  destruct (EQ (xw_buffer (xwidgets st p)) (Buffer b)); apply IH.
Qed.

Lemma elem_of_buffer_xwidgets h buffer tail acc o :
  o ∈ buffer_xwidgets h buffer tail acc
  <-> o ∈ acc \/ (o ∈ tail /\ owned_by h buffer o = true).
Proof.
  revert acc. induction tail as [|x tail IH]; intros acc; cbn.
  - rewrite elem_of_nil. tauto.
  - rewrite IH, elem_of_cons. destruct (owned_by h buffer x) eqn:Hx.
    + rewrite elem_of_cons. split.
      * intros [[->|?]|[? ?]]; auto.
      * intros [?|[[->|?] ?]]; auto.
    + split.
      * intros [?|[? ?]]; auto.
      * intros [?|[[->|?] Ho]]; auto. congruence.
Qed.

Lemma buffer_xwidgets_none h buffer tail :
  (forall o, o ∈ tail -> owned_by h buffer o = false) ->
  buffer_xwidgets h buffer tail [] = [].
Proof.
  intros Hnone. destruct (buffer_xwidgets h buffer tail []) as [|o l] eqn:Hscan; [done|].
  assert (Ho : o ∈ buffer_xwidgets h buffer tail []) by (rewrite Hscan; left).
  apply elem_of_buffer_xwidgets in Ho as [Ho|[Ho Hown]]; [by apply elem_of_nil in Ho|].
  rewrite (Hnone o Ho) in Hown. discriminate.
Qed.

Lemma release_callbacks_freed (cbs : list Lisp_Object) (st : emacs) :
  release_callbacks cbs st = Normal tt (set_freed (freed st ++ released cbs) st).
Proof.
  revert st. induction cbs as [|cb rest IH]; intros st; cbn.
  - rewrite app_nil_r. by destruct st.
  - unfold bind, when, xfree, modify, ret. destruct (NILP cb); cbn.
    + apply IH.
    + rewrite IH. cbn. by rewrite <- app_assoc.
Qed.

Lemma kill_xwidget_killed (p : nat) (st : emacs) :
  callback_table_ok (xwidgets st p) ->
  kill_xwidget (XWidget p) st = Normal tt (killed p st).
Proof.
  intros Hok. unfold kill_xwidget, killed, bind, modify, get_xwidget, gets, gtk.
  cbn -[release_callbacks].
  destruct Hok as [Hnil|[cbs Hvec]]; rewrite ?Hnil, ?Hvec;
    destruct (xw_widget_osr (xwidgets st p)) as [widget_osr|],
             (xw_widgetwindow_osr (xwidgets st p)) as [widgetwindow_osr|];
    cbn -[release_callbacks]; rewrite ?release_callbacks_freed; reflexivity.
Qed.

Lemma killed_other (p q : nat) (st : emacs) :
  q <> p -> xwidgets (killed p st) q = xwidgets st q.
Proof.
  intros Hne. unfold killed.
  destruct (xw_widget_osr (xwidgets st p)), (xw_widgetwindow_osr (xwidgets st p)),
           (xw_script_callbacks (xwidgets st p)); cbn -[insert];
    try reflexivity; by rewrite fn_lookup_insert_ne.
Qed.

Lemma killed_same_widget (p q : nat) (st : emacs) :
  same_widget (xwidgets st q) (xwidgets (killed p st) q).
Proof.
  destruct (decide (q = p)) as [->|Hne].
  - unfold killed.
    destruct (xw_widget_osr (xwidgets st p)), (xw_widgetwindow_osr (xwidgets st p)),
             (xw_script_callbacks (xwidgets st p)); cbn -[insert];
      rewrite ?fn_lookup_insert; repeat split; reflexivity.
  - rewrite (killed_other p q st Hne). repeat split; reflexivity.
Qed.

Lemma killed_table (p : nat) (st : emacs) :
  callback_table_ok (xwidgets st p) ->
  callback_table_ok (xwidgets (killed p st) p) /\ slots_released (killed p st) p.
Proof.
  intros [Hnil|[cbs Hvec]]; unfold killed, slots_released, callback_slots, callback_table_ok.
  - rewrite Hnil.
    destruct (xw_widget_osr (xwidgets st p)), (xw_widgetwindow_osr (xwidgets st p));
      cbn; rewrite Hnil; split; auto; intros i cb Hi; by rewrite lookup_nil in Hi.
  - rewrite Hvec.
    destruct (xw_widget_osr (xwidgets st p)), (xw_widgetwindow_osr (xwidgets st p));
      cbn -[insert]; rewrite fn_lookup_insert; cbn; (split; [eauto|]);
      intros i cb Hi; apply lookup_replicate in Hi as [-> _]; reflexivity.
Qed.

Lemma killed_registry (p : nat) (st : emacs) :
  Vxwidget_list (killed p st) = Fdelq (XWidget p) (Vxwidget_list st).
Proof.
  unfold killed.
  destruct (xw_widget_osr (xwidgets st p)), (xw_widgetwindow_osr (xwidgets st p)),
           (xw_script_callbacks (xwidgets st p)); reflexivity.
Qed.

Lemma EQ_XWidget (p : nat) (o : Lisp_Object) : EQ (XWidget p) o = true <-> o = XWidget p.
Proof.
  destruct o; cbn; try (split; [discriminate|congruence]).
  rewrite Nat.eqb_eq. split; congruence.
Qed.

Lemma elem_of_Fdelq (p : nat) (l : list Lisp_Object) (o : Lisp_Object) :
  o ∈ Fdelq (XWidget p) l <-> o ∈ l /\ o <> XWidget p.
Proof.
  unfold Fdelq. rewrite list_elem_of_filter, <- (EQ_XWidget p o).
  destruct (EQ (XWidget p) o); split; intros [? ?]; split; auto; congruence.
Qed.

(** The loop of [kill_buffer_xwidgets] over a list of xwidgets. *)
Lemma kill_loop (l : list Lisp_Object) (st : emacs) :
  (forall o, o ∈ l -> exists p, o = XWidget p /\ callback_table_ok (xwidgets st p)) ->
  exists st',
    for_each l kill_xwidget st = Normal tt st'
    /\ (forall o, o ∈ Vxwidget_list st' <-> o ∈ Vxwidget_list st /\ o ∉ l)
    /\ (forall q, same_widget (xwidgets st q) (xwidgets st' q))
    /\ (forall q, slots_released st q -> slots_released st' q)
    /\ (forall p, XWidget p ∈ l -> slots_released st' p).
Proof.
  revert st. induction l as [|o l IH]; intros st Hl.
  - exists st. split; [reflexivity|]. split; [|split; [|split]].
    + intros o. rewrite elem_of_nil. tauto.
    + intros q. repeat split; reflexivity.
    + auto.
    + intros p Hp. by apply elem_of_nil in Hp.
  - destruct (Hl o ltac:(left)) as (p & -> & Hok).
    destruct (IH (killed p st)) as (st' & Hrun & Hreg & Hsame & Hkeep & Hrel).
    { intros o Ho. destruct (Hl o ltac:(by right)) as (q & -> & Hq).
      exists q. split; [reflexivity|].
      destruct (decide (q = p)) as [->|Hne]; [by apply killed_table|].
      by rewrite killed_other. }
    exists st'. split; [|split; [|split; [|split]]].
    + cbn [for_each]. unfold bind. rewrite (kill_xwidget_killed p st Hok). exact Hrun.
    + intros o. rewrite Hreg, killed_registry, elem_of_Fdelq, not_elem_of_cons. tauto.
    + intros q. specialize (Hsame q). pose proof (killed_same_widget p q st) as Hk.
      unfold same_widget in *.
      destruct Hsame as (-> & -> & -> & -> & -> & -> & ->). exact Hk.
    + intros q Hq. apply Hkeep.
      destruct (decide (q = p)) as [->|Hne]; [by apply killed_table|].
      unfold slots_released, callback_slots in *. by rewrite killed_other.
    + intros q Hq. apply elem_of_cons in Hq as [[= ->]|Hq]; [|by apply Hrel].
      apply Hkeep. by apply killed_table.
Qed.

Lemma elem_of_released (cbs : list Lisp_Object) (cb : Lisp_Object) :
  cb ∈ cbs -> NILP cb = false -> XCAR cb ∈ released cbs.
Proof.
  induction cbs as [|c cbs IH]; intros Hin Hcb; [by apply elem_of_nil in Hin|].
  cbn [released]. apply elem_of_cons in Hin as [<-|Hin].
  - rewrite Hcb. left.
  - destruct (NILP c); [|right]; by apply IH.
Qed.

(** What [kill_xwidget] does besides: it frees the saved script texts and
    destroys the two offscreen widgets, and leaves the pointers to them
    in the widget. *)
Lemma killed_more (p : nat) (st : emacs) :
  (forall q, xw_widget_osr (xwidgets (killed p st) q) = xw_widget_osr (xwidgets st q)
             /\ xw_widgetwindow_osr (xwidgets (killed p st) q)
                = xw_widgetwindow_osr (xwidgets st q))
  /\ (forall x, x ∈ freed st \/ x ∈ released (callback_slots st p) -> x ∈ freed (killed p st))
  /\ (forall c, c ∈ gtk_log st -> c ∈ gtk_log (killed p st))
  /\ (forall widget_osr widgetwindow_osr,
        xw_widget_osr (xwidgets st p) = Some widget_osr ->
        xw_widgetwindow_osr (xwidgets st p) = Some widgetwindow_osr ->
        gtk_widget_destroy widget_osr ∈ gtk_log (killed p st)
        /\ gtk_widget_destroy widgetwindow_osr ∈ gtk_log (killed p st)).
Proof.
  unfold killed, callback_slots.
  split; [|split; [|split]].
  - intros q.
    destruct (xw_widget_osr (xwidgets st p)) eqn:Hw,
             (xw_widgetwindow_osr (xwidgets st p)) eqn:Hww,
             (xw_script_callbacks (xwidgets st p)); cbn -[insert];
      try (split; reflexivity);
      (destruct (decide (q = p)) as [->|Hne];
       [rewrite fn_lookup_insert; cbn; by rewrite Hw, Hww
       |by rewrite fn_lookup_insert_ne]).
  - intros x.
    destruct (xw_widget_osr (xwidgets st p)), (xw_widgetwindow_osr (xwidgets st p)),
             (xw_script_callbacks (xwidgets st p)); cbn;
      rewrite ?elem_of_app, ?elem_of_nil; tauto.
  - intros c.
    destruct (xw_widget_osr (xwidgets st p)), (xw_widgetwindow_osr (xwidgets st p)),
             (xw_script_callbacks (xwidgets st p)); cbn;
      rewrite ?elem_of_app; tauto.
  - intros widget_osr widgetwindow_osr -> ->.
    destruct (xw_script_callbacks (xwidgets st p)); cbn;
      rewrite !elem_of_app, !list_elem_of_singleton; auto.
Qed.

Lemma kill_loop_more (l : list Lisp_Object) (st st' : emacs) :
  (forall o, o ∈ l -> exists p, o = XWidget p /\ callback_table_ok (xwidgets st p)) ->
  for_each l kill_xwidget st = Normal tt st' ->
  (forall q, xw_widget_osr (xwidgets st' q) = xw_widget_osr (xwidgets st q)
             /\ xw_widgetwindow_osr (xwidgets st' q) = xw_widgetwindow_osr (xwidgets st q))
  /\ (forall x, x ∈ freed st -> x ∈ freed st')
  /\ (forall c, c ∈ gtk_log st -> c ∈ gtk_log st')
  /\ (forall p, XWidget p ∈ l ->
        (forall x, x ∈ released (callback_slots st p) -> x ∈ freed st')
        /\ (forall widget_osr widgetwindow_osr,
              xw_widget_osr (xwidgets st p) = Some widget_osr ->
              xw_widgetwindow_osr (xwidgets st p) = Some widgetwindow_osr ->
              gtk_widget_destroy widget_osr ∈ gtk_log st'
              /\ gtk_widget_destroy widgetwindow_osr ∈ gtk_log st')).
Proof.
  revert st. induction l as [|o l IH]; intros st Hl Hrun.
  - injection Hrun as <-.
    split; [auto|]. split; [auto|]. split; [auto|].
    intros p Hp. by apply elem_of_nil in Hp.
  - destruct (Hl o ltac:(left)) as (p & -> & Hok).
    cbn [for_each] in Hrun. unfold bind in Hrun.
    rewrite (kill_xwidget_killed p st Hok) in Hrun.
    destruct (killed_more p st) as (Hosr & Hfreed & Hlog & Hdestroy).
    destruct (IH (killed p st)) as (Hosr' & Hfreed' & Hlog' & Hin'); [|exact Hrun|].
    { intros o Ho. destruct (Hl o ltac:(by right)) as (q & -> & Hq).
      exists q. split; [reflexivity|].
      destruct (decide (q = p)) as [->|Hne]; [by apply killed_table|].
      by rewrite killed_other. }
    split; [|split; [|split]].
    + intros q. destruct (Hosr q) as [<- <-]. apply Hosr'.
    + auto.
    + auto.
    + intros q Hq. destruct (decide (q = p)) as [->|Hne].
      * split; [auto|]. intros w ww Hw Hww.
        destruct (Hdestroy w ww Hw Hww). auto.
      * apply elem_of_cons in Hq as [[= ->]|Hq]; [done|].
        destruct (Hin' q Hq) as [Hrel Hdes]. split.
        -- intros x Hx. apply Hrel. unfold callback_slots in *.
           by rewrite killed_other.
        -- intros w ww Hw Hww. apply Hdes; by rewrite killed_other.
Qed.

Lemma Fxwidget_info_returns (p : nat) (st : emacs) :
  Fxwidget_info (XWidget p) st
  = Normal (Vector [xw_type (xwidgets st p); xw_title (xwidgets st p);
                    Fixnum (xw_width (xwidgets st p));
                    Fixnum (xw_height (xwidgets st p))]) st.
Proof. reflexivity. Qed.

(** C6, amended.  After [kill_buffer_xwidgets] on a buffer B,
    get-buffer-xwidgets of B returns the empty list, every slot of the
    callback table of each model that B owned is nil, and every script
    text that was saved in the table has been freed.  A handle to such a
    model stays an xwidget for the accessors: xwidget-info,
    xwidget-plist, xwidget-buffer and xwidget-query-on-exit-flag return
    what they returned before and raise nothing.  The two offscreen
    widgets of the model have been destroyed, and the model still points
    to them. *)
Theorem kill_buffer_xwidgets_spec (st : emacs) (b : nat) :
  (forall p, XWidget p ∈ Vxwidget_list st -> callback_table_ok (xwidgets st p)) ->
  exists st',
    kill_buffer_xwidgets (Buffer b) st = Normal tt st'
    /\ Fget_buffer_xwidgets (Buffer b) st' = Normal [] st'
    /\ forall p,
         XWidget p ∈ Vxwidget_list st -> xw_buffer (xwidgets st p) = Buffer b ->
         slots_released st' p
         /\ Fxwidget_info (XWidget p) st'
            = Normal (Vector [xw_type (xwidgets st p); xw_title (xwidgets st p);
                              Fixnum (xw_width (xwidgets st p));
                              Fixnum (xw_height (xwidgets st p))]) st'
         /\ (forall cb, cb ∈ callback_slots st p -> NILP cb = false ->
                        XCAR cb ∈ freed st')
         /\ Fxwidget_plist (XWidget p) st' = Normal (xw_plist (xwidgets st p)) st'
         /\ Fxwidget_buffer (XWidget p) st' = Normal (Buffer b) st'
         /\ Fxwidget_query_on_exit_flag (XWidget p) st'
            = Normal (if xw_kill_without_query (xwidgets st p) then Qnil else Qt) st'
         /\ xw_widget_osr (xwidgets st' p) = xw_widget_osr (xwidgets st p)
         /\ xw_widgetwindow_osr (xwidgets st' p) = xw_widgetwindow_osr (xwidgets st p)
         /\ (forall widget_osr widgetwindow_osr,
               xw_widget_osr (xwidgets st p) = Some widget_osr ->
               xw_widgetwindow_osr (xwidgets st p) = Some widgetwindow_osr ->
               gtk_widget_destroy widget_osr ∈ gtk_log st'
               /\ gtk_widget_destroy widgetwindow_osr ∈ gtk_log st').
Proof.
  intros Hok.
  set (l := buffer_xwidgets (xwidgets st) (Buffer b) (Vxwidget_list st) []).
  assert (Hl : forall o, o ∈ l <-> o ∈ Vxwidget_list st /\ owned_by (xwidgets st) (Buffer b) o = true).
  { intros o. unfold l. rewrite elem_of_buffer_xwidgets, elem_of_nil. tauto. }
  assert (Hloop : forall o, o ∈ l ->
                    exists p, o = XWidget p /\ callback_table_ok (xwidgets st p)).
  { intros o Ho. apply Hl in Ho as [Hin Hown].
    destruct o; try discriminate Hown. eauto. }
  destruct (kill_loop l st Hloop) as (st' & Hrun & Hreg & Hsame & _ & Hrel).
  destruct (kill_loop_more l st st' Hloop Hrun) as (Hosr & _ & _ & Hmore).
  exists st'. split; [|split].
  - unfold kill_buffer_xwidgets, bind. rewrite Fget_buffer_xwidgets_scan. exact Hrun.
  - rewrite Fget_buffer_xwidgets_scan. f_equal.
    apply buffer_xwidgets_none. intros o Ho.
    apply Hreg in Ho as [Hin Hnot].
    destruct (owned_by (xwidgets st') (Buffer b) o) eqn:Hown; [|reflexivity].
    exfalso. apply Hnot, Hl. split; [exact Hin|].
    destruct o; try discriminate Hown. cbn in *.
    destruct (Hsame p) as (_ & _ & Hbuf & _). by rewrite <- Hbuf.
  - intros p Hin Hbuf.
    assert (Hp : XWidget p ∈ l).
    { apply Hl. split; [exact Hin|]. cbn. rewrite Hbuf. cbn. apply Nat.eqb_refl. }
    destruct (Hmore p Hp) as [Hfreed Hdestroyed].
    destruct (Hsame p) as (Htype & Htitle & Hbuffer & Hplist & Hwidth & Hheight & Hflag).
    split; [by apply Hrel|].
    split; [by rewrite Fxwidget_info_returns, Htype, Htitle, Hwidth, Hheight|].
    split; [intros cb Hcb Hpending; by apply Hfreed, elem_of_released|].
    unfold Fxwidget_plist, Fxwidget_buffer, Fxwidget_query_on_exit_flag, bind,
      get_xwidget, gets. cbn [CHECK_XWIDGET XWIDGETP XXWIDGET ret].
    rewrite Hplist, Hbuffer, Hflag, Hbuf.
    split; [reflexivity|]. split; [reflexivity|]. split; [reflexivity|].
    split; [apply Hosr|]. split; [apply Hosr|]. exact Hdestroyed.
Qed.

(** ** View lookup *)

Lemma view_lookup_loop_pure (l : list Lisp_Object) (xwidget window : Lisp_Object)
    (st : emacs) :
  view_lookup_loop l xwidget window st
  = lift_result (lookup_in (xwidget_views st) l xwidget window) st.
Proof.
  induction l as [|o l IH]; [reflexivity|].
  destruct o; try reflexivity.
  cbn [view_lookup_loop lookup_in].
  unfold bind, Fxwidget_view_model, Fxwidget_view_window, get_xwidget_view, gets. cbn.
  destruct (EQ (xv_model (xwidget_views st p)) xwidget); cbn; [|exact IH].
  destruct (EQ (xv_w (xwidget_views st p)) window); cbn; [reflexivity|exact IH].
Qed.

Lemma lookup_in_shape h l xwidget window r :
  lookup_in h l xwidget window = Ok r -> r = Qnil \/ exists q, r = XWidgetView q.
Proof.
  induction l as [|o l IH]; cbn; [intros [= <-]; auto|].
  destruct o; try discriminate.
  destruct (EQ (xv_model (h p)) xwidget && EQ (xv_w (h p)) window); [|exact IH].
  intros [= <-]. eauto.
Qed.

Lemma xwidget_view_lookup_pure (xw w : nat) (st : emacs) :
  xwidget_view_lookup xw w st
  = lift_result (view_of (xwidget_views st) (Vxwidget_view_list st) xw w) st.
Proof.
  unfold xwidget_view_lookup, Fxwidget_view_lookup, view_of, bind, gets. cbn.
  rewrite view_lookup_loop_pure.
  destruct (lookup_in _ _ _ _) as [r|e] eqn:Hr; [|reflexivity].
  apply lookup_in_shape in Hr as [->|[q ->]]; reflexivity.
Qed.

(** The lookup reads the [model] and [w] members only. *)
Lemma lookup_in_ext (h h' : nat -> xwidget_view) l xwidget window :
  (forall q, xv_model (h' q) = xv_model (h q) /\ xv_w (h' q) = xv_w (h q)) ->
  lookup_in h' l xwidget window = lookup_in h l xwidget window.
Proof.
  intros Hsame. induction l as [|o l IH]; [reflexivity|].
  destruct o; try reflexivity. cbn.
  destruct (Hsame p) as [-> ->]. by rewrite IH.
Qed.

Lemma view_of_ext (h h' : nat -> xwidget_view) l xw w :
  (forall q, xv_model (h' q) = xv_model (h q) /\ xv_w (h' q) = xv_w (h q)) ->
  view_of h' l xw w = view_of h l xw w.
Proof. intros Hsame. unfold view_of. by rewrite (lookup_in_ext h h'). Qed.

(** ** Placement *)

Lemma only_log_refl (st : emacs) : only_log st st.
Proof. repeat split. Qed.

Lemma only_log_trans (st1 st2 st3 : emacs) :
  only_log st1 st2 -> only_log st2 st3 -> only_log st1 st3.
Proof.
  unfold only_log. intros (-> & -> & -> & -> & ->) (-> & -> & -> & -> & ->).
  repeat split.
Qed.

Lemma gtk_only_log (c : gtk_call) (u : unit) (st st' : emacs) :
  gtk c st = Normal u st' -> only_log st st'.
Proof. unfold gtk, modify. intros [= _ <-]. repeat split. Qed.

Lemma gtk_on_only_log o call (u : unit) (st st' : emacs) :
  gtk_on o call st = Normal u st' -> only_log st st'.
Proof.
  destruct o; cbn; [apply gtk_only_log|]. unfold ret. intros [= _ <-]. apply only_log_refl.
Qed.

Lemma for_each_only_log {A} (l : list A) (body : A -> M unit) :
  (forall a u st st', body a st = Normal u st' -> only_log st st') ->
  forall u st st', for_each l body st = Normal u st' -> only_log st st'.
Proof.
  intros Hbody. induction l as [|a l IH]; intros u st st' H; cbn in H.
  - normal_inv H as _ <-. apply only_log_refl.
  - bind_inv H as u1 st1 Hstep.
    eapply only_log_trans; [eapply Hbody|eapply IH]; eassumption.
Qed.

Lemma check_integer_range_inv (x : Lisp_Object) (lo hi n : Z) (st st' : emacs) :
  check_integer_range x lo hi st = Normal n st' ->
  x = Fixnum n /\ lo <= n <= hi /\ st' = st.
Proof.
  destruct x; cbn; unfold xsignal; try discriminate.
  destruct (lo <=? n0) eqn:Hlo, (n0 <=? hi) eqn:Hhi; cbn; unfold ret; try discriminate.
  intros [= <- <-]. apply Z.leb_le in Hlo, Hhi. auto.
Qed.

Lemma XXWIDGET_inv (x : Lisp_Object) (p : nat) (st st' : emacs) :
  XXWIDGET x st = Normal p st' -> x = XWidget p /\ st' = st.
Proof. destruct x; cbn; unfold ret, undefined; try discriminate. intros [= <- <-]. auto. Qed.

Lemma XXWIDGET_VIEW_inv (x : Lisp_Object) (p : nat) (st st' : emacs) :
  XXWIDGET_VIEW x st = Normal p st' -> x = XWidgetView p /\ st' = st.
Proof. destruct x; cbn; unfold ret, undefined; try discriminate. intros [= <- <-]. auto. Qed.

(** What xwidget-resize leaves: the new size in the model, and calls in
    the log. *)
Lemma Fxwidget_resize_inv (p : nat) (new_width new_height r : Lisp_Object)
    (st st' : emacs) :
  Fxwidget_resize (XWidget p) new_width new_height st = Normal r st' ->
  exists w h,
    new_width = Fixnum w /\ new_height = Fixnum h
    /\ only_log (set_xwidgets (<[p := set_size w h (xwidgets st p)]> (xwidgets st)) st) st'.
Proof.
  unfold Fxwidget_resize. intros H.
  bind_inv H as u0 st0 Hchk. cbn in Hchk. normal_inv Hchk as _ <-.
  bind_inv H as w st1 Hw. apply check_integer_range_inv in Hw as (-> & _ & ->).
  bind_inv H as h st2 Hh. apply check_integer_range_inv in Hh as (-> & _ & ->).
  bind_inv H as p' st3 Hp. apply XXWIDGET_inv in Hp as ([= <-] & ->).
  bind_inv H as xw st4 Hxw. normal_inv Hxw as <- <-.
  bind_inv H as u1 st5 Hput. normal_inv Hput as _ <-.
  exists w, h. split; [reflexivity|]. split; [reflexivity|].
  bind_inv H as u2 st6 Hosr.
  bind_inv H as views st7 Hviews. normal_inv Hviews as _ <-.
  bind_inv H as u3 st8 Hloop. normal_inv H as _ <-.
  eapply only_log_trans; [|eapply for_each_only_log; [|exact Hloop]].
  - destruct (xw_widget_osr (xwidgets st p)).
    + bind_inv Hosr as u4 st9 Ha. bind_inv Hosr as u5 st10 Hb.
      eapply only_log_trans; [eapply gtk_on_only_log; exact Ha|].
      eapply only_log_trans; [eapply gtk_on_only_log; exact Hb|].
      eapply gtk_only_log; exact Hosr.
    + normal_inv Hosr as _ <-. apply only_log_refl.
  - intros o u sa sb Hbody. cbn beta in Hbody. destruct (XWIDGET_VIEW_P o).
    + bind_inv Hbody as q sc Hq. apply XXWIDGET_VIEW_inv in Hq as (_ & ->).
      bind_inv Hbody as xv sd Hxv. normal_inv Hxv as _ <-.
      bind_inv Hbody as m se Hm. apply XXWIDGET_inv in Hm as (_ & ->).
      unfold when in Hbody. destruct (Nat.eqb m p).
      * eapply gtk_only_log; exact Hbody.
      * normal_inv Hbody as _ <-. apply only_log_refl.
    + normal_inv Hbody as _ <-. apply only_log_refl.
Qed.

Lemma no_overflow_inv (fits : bool) (u : unit) (st st' : emacs) :
  no_overflow fits st = Normal u st' -> fits = true /\ st' = st.
Proof.
  unfold no_overflow. destruct fits; [|discriminate].
  intros H. apply Normal_inv in H as [_ <-]. auto.
Qed.

Lemma placed_unchanged_clip (x y : Z) (c : clip) (v : xwidget_view) :
  negb (xv_clip_right v =? clip_right c) || negb (xv_clip_bottom v =? clip_bottom c)
  || negb (xv_clip_top v =? clip_top c) || negb (xv_clip_left v =? clip_left c) = false ->
  set_origin x y v = placed x y c v.
Proof.
  intros H.
  apply orb_false_elim in H as [H Hl]. apply orb_false_elim in H as [H Ht].
  apply orb_false_elim in H as [Hr Hb].
  apply negb_false_iff, Z.eqb_eq in Hl, Ht, Hr, Hb.
  destruct v; cbn in *; subst. reflexivity.
Qed.

(** The end of a draw, computed: the view is placed, the toolkit is
    told what changed, and a redraw is requested unless the view is
    hidden. *)
Lemma place_clipped_spec (s : glyph_string) (ta : box) (x y : Z) (p : nat) (st : emacs) :
  let xw := xwidgets st (gs_xwidget s) in
  let c := compute_clip ta (xw_width xw) (xw_height xw) x y in
  let v := xwidget_views st p in
  clip_fits ta x y = true ->
  move_fits v x y c = true ->
  exists st',
    place_clipped s ta x y p st = Normal tt st'
    /\ xwidgets st' = xwidgets st
    /\ Vxwidget_view_list st' = Vxwidget_view_list st
    /\ host st' = host st
    /\ xwidget_views st' p = placed x y c v
    /\ (forall q, q <> p -> xwidget_views st' q = xwidget_views st q)
    /\ gtk_log st' = gtk_log st ++ placement_calls s x y c v ++ queue_draws v.
Proof.
  intros xw c v Hclip_fits Hmove_fits.
  unfold place_clipped, placement_calls, queue_draws, bind, when, get_xwidget, gets,
    get_xwidget_view, put_xwidget_view, gtk, modify, ret, xwidget_hidden, no_overflow.
  cbn -[insert compute_clip clip_fits move_fits].
  fold xw. rewrite Hclip_fits. cbn -[insert compute_clip clip_fits move_fits].
  fold c. fold v. rewrite Hmove_fits. cbn -[insert compute_clip clip_fits move_fits].
  destruct (negb (xv_x v + xv_clip_left v =? x + clip_left c)
            || negb (xv_y v + xv_clip_top v =? y + clip_top c)) eqn:Hmoved;
    destruct (negb (xv_clip_right v =? clip_right c)
              || negb (xv_clip_bottom v =? clip_bottom c)
              || negb (xv_clip_top v =? clip_top c)
              || negb (xv_clip_left v =? clip_left c)) eqn:Hclip;
    cbn -[insert compute_clip]; rewrite ?fn_lookup_insert; cbn -[insert compute_clip];
    destruct (xv_hidden v) eqn:Hhidden; cbn -[insert compute_clip];
    (eexists; split; [reflexivity|]); cbn -[insert compute_clip];
    rewrite ?fn_lookup_insert;
    (split; [reflexivity|]); (split; [reflexivity|]); (split; [reflexivity|]);
    (split; [first [reflexivity | by apply placed_unchanged_clip]|]);
    (split; [intros q Hq; by rewrite ?fn_lookup_insert_ne by congruence|]);
    rewrite <- ?app_assoc, ?app_nil_r; reflexivity.
Qed.

(** A placement that returns has met no overflow. *)
Lemma place_clipped_fits (s : glyph_string) (ta : box) (x y : Z) (p : nat) (u : unit)
    (st st' : emacs) :
  place_clipped s ta x y p st = Normal u st' ->
  let xw := xwidgets st (gs_xwidget s) in
  clip_fits ta x y = true
  /\ move_fits (xwidget_views st p) x y (compute_clip ta (xw_width xw) (xw_height xw) x y)
     = true.
Proof.
  unfold place_clipped, bind, get_xwidget, get_xwidget_view, gets, no_overflow.
  cbn -[insert compute_clip clip_fits move_fits].
  destruct (clip_fits ta x y); [|discriminate].
  cbn -[insert compute_clip clip_fits move_fits].
  destruct (move_fits _ _ _ _); [|discriminate]. auto.
Qed.

Lemma x_draw_xwidget_glyph_string_unfold (s : glyph_string) :
  x_draw_xwidget_glyph_string s
  = (let* found := xwidget_view_lookup (gs_xwidget s) (gs_w s) in
     let* xw := get_xwidget (gs_xwidget s) in
     let x := gs_x s in
     let y := gs_y s + Z.quot (gs_height s) 2 - Z.quot (xw_height xw) 2 in
     let* _ := no_overflow (int_fits (gs_y s + Z.quot (gs_height s) 2) && int_fits y) in
     let* xv := match found with
                | Some p => ret p
                | None => xwidget_init_view (gs_xwidget s) s x y
                end in
     place_view s xw x y xv).
Proof. reflexivity. Qed.

Lemma lift_result_inv {A} (r : result A) (a : A) (st st' : emacs) :
  lift_result r st = Normal a st' -> r = Ok a /\ st' = st.
Proof.
  destruct r; cbn; unfold ret, xsignal; [|discriminate].
  intros H. apply Normal_inv in H as [-> ->]. auto.
Qed.

(** What the creation of a view leaves. *)
Lemma xwidget_init_view_inv (xww : nat) (s : glyph_string) (x y : Z) (p : nat)
    (st st' : emacs) :
  xwidget_init_view xww s x y st = Normal p st' ->
  p = next_xwidget_view st
  /\ xwidgets st' = xwidgets st
  /\ host st' = host st
  /\ Vxwidget_view_list st' = XWidgetView p :: Vxwidget_view_list st
  /\ xv_model (xwidget_views st' p) = XWidget xww
  /\ xv_w (xwidget_views st' p) = Window (gs_w s)
  /\ (forall q, q <> p -> xwidget_views st' q = xwidget_views st q)
  /\ EQ (xw_type (xwidgets st xww)) Qwebkit = true
  /\ xv_x (xwidget_views st' p) = x /\ xv_y (xwidget_views st' p) = y
  /\ xv_clip_left (xwidget_views st' p) = xv_clip_left (xwidget_views st p)
  /\ xv_clip_top (xwidget_views st' p) = xv_clip_top (xwidget_views st p).
Proof.
  unfold xwidget_init_view. intros H.
  bind_inv H as init st0 Hinit. normal_inv Hinit as <- <-.
  destruct (xg_gtk_initialized (host st)); cbn [negb] in H; [|discriminate].
  bind_inv H as p0 st1 Halloc. unfold allocate_xwidget_view in Halloc.
  apply Normal_inv in Halloc as [<- <-].
  bind_inv H as u1 st2 Hreg. normal_inv Hreg as _ <-.
  bind_inv H as raw st3 Hraw. normal_inv Hraw as <- <-.
  bind_inv H as xw st4 Hxw. normal_inv Hxw as <- <-.
  revert H.
  unfold bind, when, gtk, gtk_on, modify, put_xwidget_view, ret.
  cbn -[insert].
  destruct (EQ (xw_type (xwidgets st xww)) Qwebkit); cbn -[insert]; [|discriminate].
  destruct (xw_widgetwindow_osr (xwidgets st xww));
    cbn -[insert]; intros H; apply Normal_inv in H as [<- <-]; cbn -[insert];
    rewrite ?fn_lookup_insert;
    repeat split; try reflexivity;
    intros q Hq; by rewrite !fn_lookup_insert_ne by congruence.
Qed.

Lemma EQ_refl_XWidget (p : nat) : EQ (XWidget p) (XWidget p) = true.
Proof. apply Nat.eqb_refl. Qed.

Lemma EQ_refl_Window (w : nat) : EQ (Window w) (Window w) = true.
Proof. apply Nat.eqb_refl. Qed.

(** What a draw that returns leaves: the view of the widget in the
    window exists, it holds the origin and the clip rectangle computed
    for the size the model has now, and a webkit model has the size of
    the window's text area. *)
Lemma x_draw_xwidget_glyph_string_post (s : glyph_string) (st st1 : emacs) :
  x_draw_xwidget_glyph_string s st = Normal tt st1 ->
  let xww := gs_xwidget s in
  let ta := text_area (host st) (gs_w s) in
  exists p,
    view_of (xwidget_views st1) (Vxwidget_view_list st1) xww (gs_w s) = Ok (Some p)
    /\ host st1 = host st
    /\ xw_type (xwidgets st1 xww) = xw_type (xwidgets st xww)
    /\ (EQ (xw_type (xwidgets st xww)) Qwebkit = true ->
        xw_width (xwidgets st1 xww) = box_width ta
        /\ xw_height (xwidgets st1 xww) = box_height ta)
    /\ placed_at (xwidget_views st1 p) (gs_x s) (draw_y s st)
         (compute_clip ta (xw_width (xwidgets st1 xww)) (xw_height (xwidgets st1 xww))
            (gs_x s) (draw_y s st))
    /\ int_fits (gs_y s + Z.quot (gs_height s) 2) && int_fits (draw_y s st) = true
    /\ clip_fits ta (gs_x s) (draw_y s st) = true
    /\ int_fits (gs_x s
                 + clip_left (compute_clip ta (xw_width (xwidgets st1 xww))
                                (xw_height (xwidgets st1 xww)) (gs_x s) (draw_y s st)))
       = true
    /\ int_fits (draw_y s st
                 + clip_top (compute_clip ta (xw_width (xwidgets st1 xww))
                               (xw_height (xwidgets st1 xww)) (gs_x s) (draw_y s st)))
       = true.
Proof.
  intros H xww ta. unfold draw_y. fold xww.
  rewrite x_draw_xwidget_glyph_string_unfold in H.
  bind_inv H as found st0 Hfound.
  rewrite xwidget_view_lookup_pure in Hfound.
  apply lift_result_inv in Hfound as [Hfound ->].
  bind_inv H as xw st2 Hxw. normal_inv Hxw as <- <-.
  cbn zeta in H. fold xww in H, Hfound.
  set (y := gs_y s + Z.quot (gs_height s) 2 - Z.quot (xw_height (xwidgets st xww)) 2) in *.
  bind_inv H as u0 st0 Hy. unfold no_overflow in Hy.
  destruct (int_fits (gs_y s + Z.quot (gs_height s) 2) && int_fits y) eqn:Hyfits;
    [|discriminate Hy].
  normal_inv Hy as _ <-.
  bind_inv H as p st3 Hxv.
  (* the view, found or created *)
  assert (Hview : view_of (xwidget_views st3) (Vxwidget_view_list st3) xww (gs_w s)
                  = Ok (Some p)
                  /\ xwidgets st3 = xwidgets st /\ host st3 = host st).
  { destruct found as [p0|].
    - normal_inv Hxv as <- <-. auto.
    - apply xwidget_init_view_inv in Hxv as (_ & Hxw & Hhost & Hreg & Hmodel & Hw & _).
      split; [|auto]. unfold view_of. rewrite Hreg. cbn [lookup_in].
      by rewrite Hmodel, Hw, EQ_refl_XWidget, EQ_refl_Window. }
  destruct Hview as (Hview & Hxw3 & Hhost3). clear Hxv Hfound.
  (* the resize, when there is one *)
  unfold place_view in H.
  bind_inv H as ta' st4 Hta. normal_inv Hta as <- <-.
  rewrite Hhost3 in H. fold ta in H.
  bind_inv H as u st5 Hresize.
  assert (Hmodel : xwidget_views st5 = xwidget_views st3
                   /\ Vxwidget_view_list st5 = Vxwidget_view_list st3
                   /\ host st5 = host st3
                   /\ xw_type (xwidgets st5 xww) = xw_type (xwidgets st xww)
                   /\ (EQ (xw_type (xwidgets st xww)) Qwebkit = true ->
                       xw_width (xwidgets st5 xww) = box_width ta
                       /\ xw_height (xwidgets st5 xww) = box_height ta)).
  { unfold when in Hresize.
    destruct (EQ (xw_type (xwidgets st xww)) Qwebkit) eqn:Hwebkit; cbn [andb] in Hresize.
    - destruct (negb (xw_width (xwidgets st xww) =? box_width ta)
                || negb (xw_height (xwidgets st xww) =? box_height ta)) eqn:Hsize.
      + bind_inv Hresize as r st6 Hr. normal_inv Hresize as _ <-.
        apply Fxwidget_resize_inv in Hr
          as (w & h & [= <-] & [= <-] & (Hx & Hv & _ & Hl & Hh)).
        rewrite Hx, Hv, Hl, Hh. cbn -[insert]. rewrite fn_lookup_insert, Hxw3. cbn.
        repeat split; reflexivity.
      + normal_inv Hresize as _ <-. rewrite Hxw3.
        apply orb_false_elim in Hsize as [Hw Hh].
        apply negb_false_iff, Z.eqb_eq in Hw, Hh.
        repeat split; first [reflexivity|assumption].
    - normal_inv Hresize as _ <-. rewrite Hxw3.
      repeat (split; [reflexivity|]). discriminate. }
  destruct Hmodel as (Hv5 & Hl5 & Hh5 & Htype & Hsize). clear Hresize.
  (* the placement *)
  destruct (place_clipped_fits _ _ _ _ _ _ _ _ H) as [Hclip_fits Hmove_fits].
  destruct (place_clipped_spec s ta (gs_x s) y p st5 Hclip_fits Hmove_fits)
    as (st' & Hrun & Hx' & Hl' & Hh' & Hp' & Hq' & _).
  rewrite Hrun in H. apply Normal_inv in H as [_ ->].
  unfold move_fits in Hmove_fits. fold xww in Hmove_fits.
  apply andb_prop in Hmove_fits as [Hmove_fits _].
  apply andb_prop in Hmove_fits as [Hmove_fits Hyc].
  apply andb_prop in Hmove_fits as [_ Hxc].
  exists p. rewrite Hx', Hl', Hh', Hl5, Hh5, Hhost3.
  split; [|split; [reflexivity|split; [exact Htype|split; [exact Hsize|]]]].
  - rewrite <- Hview. apply view_of_ext. intros q. rewrite <- Hv5.
    destruct (decide (q = p)) as [->|Hne]; [rewrite Hp'; auto|by rewrite Hq'].
  - rewrite Hp'. fold xww. repeat split; assumption.
Qed.

Lemma placed_same (x y : Z) (c : clip) (v : xwidget_view) :
  placed_at v x y c -> placed x y c v = v.
Proof.
  intros (Hx & Hy & Hl & Ht & Hr & Hb). destruct v; cbn in *; subst. reflexivity.
Qed.

Lemma placement_calls_none (s : glyph_string) (x y : Z) (c : clip) (v : xwidget_view) :
  placed_at v x y c -> placement_calls s x y c v = [].
Proof.
  intros (Hx & Hy & Hl & Ht & Hr & Hb). unfold placement_calls.
  rewrite Hx, Hy, Hl, Ht, Hr, Hb, !Z.eqb_refl. reflexivity.
Qed.

(** A draw of a view that is already in place, for a model that needs
    no resize, calls the toolkit for the redraw only and changes
    nothing. *)
Lemma x_draw_xwidget_glyph_string_stable (s : glyph_string) (p : nat) (st : emacs) :
  let xww := gs_xwidget s in
  let ta := text_area (host st) (gs_w s) in
  let xw := xwidgets st xww in
  view_of (xwidget_views st) (Vxwidget_view_list st) xww (gs_w s) = Ok (Some p) ->
  (EQ (xw_type xw) Qwebkit = true ->
   xw_width xw = box_width ta /\ xw_height xw = box_height ta) ->
  placed_at (xwidget_views st p) (gs_x s) (draw_y s st)
    (compute_clip ta (xw_width xw) (xw_height xw) (gs_x s) (draw_y s st)) ->
  int_fits (gs_y s + Z.quot (gs_height s) 2) && int_fits (draw_y s st) = true ->
  clip_fits ta (gs_x s) (draw_y s st) = true ->
  int_fits (gs_x s
            + clip_left (compute_clip ta (xw_width xw) (xw_height xw)
                           (gs_x s) (draw_y s st))) = true ->
  int_fits (draw_y s st
            + clip_top (compute_clip ta (xw_width xw) (xw_height xw)
                          (gs_x s) (draw_y s st))) = true ->
  exists st',
    x_draw_xwidget_glyph_string s st = Normal tt st'
    /\ gtk_log st' = gtk_log st ++ queue_draws (xwidget_views st p)
    /\ xwidgets st' = xwidgets st
    /\ (forall q, xwidget_views st' q = xwidget_views st q)
    /\ Vxwidget_view_list st' = Vxwidget_view_list st.
Proof.
  intros xww ta xw Hview Hsize Hplaced Hyfits Hclip_fits Hxc Hyc.
  assert (Hmove_fits : move_fits (xwidget_views st p) (gs_x s) (draw_y s st)
                         (compute_clip ta (xw_width xw) (xw_height xw)
                            (gs_x s) (draw_y s st)) = true).
  { destruct Hplaced as (Hx & Hy & Hl & Ht & _). unfold move_fits.
    rewrite Hx, Hy, Hl, Ht, Hxc, Hyc, Z.eqb_refl. reflexivity. }
  destruct (place_clipped_spec s ta (gs_x s) (draw_y s st) p st Hclip_fits Hmove_fits)
    as (st' & Hrun & Hx' & Hl' & Hh' & Hp' & Hq' & Hlog).
  fold xww xw in Hp', Hlog.
  exists st'. split; [|split; [|split; [exact Hx'|split; [|exact Hl']]]].
  - rewrite x_draw_xwidget_glyph_string_unfold. unfold bind at 1.
    rewrite xwidget_view_lookup_pure. fold xww. rewrite Hview. cbn [lift_result ret].
    unfold bind at 1. unfold get_xwidget, gets. cbn zeta. fold xw.
    change (gs_y s + Z.quot (gs_height s) 2 - Z.quot (xw_height xw) 2)
      with (draw_y s st).
    rewrite Hyfits. unfold bind at 1. unfold no_overflow, ret at 1.
    unfold bind at 1. unfold ret at 1.
    unfold place_view, bind at 1. unfold gets at 1. fold ta.
    replace (EQ (xw_type xw) Qwebkit
             && (negb (xw_width xw =? box_width ta)
                 || negb (xw_height xw =? box_height ta))) with false.
    + exact Hrun.
    + destruct (EQ (xw_type xw) Qwebkit); [|reflexivity].
      destruct Hsize as [-> ->]; [reflexivity|]. by rewrite !Z.eqb_refl.
  - rewrite Hlog, (placement_calls_none _ _ _ _ _ Hplaced). reflexivity.
  - intros q. destruct (decide (q = p)) as [->|Hne]; [|by apply Hq'].
    rewrite Hp'. by apply placed_same.
Qed.

(** C5.  [compute_clip] is the clip rectangle of the claim:
    left = max(0, contentX - x), top = max(0, contentY - y),
    right = max(left, min(width, contentX + contentWidth - x)),
    bottom = max(top, min(height, contentY + contentHeight - y)),
    so left <= right and top <= bottom for all inputs; and after every
    draw that returns, the view of the widget in the window holds this
    rectangle, computed for the text area of the window, the size the
    model has then, and the origin (x, y) of the draw. *)
Theorem draw_clip_rectangle (s : glyph_string) (st st1 : emacs) :
  x_draw_xwidget_glyph_string s st = Normal tt st1 ->
  let ta := text_area (host st1) (gs_w s) in
  let xw := xwidgets st1 (gs_xwidget s) in
  let x := gs_x s in
  let y := draw_y s st in
  exists p,
    xwidget_view_lookup (gs_xwidget s) (gs_w s) st1 = Normal (Some p) st1
    /\ let v := xwidget_views st1 p in
       xv_clip_left v = Z.max 0 (box_x ta - x)
       /\ xv_clip_top v = Z.max 0 (box_y ta - y)
       /\ xv_clip_right v
          = Z.max (xv_clip_left v) (Z.min (xw_width xw) (box_x ta + box_width ta - x))
       /\ xv_clip_bottom v
          = Z.max (xv_clip_top v) (Z.min (xw_height xw) (box_y ta + box_height ta - y))
       /\ xv_clip_left v <= xv_clip_right v
       /\ xv_clip_top v <= xv_clip_bottom v.
Proof.
  intros H ta xw x y.
  apply x_draw_xwidget_glyph_string_post in H
    as (p & Hview & Hhost & _ & _ & (_ & _ & Hl & Ht & Hr & Hb) & _).
  exists p. split.
  - rewrite xwidget_view_lookup_pure, Hview. reflexivity.
  - cbn zeta. unfold ta, xw, x, y. rewrite Hhost, Hl, Ht, Hr, Hb. cbn.
    repeat split; lia.
Qed.

Lemma draw_clip_rectangle_witness :
  x_draw_xwidget_glyph_string sample_glyph_string webkit_widget = Normal tt drawn_widget
  /\ exists p,
       xwidget_view_lookup 0 0 drawn_widget = Normal (Some p) drawn_widget
       /\ xv_clip_left (xwidget_views drawn_widget p)
          <= xv_clip_right (xwidget_views drawn_widget p).
Proof.
  assert (Hdraw : x_draw_xwidget_glyph_string sample_glyph_string webkit_widget
                  = Normal tt drawn_widget) by (vm_compute; reflexivity).
  split; [exact Hdraw|].
  destruct (draw_clip_rectangle sample_glyph_string webkit_widget drawn_widget Hdraw)
    as (p & Hp & _ & _ & _ & _ & Hle & _).
  exists p. split; [exact Hp|exact Hle].
Defined.

(** C3, amended.  When a draw has returned and did not change half the
    height of the model (the term [xww->height / 2] of the origin; so in
    particular when it did not resize the model), a second draw with the
    same glyph string finds the view, returns, and calls the toolkit
    for the redraw of a view that is not hidden and for nothing else:
    no move, no resize or reclip of the view, no resize of the model;
    models, views and the view registry are as they were. *)
Theorem draw_twice (s : glyph_string) (st st1 : emacs) :
  x_draw_xwidget_glyph_string s st = Normal tt st1 ->
  Z.quot (xw_height (xwidgets st1 (gs_xwidget s))) 2
  = Z.quot (xw_height (xwidgets st (gs_xwidget s))) 2 ->
  exists p st2,
    xwidget_view_lookup (gs_xwidget s) (gs_w s) st1 = Normal (Some p) st1
    /\ x_draw_xwidget_glyph_string s st1 = Normal tt st2
    /\ gtk_log st2 = gtk_log st1 ++ queue_draws (xwidget_views st1 p)
    /\ xwidgets st2 = xwidgets st1
    /\ (forall q, xwidget_views st2 q = xwidget_views st1 q)
    /\ Vxwidget_view_list st2 = Vxwidget_view_list st1.
Proof.
  intros H Hhalf.
  apply x_draw_xwidget_glyph_string_post in H
    as (p & Hview & Hhost & Htype & Hsize & Hplaced & Hyfits & Hclip_fits & Hxc & Hyc).
  assert (Hy : draw_y s st1 = draw_y s st) by (unfold draw_y; by rewrite Hhalf).
  destruct (x_draw_xwidget_glyph_string_stable s p st1) as (st2 & Hrun & Hrest).
  - exact Hview.
  - rewrite Htype, Hhost. exact Hsize.
  - rewrite Hy, Hhost. exact Hplaced.
  - rewrite Hy. exact Hyfits.
  - rewrite Hy, Hhost. exact Hclip_fits.
  - rewrite Hy, Hhost. exact Hxc.
  - rewrite Hy, Hhost. exact Hyc.
  - exists p, st2. split; [|split; [exact Hrun|exact Hrest]].
    rewrite xwidget_view_lookup_pure, Hview. reflexivity.
Qed.

Lemma draw_twice_witness :
  x_draw_xwidget_glyph_string sample_glyph_string webkit_widget = Normal tt drawn_widget
  /\ Z.quot (xw_height (xwidgets drawn_widget 0)) 2
     = Z.quot (xw_height (xwidgets webkit_widget 0)) 2
  /\ exists p st2,
       x_draw_xwidget_glyph_string sample_glyph_string drawn_widget = Normal tt st2
       /\ gtk_log st2 = gtk_log drawn_widget ++ queue_draws (xwidget_views drawn_widget p).
Proof.
  assert (Hdraw : x_draw_xwidget_glyph_string sample_glyph_string webkit_widget
                  = Normal tt drawn_widget) by (vm_compute; reflexivity).
  assert (Hhalf : Z.quot (xw_height (xwidgets drawn_widget (gs_xwidget sample_glyph_string))) 2
                  = Z.quot (xw_height (xwidgets webkit_widget
                                         (gs_xwidget sample_glyph_string))) 2)
    by (vm_compute; reflexivity).
  split; [exact Hdraw|]. split; [exact Hhalf|].
  destruct (draw_twice sample_glyph_string webkit_widget drawn_widget Hdraw Hhalf)
    as (p & st2 & _ & Hrun & Hlog & _).
  exists p, st2. split; [exact Hrun|exact Hlog].
Defined.

(** C3 as stated fails.  The widget, 200 pixels high, has a view in its
    window; the window shrinks to a text area 100 pixels high.  The first
    draw resizes the model to that height; the second draw, with the same
    glyph string, computes another origin from the new height and moves
    and reclips the view. *)
Lemma draw_twice_moves :
  let st1 := run (x_draw_xwidget_glyph_string sample_glyph_string) shrunk_window in
  let st2 := run (x_draw_xwidget_glyph_string sample_glyph_string) st1 in
  returned (xwidget_view_lookup 0 0 shrunk_window) = Some (Some 0%nat)
  /\ returned (x_draw_xwidget_glyph_string sample_glyph_string shrunk_window) = Some tt
  /\ returned (x_draw_xwidget_glyph_string sample_glyph_string st1) = Some tt
  /\ gtk_log st2
     = gtk_log st1
       ++ [gtk_fixed_move (FrameWidget 0) (GtkFixed 0) 50 110;
           gtk_widget_set_size_request (GtkFixed 0) 260 0;
           gtk_fixed_move (GtkFixed 0) (GtkDrawingArea 0) 0 0;
           gtk_widget_queue_draw (GtkFixed 0);
           gtk_widget_queue_draw (GtkDrawingArea 0)].
Proof. vm_compute. repeat split; reflexivity. Qed.

(** ** Visibility tracking *)

Lemma set_xwidget_views_same (st : emacs) : set_xwidget_views (xwidget_views st) st = st.
Proof. by destruct st. Qed.

Lemma for_each_app {A} (l1 l2 : list A) (body : A -> M unit) (st : emacs) :
  for_each (l1 ++ l2) body st = (let* _ := for_each l1 body in for_each l2 body) st.
Proof.
  revert st. induction l1 as [|a l1 IH]; intros st; [reflexivity|].
  cbn [app for_each]. unfold bind in *.
  destruct (body a st) as [u st'| |]; [apply IH|reflexivity|reflexivity].
Qed.

(** The nested loops of the scan visit [matrix_glyphs]. *)
Lemma scan_matrix (f : glyph -> M unit) (matrix : glyph_matrix) (st : emacs) :
  for_each (rows matrix)
    (fun row => when (enabled_p row)
                  (for_each (glyphs row) (fun area => for_each area f))) st
  = for_each (matrix_glyphs matrix) f st.
Proof.
  unfold matrix_glyphs. revert st.
  induction (rows matrix) as [|row rs IH]; intros st; [reflexivity|].
  cbn [for_each flat_map]. rewrite for_each_app. unfold bind.
  assert (Hrow : forall st0,
             when (enabled_p row)
               (for_each (glyphs row) (fun area => for_each area f)) st0
             = for_each (if enabled_p row then concat (glyphs row) else []) f st0).
  { unfold when. destruct (enabled_p row); [|reflexivity].
    induction (glyphs row) as [|area areas IHa]; intros st0; [reflexivity|].
    cbn [for_each concat]. rewrite for_each_app. unfold bind.
    destruct (for_each area f st0); [apply IHa|reflexivity|reflexivity]. }
  rewrite Hrow. destruct (for_each _ f st); [apply IH|reflexivity|reflexivity].
Qed.

Lemma elem_of_matrix_glyphs (matrix : glyph_matrix) (g : glyph) :
  g ∈ matrix_glyphs matrix
  <-> exists row area,
        row ∈ rows matrix /\ enabled_p row = true /\ area ∈ glyphs row /\ g ∈ area.
Proof.
  unfold matrix_glyphs. rewrite !list_elem_of_In, in_flat_map. split.
  - intros (row & Hrow & Hg). destruct (enabled_p row) eqn:Hen; [|by destruct Hg].
    apply in_concat in Hg as (area & Harea & Hg).
    exists row, area. rewrite !list_elem_of_In. auto.
  - intros (row & area & Hrow & Hen & Harea & Hg). exists row.
    rewrite list_elem_of_In in Hrow. split; [exact Hrow|].
    rewrite Hen. apply in_concat. exists area. rewrite <- !list_elem_of_In. auto.
Qed.

(** *** The reset of the flags *)

Lemma start_loop_pure (l : list Lisp_Object) (st : emacs) :
  for_each l (fun o =>
    if XWIDGET_VIEW_P o then
      let* p := XXWIDGET_VIEW o in
      let* xv := get_xwidget_view p in
      put_xwidget_view p (set_redisplayed false xv)
    else ret tt) st
  = Normal tt (set_xwidget_views (reset_redisplayed l (xwidget_views st)) st).
Proof.
  revert st. induction l as [|o l IH]; intros st.
  - cbn. by rewrite set_xwidget_views_same.
  - cbn [for_each reset_redisplayed]. unfold bind at 1.
    destruct o; cbn -[insert]; rewrite IH; reflexivity.
Qed.

Lemma registered_spec (q : nat) (l : list Lisp_Object) :
  registered q l = true <-> XWidgetView q ∈ l.
Proof.
  unfold registered. rewrite existsb_exists, list_elem_of_In. split.
  - intros (o & Hin & Heq). destruct o; try discriminate Heq.
    cbn in Heq. apply Nat.eqb_eq in Heq as ->. exact Hin.
  - intros Hin. exists (XWidgetView q). split; [exact Hin|]. apply Nat.eqb_refl.
Qed.

Lemma reset_redisplayed_lookup (l : list Lisp_Object) (h : nat -> xwidget_view) (q : nat) :
  reset_redisplayed l h q
  = if registered q l then set_redisplayed false (h q) else h q.
Proof.
  revert h. induction l as [|o l IH]; intros h; [reflexivity|].
  cbn [reset_redisplayed registered existsb]. fold (registered q l). rewrite IH.
  destruct o; cbn [EQ orb]; try reflexivity.
  destruct (Nat.eqb_spec q p) as [->|Hne]; cbn [orb].
  - rewrite fn_lookup_insert. by destruct (registered p l).
  - by rewrite fn_lookup_insert_ne by congruence.
Qed.

(** *** The scan *)

Lemma touch_all_lookup (qs : list nat) (h : nat -> xwidget_view) (q : nat) :
  touch_all qs h q = if bool_decide (q ∈ qs) then set_redisplayed true (h q) else h q.
Proof.
  revert h. induction qs as [|p qs IH]; intros h; [reflexivity|].
  cbn [touch_all]. rewrite IH.
  destruct (decide (p = q)) as [->|Hne].
  - rewrite fn_lookup_insert, (bool_decide_eq_true_2 (_ ∈ _ :: qs)) by left.
    by destruct (bool_decide (q ∈ qs)).
  - assert (Hmem : bool_decide (q ∈ p :: qs) = bool_decide (q ∈ qs)).
    { apply bool_decide_ext. rewrite elem_of_cons.
      split; [intros [?|?]; [congruence|assumption] | auto]. }
    rewrite Hmem, fn_lookup_insert_ne by congruence. reflexivity.
Qed.

Lemma touch_glyph_pure (w : nat) (g : glyph) (st : emacs) :
  glyph_resolves (xwidget_views st) (Vxwidget_view_list st) w g ->
  touch_glyph w g st
  = Normal tt
      (set_xwidget_views
         (touch_all (touched_views (xwidget_views st) (Vxwidget_view_list st) w [g])
                    (xwidget_views st)) st).
Proof.
  intros Hres.
  destruct g; try (cbn; unfold ret; by rewrite set_xwidget_views_same).
  destruct Hres as [q Hq].
  cbn [touched_views]. rewrite Hq. cbn [touch_all].
  cbn [glyph_view] in Hq.
  unfold touch_glyph, bind. rewrite xwidget_view_lookup_pure.
  destruct (view_of _ _ _ _) as [[q'|]|]; try discriminate.
  injection Hq as ->. reflexivity.
Qed.

Lemma scan_pure (w : nat) (gs : list glyph) (h0 : nat -> xwidget_view) (st : emacs) :
  (forall q, xv_model (xwidget_views st q) = xv_model (h0 q)
             /\ xv_w (xwidget_views st q) = xv_w (h0 q)) ->
  Forall (glyph_resolves h0 (Vxwidget_view_list st) w) gs ->
  for_each gs (touch_glyph w) st
  = Normal tt
      (set_xwidget_views
         (touch_all (touched_views h0 (Vxwidget_view_list st) w gs) (xwidget_views st)) st).
Proof.
  revert st. induction gs as [|g gs IH]; intros st Hsame Hres.
  - cbn. by rewrite set_xwidget_views_same.
  - apply Forall_cons in Hres as [Hg Hgs].
    assert (Hview : forall g', glyph_view (xwidget_views st) (Vxwidget_view_list st) w g'
                               = glyph_view h0 (Vxwidget_view_list st) w g').
    { intros g'. destruct g'; try reflexivity. cbn. by rewrite (view_of_ext h0). }
    cbn [for_each]. unfold bind. rewrite touch_glyph_pure.
    2:{ destruct g; [exact I..|]. destruct Hg as [q Hq]. exists q. by rewrite Hview. }
    rewrite IH.
    + cbn [touched_views]. rewrite Hview.
      destruct (glyph_view h0 (Vxwidget_view_list st) w g); reflexivity.
    + intros q. cbn -[insert]. rewrite touch_all_lookup.
      destruct (bool_decide _); [|apply Hsame]. cbn. apply Hsame.
    + exact Hgs.
Qed.

(** *** The last loop *)

Lemma end_loop_pure (w : nat) (l : list Lisp_Object) (st : emacs) :
  for_each l (fun o =>
    if XWIDGET_VIEW_P o then
      let* p := XXWIDGET_VIEW o in
      let* xv := get_xwidget_view p in
      if EQ (xv_w xv) (Window w) then
        if xwidget_touched xv then xwidget_show_view p else xwidget_hide_view p
      else ret tt
    else ret tt) st
  = Normal tt
      (set_gtk_log (snd (reconcile w l (xwidget_views st) (gtk_log st)))
         (set_xwidget_views (fst (reconcile w l (xwidget_views st) (gtk_log st))) st)).
Proof.
  revert st. induction l as [|o l IH]; intros st.
  - cbn. by destruct st.
  - cbn [for_each reconcile]. unfold bind at 1.
    destruct o; cbn -[insert]; try (rewrite IH; reflexivity).
    unfold xwidget_touched, xwidget_show_view, xwidget_hide_view, bind, get_xwidget_view,
      put_xwidget_view, gets, modify, gtk, ret.
    destruct (EQ (xv_w (xwidget_views st p)) (Window w)); cbn -[insert];
      [|rewrite IH; reflexivity].
    destruct (xv_redisplayed (xwidget_views st p)); cbn -[insert];
      rewrite IH; cbn -[insert]; rewrite <- ?app_assoc; reflexivity.
Qed.

Lemma reconcile_calls_hidden (w p : nat) (b : bool) (h : nat -> xwidget_view)
    (o : Lisp_Object) :
  reconcile_calls w (<[p := set_hidden b (h p)]> h) o = reconcile_calls w h o.
Proof.
  destruct o; try reflexivity. cbn -[insert].
  destruct (decide (p0 = p)) as [->|Hne];
    [rewrite fn_lookup_insert | rewrite fn_lookup_insert_ne by congruence]; reflexivity.
Qed.

Lemma reconcile_log (w : nat) (l : list Lisp_Object) (h : nat -> xwidget_view)
    (log : list gtk_call) :
  snd (reconcile w l h log) = log ++ flat_map (reconcile_calls w h) l.
Proof.
  revert h log. induction l as [|o l IH]; intros h log; cbn [reconcile flat_map].
  - by rewrite app_nil_r.
  - destruct o; cbn [reconcile_calls]; try apply IH.
    destruct (EQ (xv_w (h p)) (Window w)); [|apply IH].
    destruct (xv_redisplayed (h p)); rewrite IH, <- app_assoc; do 2 f_equal;
      apply flat_map_ext; intros o; apply reconcile_calls_hidden.
Qed.

Lemma reconcile_lookup (w : nat) (l : list Lisp_Object) (h : nat -> xwidget_view)
    (log : list gtk_call) (q : nat) :
  fst (reconcile w l h log) q
  = if registered q l && EQ (xv_w (h q)) (Window w)
    then set_hidden (negb (xv_redisplayed (h q))) (h q)
    else h q.
Proof.
  revert h log. induction l as [|o l IH]; intros h log; [reflexivity|].
  cbn [reconcile registered existsb]. fold (registered q l).
  destruct o; cbn [EQ orb]; try apply IH.
  destruct (Nat.eqb_spec q p) as [->|Hne]; cbn [orb andb].
  - destruct (EQ (xv_w (h p)) (Window w)) eqn:Hw.
    + destruct (xv_redisplayed (h p)) eqn:Hred; rewrite IH, fn_lookup_insert; cbn;
        rewrite Hw, Hred; by destruct (registered p l).
    + rewrite IH, Hw. by rewrite andb_false_r.
  - destruct (EQ (xv_w (h p)) (Window w)); [|apply IH].
    destruct (xv_redisplayed (h p)); rewrite IH, fn_lookup_insert_ne by congruence;
      reflexivity.
Qed.

Lemma flags_only_refl (v : xwidget_view) : flags_only v v.
Proof. unfold flags_only. by destruct v. Qed.

Lemma elem_of_touched_views h registry w gs q :
  q ∈ touched_views h registry w gs
  <-> exists g, g ∈ gs /\ glyph_view h registry w g = Some q.
Proof.
  induction gs as [|g gs IH]; cbn [touched_views].
  - split; [intros H; by apply elem_of_nil in H|].
    intros (g & Hg & _). by apply elem_of_nil in Hg.
  - destruct (glyph_view h registry w g) as [q'|] eqn:Hg.
    + rewrite elem_of_cons, IH. split.
      * intros [->|(g' & Hin & Hv)]; [exists g; split; [left|exact Hg]|].
        exists g'. split; [by right|exact Hv].
      * intros (g' & Hin & Hv). apply elem_of_cons in Hin as [->|Hin].
        -- left. congruence.
        -- right. eauto.
    + rewrite IH. split.
      * intros (g' & Hin & Hv). exists g'. split; [by right|exact Hv].
      * intros (g' & Hin & Hv). apply elem_of_cons in Hin as [->|Hin]; [congruence|eauto].
Qed.

Lemma glyph_encountered_touched h registry w matrix q :
  glyph_encountered h registry w matrix q
  <-> q ∈ touched_views h registry w (matrix_glyphs matrix).
Proof.
  rewrite elem_of_touched_views. unfold glyph_encountered. split.
  - intros (row & area & xw & Hrow & Hen & Harea & Hg & Hv).
    exists (XWIDGET_GLYPH xw). split.
    + apply elem_of_matrix_glyphs. eauto 6.
    + cbn. by rewrite Hv.
  - intros (g & Hg & Hv). apply elem_of_matrix_glyphs in Hg
      as (row & area & Hrow & Hen & Harea & Hg).
    destruct g; try discriminate Hv. cbn in Hv.
    exists row, area, xwidget0. repeat (split; [assumption|]).
    destruct (view_of h registry xwidget0 w) as [[q'|]|]; congruence.
Qed.

(** The heap after the scan, view by view. *)
Lemma scanned_spec h registry w gs q :
  flags_only (h q) (scanned h registry w gs q)
  /\ xv_hidden (scanned h registry w gs q) = xv_hidden (h q)
  /\ (registered q registry = true ->
      xv_redisplayed (scanned h registry w gs q)
      = bool_decide (q ∈ touched_views h registry w gs)).
Proof.
  unfold scanned. rewrite touch_all_lookup, reset_redisplayed_lookup.
  destruct (bool_decide (q ∈ touched_views h registry w gs)), (registered q registry);
    cbn; repeat split; try reflexivity; try discriminate; apply flags_only_refl.
Qed.

Lemma EQ_Window (o : Lisp_Object) (w : nat) : EQ o (Window w) = true <-> o = Window w.
Proof.
  destruct o; cbn; try (split; [discriminate|congruence]).
  rewrite Nat.eqb_eq. split; congruence.
Qed.

Lemma flat_map_ext_in {A B} (f g : A -> list B) (l : list A) :
  (forall a, a ∈ l -> f a = g a) -> flat_map f l = flat_map g l.
Proof.
  induction l as [|a l IH]; intros Hfg; [reflexivity|].
  cbn. rewrite (Hfg a) by left. rewrite IH; [reflexivity|].
  intros b Hb. apply Hfg. by right.
Qed.

(** The state that [xwidget_end_redisplay] returns, view by view. *)
Lemma xwidget_end_redisplay_pure (w : nat) (matrix : glyph_matrix) (st : emacs) :
  let h := xwidget_views st in
  let registry := Vxwidget_view_list st in
  let hB := scanned h registry w (matrix_glyphs matrix) in
  (forall g, g ∈ matrix_glyphs matrix -> glyph_resolves h registry w g) ->
  exists st',
    xwidget_end_redisplay w matrix st = Normal tt st'
    /\ Vxwidget_view_list st' = registry
    /\ (forall q,
          xwidget_views st' q
          = if registered q registry && EQ (xv_w (hB q)) (Window w)
            then set_hidden (negb (xv_redisplayed (hB q))) (hB q)
            else hB q)
    /\ gtk_log st' = gtk_log st ++ flat_map (reconcile_calls w hB) registry.
Proof.
  intros h registry hB Hres.
  unfold xwidget_end_redisplay, xwidget_start_redisplay.
  unfold bind at 1. unfold bind at 1. unfold gets at 1.
  rewrite start_loop_pure. fold h registry.
  unfold bind at 1. rewrite scan_matrix.
  rewrite (scan_pure w (matrix_glyphs matrix) h).
  - unfold bind at 1. unfold gets at 1. rewrite end_loop_pure.
    eexists. split; [reflexivity|].
    cbn [Vxwidget_view_list set_gtk_log set_xwidget_views xwidget_views gtk_log].
    fold h registry. fold (scanned h registry w (matrix_glyphs matrix)). fold hB.
    split; [reflexivity|]. split.
    + intros q. apply reconcile_lookup.
    + apply reconcile_log.
  - intros q. cbn [xwidget_views set_xwidget_views]. fold h registry.
    rewrite reset_redisplayed_lookup. by destruct (registered q registry).
  - apply Forall_forall. exact Hres.
Qed.

(** C2.  [xwidget_end_redisplay] for the window [w] over a matrix whose
    xwidget glyphs all have a view returns, leaves the view registry as
    it was, and changes nothing in a view but its two flags.  Every
    registered view of [w] ends up with hidden = false if and only if
    some enabled row of the matrix holds an xwidget glyph resolving to
    it, and hidden = true otherwise; views of other windows keep their
    hidden flag.  The toolkit is told, for each registered view of [w]
    in registry order, to show a view that is not hidden and move it to
    its stored x + clip_left, y + clip_top, and to move a hidden one to
    (10000, 10000); no view is destroyed. *)
Theorem xwidget_end_redisplay_spec (w : nat) (matrix : glyph_matrix) (st : emacs) :
  let h := xwidget_views st in
  let registry := Vxwidget_view_list st in
  (forall g, g ∈ matrix_glyphs matrix -> glyph_resolves h registry w g) ->
  exists st',
    xwidget_end_redisplay w matrix st = Normal tt st'
    /\ Vxwidget_view_list st' = registry
    /\ (forall q, flags_only (h q) (xwidget_views st' q))
    /\ (forall q, XWidgetView q ∈ registry -> xv_w (h q) = Window w ->
          (xv_hidden (xwidget_views st' q) = false
           <-> glyph_encountered h registry w matrix q)
          /\ (xv_hidden (xwidget_views st' q) = true
              <-> ~ glyph_encountered h registry w matrix q))
    /\ (forall q, xv_w (h q) <> Window w ->
          xv_hidden (xwidget_views st' q) = xv_hidden (h q))
    /\ gtk_log st'
       = gtk_log st ++ flat_map (visibility_calls w h (xwidget_views st')) registry.
Proof.
  intros h registry Hres.
  destruct (xwidget_end_redisplay_pure w matrix st Hres) as (st' & Hrun & Hreg & Hv & Hlog).
  fold h registry in Hv, Hlog.
  set (hB := scanned h registry w (matrix_glyphs matrix)) in *.
  assert (HB : forall q,
             flags_only (h q) (hB q) /\ xv_hidden (hB q) = xv_hidden (h q)
             /\ (registered q registry = true ->
                 xv_redisplayed (hB q)
                 = bool_decide (q ∈ touched_views h registry w (matrix_glyphs matrix))))
    by (intros q; apply scanned_spec).
  assert (Hw : forall q, xv_w (hB q) = xv_w (h q)).
  { intros q. destruct (HB q) as (Hf & _). unfold flags_only in Hf. by rewrite Hf. }
  exists st'. split; [exact Hrun|]. split; [exact Hreg|].
  split; [|split; [|split]].
  - intros q. rewrite Hv. destruct (HB q) as (Hf & _).
    destruct (registered q registry && EQ (xv_w (hB q)) (Window w)); [|exact Hf].
    unfold flags_only in *. rewrite Hf at 2. reflexivity.
  - intros q Hin Hwin. apply registered_spec in Hin.
    destruct (HB q) as (_ & _ & Hred). specialize (Hred Hin).
    rewrite Hv, Hin, Hw, Hwin, EQ_refl_Window. cbn. rewrite Hred.
    rewrite !glyph_encountered_touched.
    destruct (bool_decide_reflect (q ∈ touched_views h registry w (matrix_glyphs matrix)));
      cbn; split; split; intros; try discriminate; try contradiction; auto.
  - intros q Hother. rewrite Hv, Hw.
    destruct (EQ (xv_w (h q)) (Window w)) eqn:Heq.
    + apply EQ_Window in Heq. contradiction.
    + rewrite andb_false_r. apply HB.
  - rewrite Hlog. f_equal. apply flat_map_ext_in. intros o Ho.
    destruct o; try reflexivity. apply registered_spec in Ho.
    cbn [reconcile_calls visibility_calls]. rewrite Hv, Ho, Hw. cbn [andb].
    destruct (HB p) as (Hf & _ & _).
    assert (Hshow : show_calls (hB p) = show_calls (h p))
      by (unfold flags_only in Hf; by rewrite Hf).
    assert (Hhide : hide_calls (hB p) = hide_calls (h p))
      by (unfold flags_only in Hf; by rewrite Hf).
    destruct (EQ (xv_w (h p)) (Window w)); [|reflexivity].
    cbn. destruct (xv_redisplayed (hB p)); cbn; congruence.
Qed.

Lemma xwidget_end_redisplay_spec_witness :
  (forall g, g ∈ matrix_glyphs sample_matrix ->
             glyph_resolves (xwidget_views two_widgets_drawn)
               (Vxwidget_view_list two_widgets_drawn) 0 g)
  /\ exists st',
       xwidget_end_redisplay 0 sample_matrix two_widgets_drawn = Normal tt st'
       /\ Vxwidget_view_list st' = Vxwidget_view_list two_widgets_drawn.
Proof.
  assert (Hres : forall g, g ∈ matrix_glyphs sample_matrix ->
                           glyph_resolves (xwidget_views two_widgets_drawn)
                             (Vxwidget_view_list two_widgets_drawn) 0 g).
  { apply Forall_forall. repeat constructor. exists 0%nat. vm_compute. reflexivity. }
  split; [exact Hres|].
  destruct (xwidget_end_redisplay_spec 0 sample_matrix two_widgets_drawn Hres)
    as (st' & Hrun & Hreg & _).
  exists st'. split; [exact Hrun|exact Hreg].
Defined.

(** The two views of window 0, before and after a redisplay that shows
    the first widget only. *)
Example xwidget_end_redisplay_sample :
  let st' := run (xwidget_end_redisplay 0 sample_matrix) two_widgets_drawn in
  Vxwidget_view_list two_widgets_drawn = [XWidgetView 1; XWidgetView 0]
  /\ xv_hidden (xwidget_views st' 0) = false
  /\ xv_hidden (xwidget_views st' 1) = true
  /\ gtk_log st'
     = gtk_log two_widgets_drawn
       ++ [gtk_fixed_move (FrameWidget 0) (GtkFixed 1) 10000 10000;
           gtk_widget_show (GtkFixed 0);
           gtk_fixed_move (FrameWidget 0) (GtkFixed 0) 50 60].
Proof. vm_compute. repeat split; reflexivity. Qed.

Lemma kill_buffer_xwidgets_spec_witness :
  (forall p, XWidget p ∈ Vxwidget_list (requests 2 webkit_widget) ->
             callback_table_ok (xwidgets (requests 2 webkit_widget) p))
  /\ exists st',
       kill_buffer_xwidgets (Buffer 0) (requests 2 webkit_widget) = Normal tt st'
       /\ Fget_buffer_xwidgets (Buffer 0) st' = Normal [] st'.
Proof.
  assert (Hok : forall p, XWidget p ∈ Vxwidget_list (requests 2 webkit_widget) ->
                          callback_table_ok (xwidgets (requests 2 webkit_widget) p)).
  { intros p Hp.
    assert (Hlist : Vxwidget_list (requests 2 webkit_widget) = [XWidget 0])
      by (vm_compute; reflexivity).
    rewrite Hlist in Hp. apply list_elem_of_singleton in Hp. injection Hp as ->.
    right. eexists. vm_compute. reflexivity. }
  split; [exact Hok|].
  destruct (kill_buffer_xwidgets_spec (requests 2 webkit_widget) 0 Hok)
    as (st' & Hrun & Hget & _).
  exists st'. split; [exact Hrun|exact Hget].
Defined.

(** C6 as stated fails: after the buffer of a widget with two pending
    scripts is killed, get-buffer-xwidgets is empty and the two script
    texts are freed, but xwidget-info on the handle raises nothing: it
    returns the properties of the widget. *)
Lemma xwidget_info_after_kill :
  let st' := run (kill_buffer_xwidgets (Buffer 0)) (requests 2 webkit_widget) in
  returned (Fget_buffer_xwidgets (Buffer 0) st') = Some []
  /\ freed st' = [MintPtr "f(0)"; MintPtr "f(1)"]
  /\ signalled (Fxwidget_info (XWidget 0) st') = false
  /\ returned (Fxwidget_info (XWidget 0) st')
     = Some (Vector [Symbol "webkit"; String "browser"; Fixnum 300; Fixnum 200]).
Proof. vm_compute. repeat split; reflexivity. Qed.
(** X6.  set-xwidget-plist stores the list and returns it, xwidget-plist
    reads it back, and the widget keeps its other members; an argument
    that is neither nil nor a cons signals wrong-type-argument and
    changes nothing. *)
Theorem set_xwidget_plist_roundtrip (st : emacs) (p : nat) (plist : Lisp_Object) :
  let st' := set_xwidgets (<[p := set_plist plist (xwidgets st p)]> (xwidgets st)) st in
  (listp plist = true ->
   Fset_xwidget_plist (XWidget p) plist st = Normal plist st'
   /\ Fxwidget_plist (XWidget p) st' = Normal plist st'
   /\ returned (Fxwidget_info (XWidget p) st') = returned (Fxwidget_info (XWidget p) st)
   /\ returned (Fxwidget_buffer (XWidget p) st') = returned (Fxwidget_buffer (XWidget p) st)
   /\ forall q, q <> p -> xwidgets st' q = xwidgets st q)
  /\ (listp plist = false ->
      Fset_xwidget_plist (XWidget p) plist st
      = Signal (wrong_type_argument "listp" plist) st).
Proof.
  intros st'. split; intros Hl.
  - assert (Hset : Fset_xwidget_plist (XWidget p) plist st = Normal plist st')
      by (destruct plist; try discriminate Hl; reflexivity).
    split; [exact Hset|].
    unfold Fxwidget_plist, Fxwidget_info, Fxwidget_buffer, st'.
    cbn -[insert]. rewrite !fn_lookup_insert. cbn.
    repeat split; try reflexivity.
    intros q Hq. apply fn_lookup_insert_ne. congruence.
  - destruct plist; try discriminate Hl; reflexivity.
Qed.

Lemma set_xwidget_plist_roundtrip_witness :
  listp (Cons (Symbol ":mode") (Cons (Symbol "browse") Qnil)) = true
  /\ Fxwidget_plist (XWidget 0)
       (set_xwidgets
          (<[0%nat := set_plist (Cons (Symbol ":mode") (Cons (Symbol "browse") Qnil))
                        (xwidgets webkit_widget 0)]> (xwidgets webkit_widget))
          webkit_widget)
     = Normal (Cons (Symbol ":mode") (Cons (Symbol "browse") Qnil))
         (set_xwidgets
            (<[0%nat := set_plist (Cons (Symbol ":mode") (Cons (Symbol "browse") Qnil))
                          (xwidgets webkit_widget 0)]> (xwidgets webkit_widget))
            webkit_widget).
Proof.
  split; [reflexivity|].
  exact (proj1 (proj2 (proj1 (set_xwidget_plist_roundtrip webkit_widget 0
                         (Cons (Symbol ":mode") (Cons (Symbol "browse") Qnil)))
                         eq_refl))).
Defined.

(** X5.  The accessors of a widget and of a view only read: on an object for
    which [xwidgetp], or [xwidget-view-p], returns t they return and
    leave the editor as it was; on any other object they signal
    wrong-type-argument with that predicate and leave the editor as it
    was.  No object satisfies both predicates. *)
Theorem accessors_read_only :
  reads_only Fxwidgetp "xwidgetp" Fxwidget_info
  /\ reads_only Fxwidgetp "xwidgetp" Fxwidget_plist
  /\ reads_only Fxwidgetp "xwidgetp" Fxwidget_buffer
  /\ reads_only Fxwidgetp "xwidgetp" Fxwidget_query_on_exit_flag
  /\ reads_only Fxwidget_view_p "xwidget-view-p" Fxwidget_view_info
  /\ reads_only Fxwidget_view_p "xwidget-view-p" Fxwidget_view_model
  /\ reads_only Fxwidget_view_p "xwidget-view-p" Fxwidget_view_window
  /\ forall o, Fxwidgetp o = Qnil \/ Fxwidget_view_p o = Qnil.
Proof.
  repeat split; try (intros o st; destruct o; cbn; try reflexivity; eexists; reflexivity).
  intros o. destruct o; cbn; auto.
Qed.
Lemma bind_Signal_inv {A B} (c : M A) (k : A -> M B) (st st' : emacs) (e : Lisp_error) :
  bind c k st = Signal e st' ->
  c st = Signal e st' \/ exists a st1, c st = Normal a st1 /\ k a st1 = Signal e st'.
Proof.
  unfold bind. destruct (c st) as [a st1|e1 st1|]; intros H; [right|left|discriminate].
  - by exists a, st1.
  - by injection H as -> ->.
Qed.

Lemma bind_Normal {A B} (c : M A) (k : A -> M B) (st st1 : emacs) (a : A) :
  c st = Normal a st1 -> bind c k st = k a st1.
Proof. intros H. unfold bind. by rewrite H. Qed.

Lemma bind_Signal {A B} (c : M A) (k : A -> M B) (st st1 : emacs) (e : Lisp_error) :
  c st = Signal e st1 -> bind c k st = Signal e st1.
Proof. intros H. unfold bind. by rewrite H. Qed.

Lemma same_editor_refl (st : emacs) : same_editor st st.
Proof. repeat split. Qed.

Lemma make_xwidget_webkit_same_editor (p : nat) (w h : Z) (st : emacs) :
  exists st', make_xwidget_webkit p w h st = Normal tt st' /\ same_editor st st'.
Proof.
  unfold make_xwidget_webkit, bind, gets, when.
  destruct (webkit_sandbox_enabled (host st)); cbn;
    (eexists; split; [reflexivity|repeat split]).
Qed.

Lemma CHECK_SYMBOL_symbolp (x : Lisp_Object) (st : emacs) :
  CHECK_SYMBOL x st
  = if symbolp x then Normal tt st else Signal (wrong_type_argument "symbolp" x) st.
Proof. by destruct x. Qed.

Lemma CHECK_FIXNAT_fixnatp (x : Lisp_Object) (st : emacs) :
  CHECK_FIXNAT x st
  = if fixnatp x then Normal tt st else Signal (wrong_type_argument "wholenump" x) st.
Proof. destruct x; try reflexivity. cbn. by destruct (0 <=? n). Qed.

Lemma designated_buffer_found (buffer b : Lisp_Object) (st : emacs) :
  designated_buffer (host st) buffer = Some b ->
  (if NILP buffer then Fcurrent_buffer else Fget_buffer_create buffer) st = Normal b st.
Proof.
  destruct buffer; try discriminate; cbn.
  - by intros [= <-].
  - unfold Fget_buffer_create, bind, Fget_buffer, gets.
    destruct (assoc_buffer s (buffer_names (host st))); [|discriminate].
    by intros [= <-].
  - by intros [= <-].
Qed.

(** X1.  make-xwidget, when its checks pass, returns a widget at a fresh
    address and puts it in front of [Vxwidget_list]; the widget holds the
    arguments (a size above [INT_MAX] reduced to [int]), an empty plist
    and an empty callback table; no other widget and no view changes; a
    type other than [webkit] gets no toolkit object and causes no toolkit
    call.  xwidget-info and xwidget-buffer then read the arguments back. *)
Theorem make_xwidget_registers
    (type title arguments buffer b : Lisp_Object) (w h : Z) (st : emacs) :
  xg_gtk_initialized (host st) = true ->
  symbolp type = true ->
  0 <= w -> 0 <= h ->
  designated_buffer (host st) buffer = Some b ->
  let p := next_xwidget st in
  exists st',
    Fmake_xwidget type title (Fixnum w) (Fixnum h) arguments buffer st
    = Normal (XWidget p) st'
    /\ Vxwidget_list st' = XWidget p :: Vxwidget_list st
    /\ next_xwidget st' = S p
    /\ xwidgets st' p = made_xwidget p type title b (wrap_int32 w) (wrap_int32 h)
    /\ (forall q, q <> p -> xwidgets st' q = xwidgets st q)
    /\ xwidget_views st' = xwidget_views st
    /\ Vxwidget_view_list st' = Vxwidget_view_list st
    /\ kbd_buffer st' = kbd_buffer st
    /\ (EQ type Qwebkit = false -> gtk_log st' = gtk_log st)
    /\ Fxwidget_info (XWidget p) st'
       = Normal (Vector [type; title; Fixnum (wrap_int32 w); Fixnum (wrap_int32 h)]) st'
    /\ Fxwidget_buffer (XWidget p) st' = Normal b st'
    /\ Fxwidget_plist (XWidget p) st' = Normal Qnil st'.
Proof.
  intros Hinit Hsym Hw Hh Hbuf p.
  set (st1 := set_next_xwidget (S p)
                (set_xwidgets
                   (<[p := {| xw_type := Qnil; xw_plist := Qnil; xw_title := Qnil;
                              xw_buffer := Qnil; xw_script_callbacks := Qnil;
                              xw_height := xw_height (xwidgets st p);
                              xw_width := xw_width (xwidgets st p);
                              xw_kill_without_query := xw_kill_without_query (xwidgets st p);
                              xw_widget_osr := xw_widget_osr (xwidgets st p);
                              xw_widgetwindow_osr := xw_widgetwindow_osr (xwidgets st p) |}]>
                      (xwidgets st)) st)).
  set (st2 := set_xwidgets
                (<[p := made_xwidget p type title b (wrap_int32 w) (wrap_int32 h)]>
                   (xwidgets (set_Vxwidget_list (XWidget p :: Vxwidget_list st1) st1)))
                (set_Vxwidget_list (XWidget p :: Vxwidget_list st1) st1)).
  assert (Hrun : Fmake_xwidget type title (Fixnum w) (Fixnum h) arguments buffer st
                 = (let* _ := when (EQ type Qwebkit)
                                (make_xwidget_webkit p (wrap_int32 w) (wrap_int32 h)) in
                    ret (XWidget p)) st2).
  { unfold Fmake_xwidget.
    unfold bind at 1. unfold gets at 1. rewrite Hinit. cbn [negb].
    rewrite (bind_Normal _ _ st st tt); [|by rewrite CHECK_SYMBOL_symbolp, Hsym].
    rewrite (bind_Normal _ _ st st tt);
      [|rewrite CHECK_FIXNAT_fixnatp; cbn; by destruct (Z.leb_spec 0 w); [|lia]].
    rewrite (bind_Normal _ _ st st tt);
      [|rewrite CHECK_FIXNAT_fixnatp; cbn; by destruct (Z.leb_spec 0 h); [|lia]].
    rewrite (bind_Normal _ _ st st1 p); [|reflexivity].
    rewrite (bind_Normal _ _ st1 st1 b); [|by apply designated_buffer_found].
    rewrite (bind_Normal _ _ st1 st1 (wrap_int32 w));
      [|unfold XFIXNAT; by destruct (Z.leb_spec 0 w); [|lia]].
    rewrite (bind_Normal _ _ st1 st1 (wrap_int32 h));
      [|unfold XFIXNAT; by destruct (Z.leb_spec 0 h); [|lia]].
    reflexivity. }
  destruct (EQ type Qwebkit) eqn:Hweb.
  - destruct (make_xwidget_webkit_same_editor p (wrap_int32 w) (wrap_int32 h) st2)
      as (st' & Hmk & Hsame).
    destruct Hsame as (Hxw & Hnx & Hxv & Hnv & Hl & Hvl & Hk & _).
    exists st'. split.
    { rewrite Hrun. cbn [when]. by rewrite (bind_Normal _ _ st2 st' tt). }
    unfold Fxwidget_info, Fxwidget_buffer, Fxwidget_plist, bind, get_xwidget, gets.
    cbn [CHECK_XWIDGET XWIDGETP XXWIDGET ret].
    rewrite Hxw, Hnx, Hxv, Hl, Hvl, Hk. unfold st2. cbn -[insert wrap_int32].
    rewrite !fn_lookup_insert. unfold made_xwidget at 2 3 4 5 6 7. cbn -[wrap_int32].
    repeat split; try reflexivity; try discriminate.
    intros q Hq. rewrite !fn_lookup_insert_ne by congruence. reflexivity.
  - exists st2. split; [by rewrite Hrun|].
    unfold Fxwidget_info, Fxwidget_buffer, Fxwidget_plist, bind, get_xwidget, gets.
    cbn [CHECK_XWIDGET XWIDGETP XXWIDGET ret].
    unfold st2. cbn -[insert wrap_int32].
    rewrite !fn_lookup_insert. unfold made_xwidget at 2 3 4 5 6 7. cbn -[wrap_int32].
    repeat split; try reflexivity.
    intros q Hq. rewrite !fn_lookup_insert_ne by congruence. reflexivity.
Qed.
Lemma make_xwidget_registers_witness :
  xg_gtk_initialized (host (startup sample_text_area)) = true
  /\ symbolp (Symbol "button") = true
  /\ designated_buffer (host (startup sample_text_area)) (String "*scratch*")
     = Some (Buffer 0)
  /\ exists st',
       Fmake_xwidget (Symbol "button") (String "ok") (Fixnum 80) (Fixnum 20) Qnil
         (String "*scratch*") (startup sample_text_area)
       = Normal (XWidget 0) st'
       /\ Vxwidget_list st' = [XWidget 0]
       /\ gtk_log st' = [].
Proof.
  split; [reflexivity|]. split; [reflexivity|]. split; [reflexivity|].
  destruct (make_xwidget_registers (Symbol "button") (String "ok") Qnil
              (String "*scratch*") (Buffer 0) 80 20 (startup sample_text_area)
              eq_refl eq_refl ltac:(lia) ltac:(lia) eq_refl)
    as (st' & Hrun & Hlist & _ & _ & _ & _ & _ & _ & Hlog & _).
  exists st'. split; [exact Hrun|]. split; [exact Hlist|].
  exact (Hlog eq_refl).
Defined.

Lemma Fget_buffer_create_signal (b : Lisp_Object) (e : Lisp_error) (st st' : emacs) :
  Fget_buffer_create b st = Signal e st' -> st' = st.
Proof.
  unfold Fget_buffer_create, bind, Fget_buffer, gets.
  destruct b; cbn; try (by intros [= _ <-]).
  destruct (assoc_buffer s (buffer_names (host st))); cbn; [discriminate|].
  destruct (String.eqb s ""); cbn; [by intros [= _ <-]|discriminate].
Qed.

Lemma Fget_buffer_create_defined (b : Lisp_Object) (st : emacs) :
  Fget_buffer_create b st <> Undefined.
Proof.
  unfold Fget_buffer_create, bind, Fget_buffer, gets.
  destruct b; cbn; try discriminate.
  destruct (assoc_buffer s (buffer_names (host st))); cbn; [discriminate|].
  destruct (String.eqb s ""); cbn; discriminate.
Qed.

Local Ltac signalled_at_once :=
  repeat split; try discriminate; intros;
  match goal with H : Signal _ _ = Signal _ _ |- _ => injection H as _ <- end;
  reflexivity.

Lemma Fmake_xwidget_checks_first
    (type title width height arguments buffer : Lisp_Object) (st : emacs) :
  Fmake_xwidget type title width height arguments buffer st
  = if negb (xg_gtk_initialized (host st))
    then Signal (error "make-xwidget: GTK has not been initialized") st
    else if negb (symbolp type) then Signal (wrong_type_argument "symbolp" type) st
    else if negb (fixnatp width) then Signal (wrong_type_argument "wholenump" width) st
    else if negb (fixnatp height) then Signal (wrong_type_argument "wholenump" height) st
    else make_xwidget_checked type title width height buffer st.
Proof.
  unfold Fmake_xwidget. unfold bind at 1. unfold gets at 1.
  destruct (xg_gtk_initialized (host st)); [|reflexivity]. cbn [negb].
  unfold bind at 1. rewrite CHECK_SYMBOL_symbolp.
  destruct (symbolp type); [|reflexivity]. cbn [negb].
  unfold bind at 1. rewrite CHECK_FIXNAT_fixnatp.
  destruct (fixnatp width); [|reflexivity]. cbn [negb].
  unfold bind at 1. rewrite CHECK_FIXNAT_fixnatp.
  destruct (fixnatp height); reflexivity.
Qed.

Lemma make_xwidget_checked_outcome (type title buffer : Lisp_Object) (w h : Z)
    (st : emacs) :
  fixnatp (Fixnum w) = true -> fixnatp (Fixnum h) = true ->
  (exists r st', make_xwidget_checked type title (Fixnum w) (Fixnum h) buffer st
                 = Normal r st')
  \/ (exists e st',
        make_xwidget_checked type title (Fixnum w) (Fixnum h) buffer st = Signal e st'
        /\ Vxwidget_list st' = Vxwidget_list st
        /\ gtk_log st' = gtk_log st
        /\ xwidget_views st' = xwidget_views st
        /\ Vxwidget_view_list st' = Vxwidget_view_list st
        /\ forall q, q <> next_xwidget st -> xwidgets st' q = xwidgets st q).
Proof.
  cbn [fixnatp]. intros Hw Hh.
  remember (make_xwidget_checked type title (Fixnum w) (Fixnum h) buffer st) as o eqn:Ho.
  unfold make_xwidget_checked, XFIXNAT in Ho. rewrite Hw, Hh in Ho.
  unfold bind at 1 in Ho. unfold allocate_xwidget in Ho.
  set (p := next_xwidget st) in *. set (st1 := set_next_xwidget _ _) in Ho.
  unfold bind at 1 in Ho.
  destruct ((if NILP buffer then Fcurrent_buffer else Fget_buffer_create buffer) st1)
    as [b st2|e st2|] eqn:Hb.
  - left. destruct (EQ type Qwebkit) eqn:Hweb.
    + cbn -[insert wrap_int32 make_xwidget_webkit] in Ho. unfold bind in Ho.
      cbn -[insert wrap_int32 make_xwidget_webkit] in Ho.
      match type of Ho with
      | context [make_xwidget_webkit ?p ?w ?h ?s] =>
          destruct (make_xwidget_webkit_same_editor p w h s) as (st' & Hmk & _);
          rewrite Hmk in Ho
      end.
      eexists _, _. exact Ho.
    + cbn -[insert wrap_int32] in Ho. unfold bind in Ho. cbn -[insert wrap_int32] in Ho.
      eexists _, _. exact Ho.
  - right. exists e, st2. split; [exact Ho|].
    assert (st2 = st1) as ->.
    { destruct (NILP buffer); [discriminate Hb|].
      by apply Fget_buffer_create_signal in Hb. }
    unfold st1. cbn -[insert]. repeat split.
    intros q Hq. apply fn_lookup_insert_ne. congruence.
  - exfalso. destruct (NILP buffer); [discriminate Hb|].
    by apply Fget_buffer_create_defined in Hb.
Qed.

(** X2.  make-xwidget checks before it builds.  Without GTK it signals an
    error; then a type that is not a symbol, a width and a height that
    are not natural numbers signal wrong-type-argument, in this order;
    each of these leaves the editor as it was.  Whenever make-xwidget
    signals, no widget has been registered, no toolkit call made and no
    existing widget touched. *)
Theorem make_xwidget_checks
    (type title width height arguments buffer : Lisp_Object) (st : emacs) :
  let o := Fmake_xwidget type title width height arguments buffer st in
  (xg_gtk_initialized (host st) = false ->
   o = Signal (error "make-xwidget: GTK has not been initialized") st)
  /\ (xg_gtk_initialized (host st) = true -> symbolp type = false ->
      o = Signal (wrong_type_argument "symbolp" type) st)
  /\ (xg_gtk_initialized (host st) = true -> symbolp type = true ->
      fixnatp width = false ->
      o = Signal (wrong_type_argument "wholenump" width) st)
  /\ (xg_gtk_initialized (host st) = true -> symbolp type = true ->
      fixnatp width = true -> fixnatp height = false ->
      o = Signal (wrong_type_argument "wholenump" height) st)
  /\ (forall e st', o = Signal e st' ->
        Vxwidget_list st' = Vxwidget_list st
        /\ gtk_log st' = gtk_log st
        /\ xwidget_views st' = xwidget_views st
        /\ Vxwidget_view_list st' = Vxwidget_view_list st
        /\ forall q, q <> next_xwidget st -> xwidgets st' q = xwidgets st q)
  /\ o <> Undefined.
Proof.
  intros o. unfold o. rewrite Fmake_xwidget_checks_first. clear o.
  destruct (xg_gtk_initialized (host st)) eqn:Hinit; cbn [negb]; [|signalled_at_once].
  destruct (symbolp type) eqn:Hsym; cbn [negb]; [|signalled_at_once].
  destruct (fixnatp width) eqn:Hw; cbn [negb]; [|signalled_at_once].
  destruct (fixnatp height) eqn:Hh; cbn [negb]; [|signalled_at_once].
  destruct width as [| | | w | | | | | | | | | |]; try discriminate Hw.
  destruct height as [| | | h | | | | | | | | | |]; try discriminate Hh.
  split; [discriminate|]. split; [discriminate|]. split; [discriminate|].
  split; [discriminate|].
  destruct (make_xwidget_checked_outcome type title buffer w h st Hw Hh)
    as [(r & st' & ->)|(e & st' & -> & Hsig)].
  - split; [intros e st'' H|]; discriminate.
  - split; [|discriminate]. intros e' st'' H. injection H as _ <-. exact Hsig.
Qed.

Lemma make_xwidget_checks_witness :
  fixnatp (Fixnum (-1)) = false
  /\ Fmake_xwidget Qwebkit (String "browser") (Fixnum (-1)) (Fixnum 200) Qnil Qnil
       (startup sample_text_area)
     = Signal (wrong_type_argument "wholenump" (Fixnum (-1))) (startup sample_text_area).
Proof.
  split; [reflexivity|].
  exact (proj1 (proj2 (proj2 (make_xwidget_checks Qwebkit (String "browser") (Fixnum (-1))
                                (Fixnum 200) Qnil Qnil (startup sample_text_area))))
           eq_refl eq_refl eq_refl).
Defined.
Lemma buffer_xwidgets_rev_filter h buffer tail acc :
  buffer_xwidgets h buffer tail acc
  = rev (filter (fun o => owned_by h buffer o = true) tail) ++ acc.
Proof.
  revert acc. induction tail as [|o tail IH]; intros acc; [reflexivity|].
  cbn [buffer_xwidgets]. rewrite IH, filter_cons.
  destruct (owned_by h buffer o) eqn:Ho.
  - rewrite decide_True by reflexivity. cbn [rev]. by rewrite <- app_assoc.
  - rewrite decide_False by discriminate. reflexivity.
Qed.

Lemma Fget_buffer_xwidgets_lists (buffer : Lisp_Object) (st : emacs) :
  Fget_buffer_xwidgets buffer st
  = match buffer with
    | Qnil => Normal [] st
    | Buffer _ =>
        Normal (rev (filter (fun o => owned_by (xwidgets st) buffer o = true)
                       (Vxwidget_list st))) st
    | String name =>
        match assoc_buffer name (buffer_names (host st)) with
        | Some b =>
            Normal (rev (filter (fun o => owned_by (xwidgets st) (Buffer b) o = true)
                           (Vxwidget_list st))) st
        | None => Normal [] st
        end
    | _ => Signal (wrong_type_argument "stringp" buffer) st
    end.
Proof.
  destruct buffer; try reflexivity.
  - unfold Fget_buffer_xwidgets. cbn [NILP]. unfold bind at 1. cbn [Fget_buffer].
    unfold gets at 1.
    destruct (assoc_buffer s (buffer_names (host st))) as [b|]; [|reflexivity].
    rewrite <- (app_nil_r (rev _)), <- buffer_xwidgets_rev_filter.
    rewrite <- (Fget_buffer_xwidgets_scan b st). reflexivity.
  - rewrite Fget_buffer_xwidgets_scan, buffer_xwidgets_rev_filter, app_nil_r.
    reflexivity.
Qed.

(** X3.  get-buffer-xwidgets returns the widgets of [Vxwidget_list] whose
    buffer is the given one, in the reverse of their order in that list,
    and changes nothing.  It returns nil for nil and for a name that no
    buffer has, takes the name of a buffer for the buffer, and signals
    wrong-type-argument for an object that is neither. *)
Theorem get_buffer_xwidgets_spec (buffer : Lisp_Object) (st : emacs) :
  Fget_buffer_xwidgets buffer st
  = match buffer with
    | Qnil => Normal [] st
    | Buffer _ =>
        Normal (rev (filter (fun o => owned_by (xwidgets st) buffer o = true)
                       (Vxwidget_list st))) st
    | String name =>
        match assoc_buffer name (buffer_names (host st)) with
        | Some b =>
            Normal (rev (filter (fun o => owned_by (xwidgets st) (Buffer b) o = true)
                           (Vxwidget_list st))) st
        | None => Normal [] st
        end
    | _ => Signal (wrong_type_argument "stringp" buffer) st
    end.
Proof. apply Fget_buffer_xwidgets_lists. Qed.
Lemma set_gtk_log_app (l1 l2 : list gtk_call) (st : emacs) :
  set_gtk_log (gtk_log (set_gtk_log l1 st) ++ l2) (set_gtk_log l1 st)
  = set_gtk_log (l1 ++ l2) st.
Proof. reflexivity. Qed.

Lemma resize_views_loop (p : nat) (w h : Z) (l : list Lisp_Object) (st : emacs) :
  (forall q, XWidgetView q ∈ l -> exists m, xv_model (xwidget_views st q) = XWidget m) ->
  for_each l (fun o =>
    if XWIDGET_VIEW_P o then
      let* q := XXWIDGET_VIEW o in
      let* xv := get_xwidget_view q in
      let* m := XXWIDGET (xv_model xv) in
      when (Nat.eqb m p) (gtk (gtk_widget_set_size_request (xv_widget xv) w h))
    else ret tt) st
  = Normal tt
      (set_gtk_log
         (gtk_log st
          ++ flat_map (fun o =>
               match o with
               | XWidgetView q =>
                   if EQ (xv_model (xwidget_views st q)) (XWidget p)
                   then [gtk_widget_set_size_request (xv_widget (xwidget_views st q)) w h]
                   else []
               | _ => []
               end) l) st).
Proof.
  revert st. induction l as [|o l IH]; intros st Hm.
  - cbn. rewrite app_nil_r. by destruct st.
  - cbn [for_each flat_map].
    assert (Hl : forall st', xwidget_views st' = xwidget_views st ->
              forall q, XWidgetView q ∈ l ->
                        exists m, xv_model (xwidget_views st' q) = XWidget m).
    { intros st' -> q Hq. apply Hm. by right. }
    destruct o; cbn [XWIDGET_VIEW_P];
      try (rewrite (bind_Normal _ _ st st tt) by reflexivity;
           rewrite IH by (by apply Hl); reflexivity).
    destruct (Hm p0 ltac:(left)) as (m & Hmodel).
    unfold bind at 1.
    unfold bind at 1. cbn [XXWIDGET_VIEW ret].
    unfold bind at 1. unfold get_xwidget_view at 1, gets at 1.
    rewrite Hmodel. unfold bind at 1. cbn [XXWIDGET ret EQ].
    destruct (Nat.eqb m p) eqn:Hmp; cbn [when].
    + unfold gtk at 1, modify at 1.
      rewrite IH by (by apply Hl). cbn -[flat_map]. rewrite <- app_assoc. reflexivity.
    + unfold ret at 1. rewrite IH by (by apply Hl). reflexivity.
Qed.

Lemma Fxwidget_resize_resized (p : nat) (w h : Z) (st : emacs) :
  0 <= w <= INT_MAX -> 0 <= h <= INT_MAX ->
  views_have_models st ->
  Fxwidget_resize (XWidget p) (Fixnum w) (Fixnum h) st = Normal Qnil (resized p w h st).
Proof.
  intros Hw Hh Hm. unfold Fxwidget_resize.
  rewrite (bind_Normal _ _ st st tt) by reflexivity.
  rewrite (bind_Normal _ _ st st w).
  2:{ cbn. destruct (Z.leb_spec 0 w), (Z.leb_spec w INT_MAX); try lia. reflexivity. }
  rewrite (bind_Normal _ _ st st h).
  2:{ cbn. destruct (Z.leb_spec 0 h), (Z.leb_spec h INT_MAX); try lia. reflexivity. }
  rewrite (bind_Normal _ _ st st p) by reflexivity.
  rewrite (bind_Normal _ _ st st (xwidgets st p)) by reflexivity.
  set (st1 := set_xwidgets (<[p := set_size w h (xwidgets st p)]> (xwidgets st)) st).
  rewrite (bind_Normal _ _ st st1 tt) by reflexivity.
  set (osr := match xw_widget_osr (xwidgets st p) with
              | Some widget_osr =>
                  match xw_widgetwindow_osr (xwidgets st p) with
                  | Some widgetwindow_osr =>
                      [gtk_window_resize widgetwindow_osr w h;
                       gtk_container_resize_children widgetwindow_osr]
                  | None => []
                  end ++ [gtk_widget_set_size_request widget_osr w h]
              | None => []
              end).
  rewrite (bind_Normal _ _ st1 (set_gtk_log (gtk_log st1 ++ osr) st1) tt).
  2:{ unfold osr.
      destruct (xw_widget_osr (xwidgets st p)) as [widget_osr|];
        [|cbn; rewrite app_nil_r; by destruct st].
      destruct (xw_widgetwindow_osr (xwidgets st p)) as [ww|];
        unfold bind, gtk_on, gtk, modify, ret; cbn -[insert];
        rewrite <- ?app_assoc; reflexivity. }
  set (st2 := set_gtk_log (gtk_log st1 ++ osr) st1).
  rewrite (bind_Normal _ _ st2 st2 (Vxwidget_view_list st)) by reflexivity.
  rewrite (bind_Normal _ _ st2 _ tt (resize_views_loop p w h _ st2 Hm)).
  unfold resized, resize_calls. fold osr. cbn -[insert flat_map].
  rewrite <- app_assoc. reflexivity.
Qed.

Lemma check_integer_range_signal (x : Lisp_Object) (lo hi : Z) (e : Lisp_error)
    (st st' : emacs) :
  check_integer_range x lo hi st = Signal e st' -> st' = st.
Proof.
  destruct x; cbn; try (by intros [= _ <-]).
  destruct ((lo <=? n) && (n <=? hi)); [discriminate|by intros [= _ <-]].
Qed.

(** X4.  xwidget-resize with a width and a height between 0 and [INT_MAX]
    stores them in the widget, which xwidget-info then reports; it
    resizes the offscreen window and widget, if any, and requests the new
    size for the widget of every view of this widget, in the order of the
    view registry, and for no other view.  The other widgets, the views
    and the registries are as before.  With a width or a height that is
    no integer in that range it signals and changes nothing. *)
Theorem xwidget_resize_spec (p : nat) (new_width new_height : Lisp_Object) (st : emacs) :
  views_have_models st ->
  (forall w h,
     new_width = Fixnum w -> new_height = Fixnum h ->
     0 <= w <= INT_MAX -> 0 <= h <= INT_MAX ->
     let st' := resized p w h st in
     Fxwidget_resize (XWidget p) new_width new_height st = Normal Qnil st'
     /\ Fxwidget_info (XWidget p) st'
        = Normal (Vector [xw_type (xwidgets st p); xw_title (xwidgets st p);
                          Fixnum w; Fixnum h]) st'
     /\ (forall q, q <> p -> xwidgets st' q = xwidgets st q)
     /\ xwidget_views st' = xwidget_views st
     /\ Vxwidget_view_list st' = Vxwidget_view_list st
     /\ Vxwidget_list st' = Vxwidget_list st)
  /\ (forall e st',
        Fxwidget_resize (XWidget p) new_width new_height st = Signal e st' -> st' = st)
  /\ (forall w, new_width = Fixnum w -> ~ 0 <= w <= INT_MAX ->
        Fxwidget_resize (XWidget p) new_width new_height st
        = Signal (args_out_of_range_3 new_width (Fixnum 0) (Fixnum INT_MAX)) st).
Proof.
  intros Hm. split; [|split].
  - intros w h -> -> Hw Hh st'.
    split; [by apply Fxwidget_resize_resized|].
    unfold Fxwidget_info, st', resized. cbn -[insert flat_map].
    unfold bind. cbn -[insert flat_map]. rewrite fn_lookup_insert. cbn -[insert flat_map].
    repeat split.
    intros q Hq. apply fn_lookup_insert_ne. congruence.
  - intros e st' H0. pose proof H0 as H. revert H. unfold Fxwidget_resize.
    rewrite (bind_Normal _ _ st st tt) by reflexivity.
    intros H. apply bind_Signal_inv in H as [H|(w & st1 & Hw & H)].
    { by apply check_integer_range_signal in H. }
    apply check_integer_range_inv in Hw as (-> & Hw & ->).
    apply bind_Signal_inv in H as [H|(h & st1 & Hh & H)].
    { by apply check_integer_range_signal in H. }
    apply check_integer_range_inv in Hh as (-> & Hh & ->).
    rewrite Fxwidget_resize_resized in H0 by assumption. discriminate.
  - intros w -> Hw. unfold Fxwidget_resize.
    rewrite (bind_Normal _ _ st st tt) by reflexivity.
    apply bind_Signal. cbn.
    destruct (Z.leb_spec 0 w), (Z.leb_spec w INT_MAX); cbn; try reflexivity. lia.
Qed.

Lemma xwidget_resize_spec_witness :
  views_have_models drawn_widget
  /\ Fxwidget_resize (XWidget 0) (Fixnum 640) (Fixnum 480) drawn_widget
     = Normal Qnil (resized 0 640 480 drawn_widget).
Proof.
  assert (H : views_have_models drawn_widget).
  { intros q Hq.
    assert (Hreg : Vxwidget_view_list drawn_widget = [XWidgetView 0])
      by (vm_compute; reflexivity).
    rewrite Hreg in Hq. apply list_elem_of_singleton in Hq. injection Hq as ->.
    exists 0%nat. vm_compute. reflexivity. }
  split; [exact H|].
  exact (proj1 (proj1 (xwidget_resize_spec 0 (Fixnum 640) (Fixnum 480) drawn_widget H)
                  640 480 eq_refl eq_refl
                  ltac:(unfold INT_MAX; lia) ltac:(unfold INT_MAX; lia))).
Defined.
Lemma lookup_in_first h l xwidget window :
  match lookup_in h l xwidget window with
  | Ok r =>
      (r = Qnil /\ Forall (view_passed h xwidget window) l)
      \/ exists l1 l2,
           l = l1 ++ r :: l2 /\ view_matches h xwidget window r = true
           /\ Forall (view_passed h xwidget window) l1
  | Raise e =>
      exists l1 o l2,
        l = l1 ++ o :: l2 /\ XWIDGET_VIEW_P o = false
        /\ e = wrong_type_argument "xwidget-view-p" o
        /\ Forall (view_passed h xwidget window) l1
  end.
Proof.
  induction l as [|o l IH]; [left; split; [reflexivity|constructor]|].
  cbn [lookup_in].
  destruct o as [| |name|n|d|s|car cdr|contents|text|id|b|w0|p0|p];
    try (eexists [], _, l; split; [reflexivity|]; split; [reflexivity|];
         split; [reflexivity|constructor]).
  destruct (EQ (xv_model (h p)) xwidget && EQ (xv_w (h p)) window) eqn:Hm.
  { right. exists [], l. repeat split; [exact Hm|constructor]. }
  assert (Hp : view_passed h xwidget window (XWidgetView p)) by (split; [reflexivity|exact Hm]).
  destruct (lookup_in h l xwidget window) as [r|e].
  - destruct IH as [[-> Hall]|(l1 & l2 & -> & Hr & Hall)].
    + left. split; [reflexivity|]. by constructor.
    + right. exists (XWidgetView p :: l1), l2. repeat split; [exact Hr|by constructor].
  - destruct IH as (l1 & o & l2 & -> & Ho & -> & Hall).
    exists (XWidgetView p :: l1), o, l2. repeat split; [exact Ho|by constructor].
Qed.

Lemma Fxwidget_view_lookup_pure (x w : nat) (st : emacs) :
  Fxwidget_view_lookup (XWidget x) (Window w) st
  = lift_result (lookup_in (xwidget_views st) (Vxwidget_view_list st) (XWidget x) (Window w))
      st.
Proof.
  unfold Fxwidget_view_lookup. cbn [NILP].
  rewrite (bind_Normal _ _ st st tt) by reflexivity.
  rewrite (bind_Normal _ _ st st (Window w)) by reflexivity.
  rewrite (bind_Normal _ _ st st tt) by reflexivity.
  rewrite (bind_Normal _ _ st st (Vxwidget_view_list st)) by reflexivity.
  apply view_lookup_loop_pure.
Qed.

(** X7.  xwidget-view-lookup returns the first object of the view registry
    that is a view of the widget in the window, and nil when the
    registry holds views only and none of them is; an object of the
    registry that is not a view, met before such a view, makes it signal
    wrong-type-argument.  A nil window stands for the selected window.
    Nothing is changed. *)
Theorem xwidget_view_lookup_first (x w : nat) (st : emacs) :
  let h := xwidget_views st in
  let registry := Vxwidget_view_list st in
  Fxwidget_view_lookup (XWidget x) Qnil st
  = Fxwidget_view_lookup (XWidget x) (Window (selected_window (host st))) st
  /\ match Fxwidget_view_lookup (XWidget x) (Window w) st with
     | Normal r st' =>
         st' = st
         /\ ((r = Qnil /\ Forall (view_passed h (XWidget x) (Window w)) registry)
             \/ exists l1 l2,
                  registry = l1 ++ r :: l2
                  /\ view_matches h (XWidget x) (Window w) r = true
                  /\ Forall (view_passed h (XWidget x) (Window w)) l1)
     | Signal e st' =>
         st' = st
         /\ exists l1 o l2,
              registry = l1 ++ o :: l2 /\ XWIDGET_VIEW_P o = false
              /\ e = wrong_type_argument "xwidget-view-p" o
              /\ Forall (view_passed h (XWidget x) (Window w)) l1
     | Undefined => False
     end
  /\ (forall o window,
        XWIDGETP o = false ->
        Fxwidget_view_lookup o window st = Signal (wrong_type_argument "xwidgetp" o) st)
  /\ (forall window,
        NILP window = false -> (forall w', window <> Window w') ->
        Fxwidget_view_lookup (XWidget x) window st
        = Signal (wrong_type_argument "windowp" window) st).
Proof.
  intros h registry. split; [reflexivity|].
  split.
  2:{ split.
      - intros o window Ho. by destruct o.
      - intros window Hn Hw. destruct window; try reflexivity; try discriminate.
        by destruct (Hw w0). }
  rewrite Fxwidget_view_lookup_pure.
  pose proof (lookup_in_first h registry (XWidget x) (Window w)) as H.
  fold h registry. destruct (lookup_in h registry (XWidget x) (Window w)); cbn.
  - split; [reflexivity|exact H].
  - split; [reflexivity|exact H].
Qed.
Lemma EQ_XWidgetView (q : nat) (o : Lisp_Object) :
  EQ (XWidgetView q) o = true <-> o = XWidgetView q.
Proof.
  destruct o; cbn; try (split; [discriminate|discriminate]).
  rewrite Nat.eqb_eq. split; [by intros ->|by intros [= ->]].
Qed.

Lemma Fdelq_cons (elt o : Lisp_Object) (l : list Lisp_Object) :
  Fdelq elt (o :: l) = if EQ elt o then Fdelq elt l else o :: Fdelq elt l.
Proof.
  unfold Fdelq. rewrite filter_cons.
  destruct (EQ elt o); [by rewrite decide_False|by rewrite decide_True].
Qed.

Lemma lookup_in_Fdelq h (q : nat) l xwidget window :
  lookup_in h l xwidget window <> Ok (XWidgetView q) ->
  lookup_in h (Fdelq (XWidgetView q) l) xwidget window = lookup_in h l xwidget window.
Proof.
  induction l as [|o l IH]; intros Hne; [reflexivity|].
  rewrite Fdelq_cons. destruct (EQ (XWidgetView q) o) eqn:Ho.
  - apply EQ_XWidgetView in Ho as ->. cbn [lookup_in] in *.
    destruct (EQ (xv_model (h q)) xwidget && EQ (xv_w (h q)) window); [done|].
    by apply IH.
  - cbn [lookup_in] in *.
    destruct o; try reflexivity.
    destruct (EQ (xv_model (h p)) xwidget && EQ (xv_w (h p)) window); [reflexivity|].
    by apply IH.
Qed.

Lemma lookup_in_elem h l xwidget window (q : nat) :
  lookup_in h l xwidget window = Ok (XWidgetView q) -> XWidgetView q ∈ l.
Proof.
  induction l as [|o l IH]; [discriminate|].
  cbn [lookup_in]. destruct o; try discriminate.
  destruct (EQ (xv_model (h p)) xwidget && EQ (xv_w (h p)) window).
  - intros [= ->]. by left.
  - intros H. right. by apply IH.
Qed.

Lemma not_elem_of_Fdelq (q : nat) (l : list Lisp_Object) :
  XWidgetView q ∉ Fdelq (XWidgetView q) l.
Proof.
  unfold Fdelq. rewrite list_elem_of_filter. intros [H _].
  cbn in H. by rewrite Nat.eqb_refl in H.
Qed.

Lemma Fdelete_xwidget_view_deleted (q m : nat) (st : emacs) :
  xv_model (xwidget_views st q) = XWidget m ->
  Fdelete_xwidget_view (XWidgetView q) st
  = Normal (Qnil, disconnect_on (xw_widgetwindow_osr (xwidgets st m))
                    (xv_widget (xwidget_views st q)))
      (set_Vxwidget_view_list (Fdelq (XWidgetView q) (Vxwidget_view_list st))
         (set_gtk_log
            (gtk_log st ++ [gtk_widget_destroy (xv_widgetwindow (xwidget_views st q))])
            st)).
Proof.
  intros Hm. unfold Fdelete_xwidget_view.
  rewrite (bind_Normal _ _ st st tt) by reflexivity.
  rewrite (bind_Normal _ _ st st q) by reflexivity.
  rewrite (bind_Normal _ _ st st (xwidget_views st q)) by reflexivity.
  rewrite (bind_Normal _ _ st _ tt) by reflexivity.
  rewrite Hm. reflexivity.
Qed.

(** X8.  delete-xwidget-view destroys the window of the view, disconnects the
    handlers that the model's offscreen window holds for the view's
    widget, and takes the view, and nothing else, out of the view
    registry; widgets and views are left as they are.  From then on
    xwidget-view-lookup never returns the view, and answers as before
    whenever its answer was not that view.  An object that is not a view
    signals wrong-type-argument and changes nothing. *)
Theorem delete_xwidget_view_spec (q m : nat) (st : emacs) :
  xv_model (xwidget_views st q) = XWidget m ->
  exists st',
    Fdelete_xwidget_view (XWidgetView q) st
    = Normal (Qnil, disconnect_on (xw_widgetwindow_osr (xwidgets st m))
                      (xv_widget (xwidget_views st q))) st'
    /\ Vxwidget_view_list st' = Fdelq (XWidgetView q) (Vxwidget_view_list st)
    /\ (forall o, o ∈ Vxwidget_view_list st'
                  <-> o ∈ Vxwidget_view_list st /\ o <> XWidgetView q)
    /\ gtk_log st'
       = gtk_log st ++ [gtk_widget_destroy (xv_widgetwindow (xwidget_views st q))]
    /\ xwidget_views st' = xwidget_views st
    /\ xwidgets st' = xwidgets st
    /\ Vxwidget_list st' = Vxwidget_list st
    /\ (forall x w,
          Fxwidget_view_lookup (XWidget x) (Window w) st' <> Normal (XWidgetView q) st')
    /\ (forall x w,
          Fxwidget_view_lookup (XWidget x) (Window w) st <> Normal (XWidgetView q) st ->
          returned (Fxwidget_view_lookup (XWidget x) (Window w) st')
          = returned (Fxwidget_view_lookup (XWidget x) (Window w) st))
    /\ (forall o, XWIDGET_VIEW_P o = false ->
          Fdelete_xwidget_view o st = Signal (wrong_type_argument "xwidget-view-p" o) st).
Proof.
  intros Hm. eexists. split; [by apply Fdelete_xwidget_view_deleted|].
  cbn [Vxwidget_view_list set_Vxwidget_view_list set_gtk_log gtk_log xwidget_views
       xwidgets Vxwidget_list].
  split; [reflexivity|]. split.
  { intros o. unfold Fdelq. rewrite list_elem_of_filter.
    split; intros [H1 H2]; split; try done.
    - intros ->. cbn in H1. by rewrite Nat.eqb_refl in H1.
    - destruct (EQ (XWidgetView q) o) eqn:Ho; [|reflexivity].
      apply EQ_XWidgetView in Ho. done. }
  do 4 (split; [reflexivity|]).
  split; [|split].
  - intros x w. rewrite Fxwidget_view_lookup_pure.
    cbn [Vxwidget_view_list set_Vxwidget_view_list set_gtk_log xwidget_views].
    destruct (lookup_in _ _ _ _) as [r|e] eqn:Hl; [|discriminate].
    cbn. intros [= ->]. apply lookup_in_elem in Hl.
    by apply not_elem_of_Fdelq in Hl.
  - intros x w. rewrite !Fxwidget_view_lookup_pure.
    cbn [Vxwidget_view_list set_Vxwidget_view_list set_gtk_log xwidget_views].
    intros Hne. rewrite lookup_in_Fdelq.
    + by destruct (lookup_in _ _ _ _).
    + intros Hl. rewrite Hl in Hne. by apply Hne.
  - intros o Ho. by destruct o.
Qed.
Lemma relinked_length (elt : Lisp_Object) (l : list Lisp_Object) :
  (length (relinked elt l) <= length l)%nat.
Proof.
  induction l as [|o l IH]; [reflexivity|].
  cbn [relinked]. destruct (EQ elt o); cbn [length].
  - lia.
  - unfold Fdelq. pose proof (length_filter (fun o => EQ elt o = false) l). lia.
Qed.

Lemma relinked_elem (elt x : Lisp_Object) (l : list Lisp_Object) :
  x ∈ relinked elt l -> x ∈ l.
Proof.
  induction l as [|o l IH]; [done|].
  cbn [relinked]. destruct (EQ elt o); rewrite !elem_of_cons.
  - intros [->|H]; [by left|right; by apply IH].
  - intros [->|H]; [by left|right].
    unfold Fdelq in H. by apply list_elem_of_filter in H as [_ H].
Qed.

Lemma Fdelq_notin (q : nat) (l : list Lisp_Object) :
  XWidgetView q ∉ l -> Fdelq (XWidgetView q) l = l.
Proof.
  induction l as [|o l IH]; intros Hn; [reflexivity|].
  rewrite Fdelq_cons. apply not_elem_of_cons in Hn as [Ho Hl].
  destruct (EQ (XWidgetView q) o) eqn:He.
  - apply EQ_XWidgetView in He. congruence.
  - by rewrite IH.
Qed.

Lemma relinked_notin (q : nat) (l : list Lisp_Object) :
  XWidgetView q ∉ l -> relinked (XWidgetView q) l = l.
Proof.
  destruct l as [|o l]; intros Hn; [reflexivity|].
  cbn [relinked]. apply not_elem_of_cons in Hn as [Ho Hl].
  destruct (EQ (XWidgetView q) o) eqn:He.
  - apply EQ_XWidgetView in He. congruence.
  - by rewrite Fdelq_notin.
Qed.

Lemma deleted_from_relinked h w (q : nat) (l : list Lisp_Object) (x : Lisp_Object) :
  EQ (XWidgetView q) x = false ->
  deleted_from h w (relinked (XWidgetView q) l) x = deleted_from h w l x.
Proof.
  intros Hx.
  assert (Hq : forall e, EQ (XWidgetView q) e = true -> in_window h w e && EQ e x = false).
  { intros e He. apply EQ_XWidgetView in He as ->. rewrite Hx. apply andb_false_r. }
  assert (Hf : forall l, deleted_from h w (Fdelq (XWidgetView q) l) x = deleted_from h w l x).
  { clear l. induction l as [|o l IH]; [reflexivity|].
    rewrite Fdelq_cons. unfold deleted_from in *. cbn [existsb].
    destruct (EQ (XWidgetView q) o) eqn:He.
    - by rewrite (Hq o He), IH.
    - cbn [existsb]. by rewrite IH. }
  induction l as [|o l IH]; [reflexivity|].
  cbn [relinked]. unfold deleted_from in *.
  destruct (EQ (XWidgetView q) o) eqn:He; cbn [existsb].
  - by rewrite IH.
  - by rewrite Hf.
Qed.

Lemma filter_all {A} (P : A -> Prop) `{!forall x, Decision (P x)} (l : list A) :
  (forall x, x ∈ l -> P x) -> filter P l = l.
Proof.
  induction l as [|a l IH]; intros Hall; [reflexivity|].
  rewrite filter_cons_True by (apply Hall; by left).
  rewrite IH; [reflexivity|]. intros x Hx. apply Hall. by right.
Qed.

Lemma filter_ext_in {A} (P Q : A -> Prop) `{!forall x, Decision (P x)}
    `{!forall x, Decision (Q x)} (l : list A) :
  (forall x, x ∈ l -> P x <-> Q x) -> filter P l = filter Q l.
Proof.
  induction l as [|a l IH]; intros Hall; [reflexivity|].
  rewrite !filter_cons.
  assert (Ha : P a <-> Q a) by (apply Hall; by left).
  assert (Hl : filter P l = filter Q l) by (apply IH; intros x Hx; apply Hall; by right).
  destruct (decide (P a)), (decide (Q a)); rewrite ?Hl; tauto.
Qed.

Lemma delete_all_loop_spec (w fuel : nat) (tail : list Lisp_Object) (st : emacs) :
  let h := xwidget_views st in
  (length tail <= fuel)%nat ->
  (forall q, XWidgetView q ∈ tail -> in_window h w (XWidgetView q) = true ->
             exists m, xv_model (h q) = XWidget m) ->
  exists ds st',
    delete_all_loop fuel tail w st = Normal ds st'
    /\ xwidget_views st' = h
    /\ xwidgets st' = xwidgets st
    /\ next_xwidget_view st' = next_xwidget_view st
    /\ Vxwidget_list st' = Vxwidget_list st
    /\ kbd_buffer st' = kbd_buffer st
    /\ host st' = host st
    /\ Vxwidget_view_list st'
       = filter (fun x => deleted_from h w tail x = false) (Vxwidget_view_list st)
    /\ (NoDup tail ->
        gtk_log st'
        = gtk_log st
          ++ flat_map (fun o => if in_window h w o then delete_calls h o else []) tail
        /\ ds = flat_map (fun o => if in_window h w o
                                   then delete_disconnections (xwidgets st) h o
                                   else []) tail).
Proof.
  intros h. subst h. revert tail st.
  induction fuel as [|fuel IH]; intros tail st Hlen Hm.
  { destruct tail; [|cbn in Hlen; lia].
    exists [], st. cbn. rewrite app_nil_r. repeat split.
    symmetry. by apply filter_all. }
  destruct tail as [|o rest].
  { exists [], st. cbn. rewrite app_nil_r. repeat split.
    symmetry. by apply filter_all. }
  cbn [length] in Hlen.
  assert (Hskip : in_window (xwidget_views st) w o = false ->
            delete_all_loop (S fuel) (o :: rest) w st = delete_all_loop fuel rest w st).
  { intros Hw. cbn [delete_all_loop]. destruct o; try reflexivity.
    cbn [XWIDGET_VIEW_P].
    rewrite (bind_Normal _ _ st st p) by reflexivity.
    rewrite (bind_Normal _ _ st st (xwidget_views st p)) by reflexivity.
    cbn in Hw. by rewrite Hw. }
  destruct (in_window (xwidget_views st) w o) eqn:Hw.
  2:{ destruct (IH rest st ltac:(lia)) as (ds & st' & Hrun & Hv & Hx & Hn & Hl & Hk & Hh & Hr & Hlog).
      { intros q Hq. apply Hm. by right. }
      exists ds, st'. rewrite (Hskip eq_refl). split; [exact Hrun|].
      do 6 (split; [assumption|]). split.
      - rewrite Hr. apply list_filter_iff. intros x. unfold deleted_from.
        cbn [existsb]. by rewrite Hw.
      - intros Hnd. apply NoDup_cons in Hnd as [_ Hnd].
        destruct (Hlog Hnd) as [-> ->]. cbn [flat_map]. by rewrite Hw. }
  destruct o as [| |name|n|d|s|car cdr|contents|text|id|b|w0|p0|q]; try discriminate Hw.
  destruct (Hm q ltac:(left) Hw) as (m & Hmodel).
  set (st1 := set_Vxwidget_view_list (Fdelq (XWidgetView q) (Vxwidget_view_list st))
                (set_gtk_log
                   (gtk_log st ++ [gtk_widget_destroy (xv_widgetwindow (xwidget_views st q))])
                   st)).
  destruct (IH (relinked (XWidgetView q) rest) st1) as
    (ds & st' & Hrun & Hv & Hx & Hn & Hl & Hk & Hh & Hr & Hlog).
  { pose proof (relinked_length (XWidgetView q) rest). lia. }
  { intros q' Hq'. apply Hm. right. by apply relinked_elem in Hq'. }
  eexists _, st'. split.
  { cbn [delete_all_loop XWIDGET_VIEW_P].
    rewrite (bind_Normal _ _ st st q) by reflexivity.
    rewrite (bind_Normal _ _ st st (xwidget_views st q)) by reflexivity.
    cbn in Hw. rewrite Hw.
    rewrite (bind_Normal _ _ st st1 _ (Fdelete_xwidget_view_deleted q m st Hmodel)).
    rewrite (bind_Normal _ _ st1 st' ds Hrun). reflexivity. }
  do 6 (split; [assumption|]). split.
  - rewrite Hr. unfold st1. cbn [Vxwidget_view_list set_Vxwidget_view_list xwidget_views
                                   set_gtk_log].
    unfold Fdelq at 1. rewrite list_filter_filter. apply list_filter_iff. intros x.
    unfold deleted_from at 2. cbn [existsb]. fold (deleted_from (xwidget_views st) w rest x).
    rewrite Hw. cbn [andb].
    destruct (EQ (XWidgetView q) x) eqn:Hx'; cbn [orb].
    + split; [intros [_ ?]; discriminate|discriminate].
    + rewrite deleted_from_relinked by exact Hx'. tauto.
  - intros Hnd. apply NoDup_cons in Hnd as [Hnotin Hnd].
    rewrite relinked_notin in Hlog by exact Hnotin.
    destruct (Hlog Hnd) as [-> ->]. cbn [flat_map]. rewrite Hw.
    unfold st1. cbn [gtk_log set_Vxwidget_view_list set_gtk_log xwidget_views xwidgets
                       delete_calls delete_disconnections snd].
    rewrite Hmodel, <- app_assoc. split; reflexivity.
Qed.
Lemma deleted_from_elem h w (l : list Lisp_Object) (x : Lisp_Object) :
  x ∈ l -> deleted_from h w l x = in_window h w x.
Proof.
  intros Hx. unfold deleted_from.
  destruct (in_window h w x) eqn:Hw.
  - apply existsb_exists. exists x. split; [by apply list_elem_of_In|].
    rewrite Hw. destruct x; try discriminate Hw. cbn. apply Nat.eqb_refl.
  - apply not_true_is_false. intros H. apply existsb_exists in H as (e & _ & He).
    apply andb_true_iff in He as [He1 He2].
    destruct e; try discriminate He1. apply EQ_XWidgetView in He2 as ->.
    congruence.
Qed.

Lemma lookup_in_not_in_window h w (l : list Lisp_Object) (xwidget : Lisp_Object) (q : nat) :
  lookup_in h (filter (fun o => in_window h w o = false) l) xwidget (Window w)
  <> Ok (XWidgetView q).
Proof.
  intros H.
  pose proof (lookup_in_first h (filter (fun o => in_window h w o = false) l)
                xwidget (Window w)) as Hf.
  rewrite H in Hf. destruct Hf as [[? _]|(l1 & l2 & Hl & Hmatch & _)]; [discriminate|].
  assert (Hin : XWidgetView q ∈ filter (fun o => in_window h w o = false) l)
    by (rewrite Hl; apply elem_of_app; right; by left).
  apply list_elem_of_filter in Hin as [Hw _].
  cbn in Hmatch, Hw. apply andb_true_iff in Hmatch as [_ Hmatch]. congruence.
Qed.

Lemma lookup_in_other_window h (w w' : nat) (l : list Lisp_Object) (xwidget : Lisp_Object) :
  w' <> w ->
  lookup_in h (filter (fun o => in_window h w o = false) l) xwidget (Window w')
  = lookup_in h l xwidget (Window w').
Proof.
  intros Hne. induction l as [|o l IH]; [reflexivity|].
  rewrite filter_cons. destruct (decide (in_window h w o = false)) as [Hw|Hw].
  - cbn [lookup_in]. destruct o; try reflexivity. by rewrite IH.
  - apply not_false_is_true in Hw.
    destruct o as [| |name|n|d|s|car cdr|contents|text|id|b|w0|p0|q]; try discriminate Hw.
    cbn [lookup_in]. cbn in Hw. apply EQ_Window in Hw. rewrite Hw.
    cbn [EQ]. destruct (Nat.eqb_spec w w'); [congruence|].
    rewrite andb_false_r. exact IH.
Qed.

(** X9.  xwidget_view_delete_all_in_window deletes every view of the window,
    and no other object, from the view registry; the widgets, the views
    themselves and the widget registry are left as they are.  From then
    on xwidget-view-lookup finds no view in this window, and answers as
    before for any other window.  When the registry lists no view twice,
    one window is destroyed and one disconnection made for each view
    deleted, in the order of the registry. *)
Theorem xwidget_view_delete_all_in_window_spec (w : nat) (st : emacs) :
  let h := xwidget_views st in
  let registry := Vxwidget_view_list st in
  (forall q, XWidgetView q ∈ registry -> in_window h w (XWidgetView q) = true ->
             exists m, xv_model (h q) = XWidget m) ->
  exists ds st',
    xwidget_view_delete_all_in_window w st = Normal ds st'
    /\ Vxwidget_view_list st' = filter (fun o => in_window h w o = false) registry
    /\ xwidget_views st' = h
    /\ xwidgets st' = xwidgets st
    /\ Vxwidget_list st' = Vxwidget_list st
    /\ (forall x q,
          Fxwidget_view_lookup (XWidget x) (Window w) st' <> Normal (XWidgetView q) st')
    /\ (forall x w', w' <> w ->
          returned (Fxwidget_view_lookup (XWidget x) (Window w') st')
          = returned (Fxwidget_view_lookup (XWidget x) (Window w') st))
    /\ (NoDup registry ->
        gtk_log st'
        = gtk_log st
          ++ flat_map (fun o => if in_window h w o then delete_calls h o else []) registry
        /\ ds = flat_map (fun o => if in_window h w o
                                   then delete_disconnections (xwidgets st) h o
                                   else []) registry).
Proof.
  intros h registry Hm.
  destruct (delete_all_loop_spec w (length registry) registry st (le_n _) Hm)
    as (ds & st' & Hrun & Hv & Hx & _ & Hl & _ & _ & Hr & Hlog).
  assert (Hreg : Vxwidget_view_list st' = filter (fun o => in_window h w o = false) registry).
  { rewrite Hr. apply filter_ext_in. intros o Ho.
    by rewrite (deleted_from_elem _ _ _ _ Ho). }
  exists ds, st'. split.
  { unfold xwidget_view_delete_all_in_window.
    rewrite (bind_Normal _ _ st st registry) by reflexivity. exact Hrun. }
  split; [exact Hreg|]. do 3 (split; [assumption|]).
  split; [|split; [|exact Hlog]].
  - intros x q. rewrite Fxwidget_view_lookup_pure, Hv, Hreg.
    pose proof (lookup_in_not_in_window h w registry (XWidget x) q) as Hne.
    destruct (lookup_in _ _ _ _); [|discriminate].
    cbn. intros [= ->]. by apply Hne.
  - intros x w' Hne. rewrite !Fxwidget_view_lookup_pure, Hv, Hreg.
    rewrite lookup_in_other_window by exact Hne.
    fold h registry. by destruct (lookup_in _ _ _ _).
Qed.
Lemma views_ok_kept (st st' : emacs) :
  views_ok st ->
  NoDup (Vxwidget_view_list st') ->
  (forall o, o ∈ Vxwidget_view_list st' -> o ∈ Vxwidget_view_list st) ->
  (next_xwidget_view st <= next_xwidget_view st')%nat ->
  (forall q, XWidgetView q ∈ Vxwidget_view_list st ->
             xv_model (xwidget_views st' q) = xv_model (xwidget_views st q)
             /\ xv_w (xwidget_views st' q) = xv_w (xwidget_views st q)) ->
  views_ok st'.
Proof.
  intros (Hnd & Hviews & Huniq) Hnd' Hsub Hnext Hsame. split; [exact Hnd'|]. split.
  - intros o Ho. destruct (Hviews o (Hsub o Ho)) as (q & xw & w & -> & Hq & Hm & Hw).
    destruct (Hsame q (Hsub _ Ho)) as [Hm' Hw'].
    exists q, xw, w. rewrite Hm', Hw'. repeat split; try assumption. lia.
  - intros q1 q2 H1 H2. destruct (Hsame q1 (Hsub _ H1)) as [-> ->].
    destruct (Hsame q2 (Hsub _ H2)) as [-> ->]. apply Huniq; by apply Hsub.
Qed.

Lemma views_ok_new (st st' : emacs) (p xww w : nat) :
  views_ok st ->
  p = next_xwidget_view st ->
  next_xwidget_view st' = S p ->
  Vxwidget_view_list st' = XWidgetView p :: Vxwidget_view_list st ->
  (forall q, q <> p ->
             xv_model (xwidget_views st' q) = xv_model (xwidget_views st q)
             /\ xv_w (xwidget_views st' q) = xv_w (xwidget_views st q)) ->
  xv_model (xwidget_views st' p) = XWidget xww ->
  xv_w (xwidget_views st' p) = Window w ->
  Forall (view_passed (xwidget_views st) (XWidget xww) (Window w)) (Vxwidget_view_list st) ->
  views_ok st'.
Proof.
  intros (Hnd & Hviews & Huniq) Hp Hnext Hreg Hsame Hm Hw Hnone.
  assert (Hfresh : forall q, XWidgetView q ∈ Vxwidget_view_list st -> q <> p).
  { intros q Hq. destruct (Hviews _ Hq) as (q' & _ & _ & [= <-] & Hlt & _). lia. }
  assert (Hno : forall q, XWidgetView q ∈ Vxwidget_view_list st ->
                  xv_model (xwidget_views st q) = XWidget xww ->
                  xv_w (xwidget_views st q) = Window w -> False).
  { intros q Hq Hqm Hqw. rewrite Forall_forall in Hnone.
    destruct (Hnone _ Hq) as [_ Hpass]. cbn in Hpass. rewrite Hqm, Hqw in Hpass.
    cbn in Hpass. by rewrite !Nat.eqb_refl in Hpass. }
  split; [|split].
  - rewrite Hreg. apply NoDup_cons. split; [|exact Hnd].
    intros Hin. by apply (Hfresh p).
  - intros o. rewrite Hreg, elem_of_cons. intros [->|Ho].
    + exists p, xww, w. repeat split; try assumption. lia.
    + destruct (Hviews o Ho) as (q & xw & w' & -> & Hq & Hqm & Hqw).
      destruct (Hsame q (Hfresh q Ho)) as [Hm' Hw'].
      exists q, xw, w'. rewrite Hm', Hw'. repeat split; try assumption. lia.
  - intros q1 q2. rewrite Hreg, !elem_of_cons.
    intros [[= ->]|H1] [[= ->]|H2]; [reflexivity| | |].
    + destruct (Hsame q2 (Hfresh q2 H2)) as [-> ->]. rewrite Hm, Hw.
      intros E1 E2. exfalso. by apply (Hno q2).
    + destruct (Hsame q1 (Hfresh q1 H1)) as [-> ->]. rewrite Hm, Hw.
      intros E1 E2. exfalso. by apply (Hno q1).
    + destruct (Hsame q1 (Hfresh q1 H1)) as [-> ->].
      destruct (Hsame q2 (Hfresh q2 H2)) as [-> ->]. by apply Huniq.
Qed.

Lemma views_ok_models (st : emacs) : views_ok st -> views_have_models st.
Proof.
  intros (_ & Hviews & _) q Hq.
  destruct (Hviews _ Hq) as (q' & xw & _ & [= <-] & _ & Hm & _). by exists xw.
Qed.

Lemma place_clipped_next (s : glyph_string) (ta : box) (x y : Z) (p : nat) (u : unit)
    (st st' : emacs) :
  place_clipped s ta x y p st = Normal u st' ->
  next_xwidget_view st' = next_xwidget_view st.
Proof.
  intros H. destruct (place_clipped_fits _ _ _ _ _ _ _ _ H) as [Hclip_fits Hmove_fits].
  revert H.
  unfold place_clipped, bind, get_xwidget, get_xwidget_view, put_xwidget_view, gets,
    modify, when, gtk, ret, no_overflow.
  cbn -[insert compute_clip clip_fits move_fits]. rewrite Hclip_fits.
  cbn -[insert compute_clip clip_fits move_fits]. rewrite Hmove_fits.
  cbn -[insert compute_clip clip_fits move_fits].
  repeat match goal with
         | |- context [if ?b then _ else _] => destruct b; cbn -[insert compute_clip]
         end;
    intros [= <- <-]; reflexivity.
Qed.

Lemma xwidget_init_view_next (xww : nat) (s : glyph_string) (x y : Z) (p : nat)
    (st st' : emacs) :
  xwidget_init_view xww s x y st = Normal p st' ->
  next_xwidget_view st' = S (next_xwidget_view st).
Proof.
  unfold xwidget_init_view, bind, allocate_xwidget_view, get_xwidget, get_xwidget_view,
    put_xwidget_view, gets, modify, when, gtk_on, gtk, ret, xsignal.
  cbn -[insert].
  destruct (xg_gtk_initialized (host st)); cbn -[insert]; [|discriminate].
  destruct (EQ (xw_type (xwidgets st xww)) Qwebkit); cbn -[insert]; [|discriminate].
  destruct (xw_widgetwindow_osr (xwidgets st xww)); cbn -[insert];
    intros [= _ <-]; reflexivity.
Qed.
Lemma place_view_frame (s : glyph_string) (xw : xwidget) (x y : Z) (p : nat) (u : unit)
    (st st' : emacs) :
  place_view s xw x y p st = Normal u st' ->
  Vxwidget_view_list st' = Vxwidget_view_list st
  /\ next_xwidget_view st' = next_xwidget_view st
  /\ forall q, xv_model (xwidget_views st' q) = xv_model (xwidget_views st q)
               /\ xv_w (xwidget_views st' q) = xv_w (xwidget_views st q).
Proof.
  intros H. unfold place_view in H.
  bind_inv H as ta st0 Hta. normal_inv Hta as <- <-.
  bind_inv H as u1 stA Hres.
  assert (HA : Vxwidget_view_list stA = Vxwidget_view_list st
               /\ next_xwidget_view stA = next_xwidget_view st
               /\ xwidget_views stA = xwidget_views st).
  { unfold when in Hres.
    destruct (EQ (xw_type xw) Qwebkit && _).
    - bind_inv Hres as r st2 Hr. normal_inv Hres as _ <-.
      apply Fxwidget_resize_inv in Hr as (w & h & _ & _ & (_ & Hv & Hn & Hl & _)).
      repeat split; assumption.
    - normal_inv Hres as _ <-. repeat split. }
  destruct HA as (HAl & HAn & HAv).
  destruct (place_clipped_fits _ _ _ _ _ _ _ _ H) as [Hclip_fits Hmove_fits].
  destruct (place_clipped_spec s (text_area (host st) (gs_w s)) x y p stA
              Hclip_fits Hmove_fits)
    as (st'' & Hrun & _ & Hl & _ & Hp & Hq & _).
  pose proof (place_clipped_next _ _ _ _ _ _ _ _ H) as Hnext.
  rewrite Hrun in H. injection H as _ <-.
  split; [congruence|]. split; [congruence|].
  intros q. destruct (decide (q = p)) as [->|Hne].
  - rewrite Hp, HAv. split; reflexivity.
  - rewrite (Hq q Hne), HAv. split; reflexivity.
Qed.

Lemma view_of_none (st : emacs) (xww w : nat) :
  view_of (xwidget_views st) (Vxwidget_view_list st) xww w = Ok None ->
  (forall o, o ∈ Vxwidget_view_list st -> XWIDGET_VIEW_P o = true) ->
  Forall (view_passed (xwidget_views st) (XWidget xww) (Window w)) (Vxwidget_view_list st).
Proof.
  unfold view_of. intros H Hviews.
  pose proof (lookup_in_first (xwidget_views st) (Vxwidget_view_list st)
                (XWidget xww) (Window w)) as Hf.
  destruct (lookup_in _ _ _ _) as [r|e]; [|discriminate].
  destruct Hf as [[_ Hall]|(l1 & l2 & Hl & Hmatch & _)]; [exact Hall|].
  destruct r; try discriminate Hmatch. discriminate H.
Qed.

(** A draw that returns keeps the view registry well formed; it adds
    one view, in front, when the widget had none in the window, and no
    view otherwise. *)
Lemma x_draw_xwidget_glyph_string_views_ok (s : glyph_string) (st st1 : emacs) :
  x_draw_xwidget_glyph_string s st = Normal tt st1 ->
  views_ok st ->
  views_ok st1
  /\ Vxwidget_view_list st1
     = match view_of (xwidget_views st) (Vxwidget_view_list st) (gs_xwidget s) (gs_w s) with
       | Ok (Some _) => Vxwidget_view_list st
       | _ => XWidgetView (next_xwidget_view st) :: Vxwidget_view_list st
       end.
Proof.
  intros H Hok. rewrite x_draw_xwidget_glyph_string_unfold in H.
  bind_inv H as found st0 Hfound. rewrite xwidget_view_lookup_pure in Hfound.
  apply lift_result_inv in Hfound as [Hview ->].
  bind_inv H as xw st0 Hxw. normal_inv Hxw as <- <-. cbv zeta in H.
  bind_inv H as u0 st0 Hy. apply no_overflow_inv in Hy as [_ ->].
  bind_inv H as xv st2 Hxv. rewrite Hview.
  destruct found as [p|].
  - normal_inv Hxv as <- <-.
    apply place_view_frame in H as (Hl & Hn & Hsame).
    split; [|exact Hl].
    apply (views_ok_kept st st1 Hok).
    + rewrite Hl. apply Hok.
    + intros o. by rewrite Hl.
    + lia.
    + intros q _. apply Hsame.
  - pose proof (xwidget_init_view_next _ _ _ _ _ _ _ Hxv) as Hnext.
    apply xwidget_init_view_inv in Hxv as (-> & _ & _ & Hreg & Hm & Hw & Hothers & _).
    apply place_view_frame in H as (Hl & Hn & Hsame).
    split; [|by rewrite Hl].
    apply (views_ok_new st st1 (next_xwidget_view st) (gs_xwidget s) (gs_w s) Hok).
    + reflexivity.
    + congruence.
    + congruence.
    + intros q Hq. destruct (Hsame q) as [-> ->]. rewrite (Hothers q Hq). by split.
    + destruct (Hsame (next_xwidget_view st)) as [-> _]. exact Hm.
    + destruct (Hsame (next_xwidget_view st)) as [_ ->]. exact Hw.
    + apply view_of_none; [exact Hview|].
      intros o Ho. destruct Hok as (_ & Hviews & _).
      by destruct (Hviews o Ho) as (q & _ & _ & -> & _).
Qed.
Lemma destroyed_app (l1 l2 : list gtk_call) :
  destroyed (l1 ++ l2) = destroyed l1 ++ destroyed l2.
Proof. apply flat_map_app. Qed.

Lemma xwidget_init_view_returns (xww : nat) (s : glyph_string) (x y : Z) (st : emacs) :
  xg_gtk_initialized (host st) = true ->
  EQ (xw_type (xwidgets st xww)) Qwebkit = true ->
  exists st',
    xwidget_init_view xww s x y st = Normal (next_xwidget_view st) st'
    /\ destroyed (gtk_log st') = destroyed (gtk_log st).
Proof.
  intros Hinit Hwebkit.
  unfold xwidget_init_view, bind, allocate_xwidget_view, get_xwidget, get_xwidget_view,
    put_xwidget_view, gets, modify, when, gtk_on, gtk, ret, xsignal.
  cbn -[insert]. rewrite Hinit. cbn -[insert]. rewrite Hwebkit. cbn -[insert].
  destruct (xw_widgetwindow_osr (xwidgets st xww)); cbn -[insert destroyed];
    (eexists; split; [reflexivity|]); cbn -[destroyed];
    rewrite !destroyed_app; cbn; by rewrite !app_nil_r.
Qed.

Lemma resize_calls_destroy_nothing (xw : xwidget) (p : nat) (w h : Z)
    (views : nat -> xwidget_view) (registry : list Lisp_Object) :
  destroyed (resize_calls xw p w h views registry) = [].
Proof.
  unfold resize_calls. rewrite destroyed_app.
  assert (Hloop : destroyed
                    (flat_map (fun o =>
                       match o with
                       | XWidgetView q =>
                           if EQ (xv_model (views q)) (XWidget p)
                           then [gtk_widget_set_size_request (xv_widget (views q)) w h]
                           else []
                       | _ => []
                       end) registry) = []).
  { induction registry as [|o registry IH]; [reflexivity|].
    cbn [flat_map]. rewrite destroyed_app, IH.
    destruct o; try reflexivity. by destruct (EQ _ _). }
  rewrite Hloop.
  destruct (xw_widget_osr xw); [|reflexivity].
  by destruct (xw_widgetwindow_osr xw).
Qed.

Lemma placement_destroys_nothing (s : glyph_string) (x y : Z) (c : clip)
    (v : xwidget_view) :
  destroyed (placement_calls s x y c v ++ queue_draws v) = [].
Proof.
  unfold placement_calls, queue_draws. rewrite !destroyed_app.
  repeat match goal with |- context [if ?b then _ else _] => destruct b end;
    reflexivity.
Qed.

Lemma place_view_returns (s : glyph_string) (xw : xwidget) (x y : Z) (p : nat)
    (st : emacs) :
  views_have_models st ->
  0 <= box_width (text_area (host st) (gs_w s)) <= INT_MAX ->
  0 <= box_height (text_area (host st) (gs_w s)) <= INT_MAX ->
  clip_fits (text_area (host st) (gs_w s)) x y = true ->
  (forall width height,
     move_fits (xwidget_views st p) x y
       (compute_clip (text_area (host st) (gs_w s)) width height x y) = true) ->
  exists st',
    place_view s xw x y p st = Normal tt st'
    /\ destroyed (gtk_log st') = destroyed (gtk_log st).
Proof.
  intros Hm Hw Hh Hclip_fits Hmove_fits. unfold place_view.
  rewrite (bind_Normal _ _ st st (text_area (host st) (gs_w s))) by reflexivity.
  set (ta := text_area (host st) (gs_w s)) in *.
  destruct (EQ (xw_type xw) Qwebkit
            && (negb (xw_width xw =? box_width ta) || negb (xw_height xw =? box_height ta))).
  - cbn [when].
    rewrite (bind_Normal _ _ st (resized (gs_xwidget s) (box_width ta) (box_height ta) st) tt).
    2:{ rewrite (bind_Normal _ _ st _ Qnil (Fxwidget_resize_resized _ _ _ st Hw Hh Hm)).
        reflexivity. }
    destruct (place_clipped_spec s ta x y p
                (resized (gs_xwidget s) (box_width ta) (box_height ta) st) Hclip_fits)
      as (st' & Hrun & _ & _ & _ & _ & _ & Hlog); [apply Hmove_fits|].
    exists st'. split; [exact Hrun|].
    rewrite Hlog, destroyed_app, placement_destroys_nothing, app_nil_r.
    unfold resized. cbn -[resize_calls destroyed].
    by rewrite destroyed_app, resize_calls_destroy_nothing, app_nil_r.
  - cbn [when]. rewrite (bind_Normal _ _ st st tt) by reflexivity.
    destruct (place_clipped_spec s ta x y p st Hclip_fits)
      as (st' & Hrun & _ & _ & _ & _ & _ & Hlog); [apply Hmove_fits|].
    exists st'. split; [exact Hrun|].
    by rewrite Hlog, destroyed_app, placement_destroys_nothing, app_nil_r.
Qed.

Lemma small_quot (z : Z) : small z -> - 2 ^ 27 <= Z.quot z 2 <= 2 ^ 27.
Proof.
  unfold small. intros Hz.
  pose proof (Z.quot_rem' z 2) as Hq.
  pose proof (Z.rem_bound_abs z 2 ltac:(lia)) as Hr. lia.
Qed.

Lemma int_fits_bound (z : Z) : - 2 ^ 31 <= z <= 2 ^ 31 - 1 -> int_fits z = true.
Proof.
  intros Hz. unfold int_fits, INT_MIN, INT_MAX.
  apply andb_true_intro. split; apply Z.leb_le; lia.
Qed.

(** The guards of a draw, from bounds on what it computes with. *)
Lemma draw_fits (ta : box) (x gy gh h : Z) (v : xwidget_view) (width height : Z) :
  small (box_x ta) -> small (box_y ta) ->
  0 <= box_width ta <= 2 ^ 28 -> 0 <= box_height ta <= 2 ^ 28 ->
  small x -> small gy -> small gh -> small h ->
  small (xv_x v) -> small (xv_clip_left v) ->
  - 2 ^ 30 <= xv_y v <= 2 ^ 30 -> small (xv_clip_top v) ->
  let y := gy + Z.quot gh 2 - Z.quot h 2 in
  int_fits (gy + Z.quot gh 2) && int_fits y = true
  /\ clip_fits ta x y = true
  /\ move_fits v x y (compute_clip ta width height x y) = true.
Proof.
  intros Hbx Hby Hbw Hbh Hx Hgy Hgh Hh Hvx Hvl Hvy Hvt y.
  pose proof (small_quot gh Hgh) as Hq1. pose proof (small_quot h Hh) as Hq2.
  unfold small in *.
  assert (Hy : - 2 ^ 29 <= y <= 2 ^ 29) by (unfold y; lia).
  split; [|split].
  - apply andb_true_intro. split; apply int_fits_bound; lia.
  - unfold clip_fits. rewrite !andb_true_iff. repeat split; apply int_fits_bound; lia.
  - unfold move_fits. cbn [compute_clip clip_left clip_top].
    rewrite !andb_true_iff, orb_true_iff.
    split; [split; [split|]|right]; apply int_fits_bound; lia.
Qed.

Lemma views_ok_view_of (st : emacs) (xww w : nat) :
  views_ok st ->
  exists found, view_of (xwidget_views st) (Vxwidget_view_list st) xww w = Ok found.
Proof.
  intros (_ & Hviews & _). unfold view_of.
  pose proof (lookup_in_first (xwidget_views st) (Vxwidget_view_list st)
                (XWidget xww) (Window w)) as Hf.
  destruct (lookup_in _ _ _ _) as [r|e].
  - destruct r; by eexists.
  - destruct Hf as (l1 & o & l2 & Hl & Ho & _). exfalso.
    destruct (Hviews o) as (q & _ & _ & -> & _); [|discriminate Ho].
    rewrite Hl. apply elem_of_app. right. by left.
Qed.

(** X10.  On a well-formed view registry, with GTK initialized, a widget
    that has a view in the window or is a webkit widget, and coordinates
    and sizes that are small (the text area of the window, the glyph
    string, the height of the widget, and the origin and clip offsets
    that the views hold, the memory of a view not yet made included),
    and when no toolkit widget has been destroyed, a draw returns: it
    signals nothing, reads no widget that was never set, overflows no
    [int] and destroys no widget.  It leaves the registry well formed,
    adds one view when the widget had none in the window and none
    otherwise, and the widget then has a view in the window. *)
Theorem draw_returns (s : glyph_string) (st : emacs) :
  let ta := text_area (host st) (gs_w s) in
  let xw := xwidgets st (gs_xwidget s) in
  let found := view_of (xwidget_views st) (Vxwidget_view_list st) (gs_xwidget s) (gs_w s) in
  views_ok st ->
  xg_gtk_initialized (host st) = true ->
  (found = Ok None -> EQ (xw_type xw) Qwebkit = true) ->
  small (box_x ta) -> small (box_y ta) ->
  0 <= box_width ta <= 2 ^ 28 -> 0 <= box_height ta <= 2 ^ 28 ->
  small (gs_x s) -> small (gs_y s) -> small (gs_height s) ->
  small (xw_height xw) ->
  (forall q, view_small (xwidget_views st q)) ->
  destroyed (gtk_log st) = [] ->
  exists st1 p,
    x_draw_xwidget_glyph_string s st = Normal tt st1
    /\ destroyed (gtk_log st1) = []
    /\ views_ok st1
    /\ Vxwidget_view_list st1
       = match found with
         | Ok (Some _) => Vxwidget_view_list st
         | _ => XWidgetView (next_xwidget_view st) :: Vxwidget_view_list st
         end
    /\ xwidget_view_lookup (gs_xwidget s) (gs_w s) st1 = Normal (Some p) st1.
Proof.
  intros ta xw found0 Hok Hinit Hwebkit Hbx Hby Hbw Hbh Hx Hgy Hgh Hh Hviews Halive.
  assert (Hw' : 0 <= box_width ta <= INT_MAX) by (unfold INT_MAX; lia).
  assert (Hh' : 0 <= box_height ta <= INT_MAX) by (unfold INT_MAX; lia).
  assert (Hrun : exists st1, x_draw_xwidget_glyph_string s st = Normal tt st1
                             /\ destroyed (gtk_log st1) = destroyed (gtk_log st)).
  { rewrite x_draw_xwidget_glyph_string_unfold.
    destruct (views_ok_view_of st (gs_xwidget s) (gs_w s) Hok) as (found & Hfound).
    rewrite (bind_Normal _ _ st st found)
      by (by rewrite xwidget_view_lookup_pure, Hfound).
    rewrite (bind_Normal _ _ st st (xwidgets st (gs_xwidget s))) by reflexivity.
    cbv zeta. fold xw.
    set (y := gs_y s + Z.quot (gs_height s) 2 - Z.quot (xw_height xw) 2).
    destruct found as [p|].
    - destruct (Hviews p) as (Hvx & Hvy & Hvl & Hvt).
      assert (Hvy' : - 2 ^ 30 <= xv_y (xwidget_views st p) <= 2 ^ 30)
        by (unfold small in Hvy; lia).
      destruct (draw_fits ta (gs_x s) (gs_y s) (gs_height s) (xw_height xw)
                  (xwidget_views st p) 0 0 Hbx Hby Hbw Hbh Hx Hgy Hgh Hh Hvx Hvl Hvy' Hvt)
        as (Hyfits & Hclip_fits & _).
      fold y in Hyfits, Hclip_fits.
      rewrite (bind_Normal _ _ st st tt) by (by rewrite Hyfits).
      rewrite (bind_Normal _ _ st st p) by reflexivity.
      apply place_view_returns; [by apply views_ok_models|assumption..|].
      intros width height.
      by apply (draw_fits ta (gs_x s) (gs_y s) (gs_height s) (xw_height xw)
                  (xwidget_views st p) width height).
    - destruct (Hviews (next_xwidget_view st)) as (_ & _ & Hvl & Hvt).
      assert (Hy : - 2 ^ 30 <= y <= 2 ^ 30).
      { pose proof (small_quot _ Hgh). pose proof (small_quot _ Hh).
        unfold small in *. unfold y. lia. }
      destruct (xwidget_init_view_returns (gs_xwidget s) s (gs_x s) y st Hinit
                  (Hwebkit Hfound)) as (st2 & Hinitv & Hkept).
      rewrite <- Hkept.
      pose proof (xwidget_init_view_next _ _ _ _ _ _ _ Hinitv) as Hnext.
      pose proof Hinitv as Hinv.
      apply xwidget_init_view_inv in Hinv
        as (_ & _ & Hhost & Hreg & Hm & Hwin & Hothers & _ & Hvx2 & Hvy2 & Hvl2 & Hvt2).
      assert (Hfits : forall width height,
                int_fits (gs_y s + Z.quot (gs_height s) 2) && int_fits y = true
                /\ clip_fits ta (gs_x s) y = true
                /\ move_fits (xwidget_views st2 (next_xwidget_view st)) (gs_x s) y
                     (compute_clip ta width height (gs_x s) y) = true).
      { intros width height.
        apply (draw_fits ta (gs_x s) (gs_y s) (gs_height s) (xw_height xw)
                 (xwidget_views st2 (next_xwidget_view st)) width height);
          try assumption; by rewrite ?Hvx2, ?Hvy2, ?Hvl2, ?Hvt2. }
      destruct (Hfits 0 0) as (Hyfits & Hclip_fits & _).
      rewrite (bind_Normal _ _ st st tt) by (by rewrite Hyfits).
      rewrite (bind_Normal _ _ st st2 _ Hinitv).
      apply place_view_returns; [|by rewrite Hhost..|].
      + apply views_ok_models.
        apply (views_ok_new st st2 (next_xwidget_view st) (gs_xwidget s) (gs_w s) Hok);
          try assumption; try reflexivity.
        * intros q Hq. by rewrite (Hothers q Hq).
        * apply view_of_none; [exact Hfound|].
          intros o Ho. destruct Hok as (_ & Hviews' & _).
          by destruct (Hviews' o Ho) as (q & _ & _ & -> & _).
      + intros width height. rewrite Hhost. apply Hfits. }
  destruct Hrun as (st1 & Hrun & Hkept).
  destruct (x_draw_xwidget_glyph_string_views_ok s st st1 Hrun Hok) as [Hok1 Hreg].
  destruct (x_draw_xwidget_glyph_string_post s st st1 Hrun) as (p & Hp & _).
  exists st1, p. split; [exact Hrun|]. split; [by rewrite Hkept|].
  split; [exact Hok1|]. split; [exact Hreg|].
  by rewrite xwidget_view_lookup_pure, Hp.
Qed.
Lemma same_views_refl (st : emacs) : same_views st st.
Proof. repeat split. Qed.

Lemma same_views_trans (st1 st2 st3 : emacs) :
  same_views st1 st2 -> same_views st2 st3 -> same_views st1 st3.
Proof. intros (? & ? & ?) (? & ? & ?). repeat split; congruence. Qed.

Lemma same_views_ok (st st' : emacs) : same_views st st' -> views_ok st -> views_ok st'.
Proof.
  intros (Hv & Hl & Hn) Hok. apply (views_ok_kept st st' Hok).
  - rewrite Hl. apply Hok.
  - intros o. by rewrite Hl.
  - lia.
  - intros q _. by rewrite Hv.
Qed.

Lemma for_each_same_views {A} (l : list A) (body : A -> M unit) :
  (forall a u st st', body a st = Normal u st' -> same_views st st') ->
  forall u st st', for_each l body st = Normal u st' -> same_views st st'.
Proof.
  intros Hbody. induction l as [|a l IH]; intros u st st' H.
  - normal_inv H as _ <-. apply same_views_refl.
  - cbn [for_each] in H. bind_inv H as u1 st1 H1.
    eapply same_views_trans; [by eapply Hbody|by eapply IH].
Qed.

Lemma Fget_buffer_create_same_views (b v : Lisp_Object) (st st' : emacs) :
  Fget_buffer_create b st = Normal v st' -> same_views st st'.
Proof.
  unfold Fget_buffer_create, bind, Fget_buffer, gets, modify, ret, xsignal.
  destruct b; cbn; try discriminate; try (intros [= _ <-]; apply same_views_refl).
  destruct (assoc_buffer s (buffer_names (host st))); cbn.
  - intros [= _ <-]. apply same_views_refl.
  - destruct (String.eqb s ""); [discriminate|]. intros [= _ <-]. repeat split.
Qed.

Lemma Fmake_xwidget_same_views type title width height arguments buffer r st st' :
  Fmake_xwidget type title width height arguments buffer st = Normal r st' ->
  same_views st st'.
Proof.
  rewrite Fmake_xwidget_checks_first.
  destruct (negb (xg_gtk_initialized (host st))); [discriminate|].
  destruct (negb (symbolp type)); [discriminate|].
  destruct (negb (fixnatp width)); [discriminate|].
  destruct (negb (fixnatp height)); [discriminate|].
  unfold make_xwidget_checked. intros H.
  bind_inv H as p st1 Hp.
  assert (H1 : same_views st st1) by (injection Hp as _ <-; repeat split).
  bind_inv H as b st2 Hb.
  assert (H2 : same_views st1 st2).
  { destruct (NILP buffer).
    - normal_inv Hb as _ <-. apply same_views_refl.
    - by apply Fget_buffer_create_same_views in Hb. }
  bind_inv H as w st3 Hw. apply XFIXNAT_state in Hw as ->.
  bind_inv H as h st3 Hh. apply XFIXNAT_state in Hh as ->.
  cbv zeta in H.
  bind_inv H as u1 st3 H3. normal_inv H3 as _ <-.
  bind_inv H as u2 st4 H4. normal_inv H4 as _ <-.
  bind_inv H as u3 st5 H5. normal_inv H as _ <-.
  assert (H3 : same_views st2 st5).
  { unfold when in H5. destruct (EQ type Qwebkit).
    - match type of H5 with
      | make_xwidget_webkit ?p ?w ?h ?s = _ =>
          destruct (make_xwidget_webkit_same_editor p w h s) as (st6 & Hmk & Hsame)
      end.
      rewrite Hmk in H5. injection H5 as _ <-.
      destruct Hsame as (_ & _ & Hv & Hn & _ & Hl & _).
      repeat split; [rewrite Hv|rewrite Hl|rewrite Hn]; reflexivity.
    - normal_inv H5 as _ <-. repeat split. }
  eapply same_views_trans; [exact H1|]. eapply same_views_trans; [exact H2|exact H3].
Qed.

Lemma kill_xwidget_same_views (o : Lisp_Object) (u : unit) (st st' : emacs) :
  kill_xwidget o st = Normal u st' -> same_views st st'.
Proof.
  unfold kill_xwidget. intros H.
  bind_inv H as u1 st1 H1. normal_inv H1 as _ <-.
  bind_inv H as u2 st2 H2. destruct o; try discriminate H2. normal_inv H2 as _ <-.
  bind_inv H as p' st2 H2. normal_inv H2 as <- <-.
  bind_inv H as xw st2 H2. normal_inv H2 as <- <-.
  bind_inv H as u3 st3 H3.
  assert (Hs : same_views st st3).
  { match type of H3 with
    | context [xw_widget_osr ?x] =>
        destruct (xw_widget_osr x), (xw_widgetwindow_osr x)
    end; normal_inv H3 as _ <-; repeat split. }
  eapply same_views_trans; [exact Hs|].
  match type of H with
  | context [xw_script_callbacks ?x] => destruct (xw_script_callbacks x)
  end; cbn [NILP] in H; try discriminate H.
  - normal_inv H as _ <-. apply same_views_refl.
  - bind_inv H as u5 st5 H5. rewrite release_callbacks_freed in H5.
    injection H5 as _ <-. normal_inv H as _ <-. repeat split.
Qed.

Lemma Fget_buffer_same_state (b v : Lisp_Object) (st st' : emacs) :
  Fget_buffer b st = Normal v st' -> st' = st.
Proof.
  destruct b; cbn; try discriminate; unfold gets, ret; by intros [= _ <-].
Qed.

Lemma kill_buffer_xwidgets_same_views (buffer : Lisp_Object) (u : unit) (st st' : emacs) :
  kill_buffer_xwidgets buffer st = Normal u st' -> same_views st st'.
Proof.
  unfold kill_buffer_xwidgets. intros H. bind_inv H as tail st1 Htail.
  assert (st1 = st) as ->.
  { revert Htail. rewrite Fget_buffer_xwidgets_lists.
    destruct buffer; try discriminate; try (by intros [= _ <-]).
    destruct (assoc_buffer _ _); by intros [= _ <-]. }
  revert H. apply for_each_same_views. intros a u' s s'. apply kill_xwidget_same_views.
Qed.
Lemma same_view_identities_refl (st : emacs) : same_view_identities st st.
Proof. repeat split. Qed.

Lemma same_view_identities_trans (st1 st2 st3 : emacs) :
  same_view_identities st1 st2 -> same_view_identities st2 st3 ->
  same_view_identities st1 st3.
Proof.
  intros (Hl & Hn & Hq) (Hl' & Hn' & Hq'). split; [congruence|]. split; [congruence|].
  intros q. destruct (Hq q) as [<- <-]. apply Hq'.
Qed.

Lemma same_view_identities_ok (st st' : emacs) :
  same_view_identities st st' -> views_ok st -> views_ok st'.
Proof.
  intros (Hl & Hn & Hq) Hok. apply (views_ok_kept st st' Hok).
  - rewrite Hl. apply Hok.
  - intros o. by rewrite Hl.
  - lia.
  - intros q _. apply Hq.
Qed.

Lemma for_each_same_view_identities {A} (l : list A) (body : A -> M unit) :
  (forall a u st st', body a st = Normal u st' -> same_view_identities st st') ->
  forall u st st', for_each l body st = Normal u st' -> same_view_identities st st'.
Proof.
  intros Hbody. induction l as [|a l IH]; intros u st st' H.
  - normal_inv H as _ <-. apply same_view_identities_refl.
  - cbn [for_each] in H. bind_inv H as u1 st1 H1.
    eapply same_view_identities_trans; [by eapply Hbody|by eapply IH].
Qed.

Lemma put_flag_same_view_identities (p : nat) (v : xwidget_view) (st : emacs) :
  xv_model v = xv_model (xwidget_views st p) ->
  xv_w v = xv_w (xwidget_views st p) ->
  same_view_identities st (set_xwidget_views (<[p := v]> (xwidget_views st)) st).
Proof.
  intros Hm Hw. split; [reflexivity|]. split; [reflexivity|].
  intros q. cbn -[insert]. destruct (decide (q = p)) as [->|Hne].
  - rewrite fn_lookup_insert. by split.
  - rewrite fn_lookup_insert_ne by congruence. by split.
Qed.

Lemma touch_glyph_same_view_identities (w : nat) (g : glyph) (u : unit) (st st' : emacs) :
  touch_glyph w g st = Normal u st' -> same_view_identities st st'.
Proof.
  destruct g; try (intros H; normal_inv H as _ <-; apply same_view_identities_refl).
  cbn [touch_glyph]. intros H. bind_inv H as xv st1 Hxv.
  rewrite xwidget_view_lookup_pure in Hxv. apply lift_result_inv in Hxv as [_ ->].
  destruct xv as [p|]; [|discriminate H].
  unfold xwidget_touch in H. bind_inv H as v st1 Hv. normal_inv Hv as <- <-.
  normal_inv H as _ <-. by apply put_flag_same_view_identities.
Qed.

Lemma xwidget_end_redisplay_same_view_identities (w : nat) (matrix : glyph_matrix)
    (u : unit) (st st' : emacs) :
  xwidget_end_redisplay w matrix st = Normal u st' -> same_view_identities st st'.
Proof.
  unfold xwidget_end_redisplay. intros H.
  bind_inv H as u1 st1 H1.
  assert (S1 : same_view_identities st st1).
  { unfold xwidget_start_redisplay in H1. bind_inv H1 as views st0 H0.
    normal_inv H0 as _ <-. revert H1. apply for_each_same_view_identities.
    intros o u' s s' Ho. destruct (XWIDGET_VIEW_P o).
    - bind_inv Ho as p s1 Hp. apply XXWIDGET_VIEW_inv in Hp as [_ ->].
      bind_inv Ho as v s1 Hv. normal_inv Hv as <- <-. normal_inv Ho as _ <-.
      by apply put_flag_same_view_identities.
    - normal_inv Ho as _ <-. apply same_view_identities_refl. }
  bind_inv H as u2 st2 H2.
  assert (S2 : same_view_identities st1 st2).
  { rewrite scan_matrix in H2. revert H2. apply for_each_same_view_identities.
    intros g u' s s'. apply touch_glyph_same_view_identities. }
  bind_inv H as views st3 H3. normal_inv H3 as _ <-.
  assert (S3 : same_view_identities st2 st').
  { revert H. apply for_each_same_view_identities.
    intros o u' s s' Ho. destruct (XWIDGET_VIEW_P o).
    - bind_inv Ho as p s1 Hp. apply XXWIDGET_VIEW_inv in Hp as [_ ->].
      bind_inv Ho as v s1 Hv. normal_inv Hv as <- <-.
      destruct (EQ (xv_w (xwidget_views s p)) (Window w)).
      + destruct (xwidget_touched (xwidget_views s p)).
        * unfold xwidget_show_view in Ho. normal_inv Ho as _ <-.
          split; [reflexivity|]. split; [reflexivity|].
          intros q. cbn -[insert]. destruct (decide (q = p)) as [->|Hne].
          -- rewrite fn_lookup_insert. by split.
          -- rewrite fn_lookup_insert_ne by congruence. by split.
        * unfold xwidget_hide_view in Ho. normal_inv Ho as _ <-.
          split; [reflexivity|]. split; [reflexivity|].
          intros q. cbn -[insert]. destruct (decide (q = p)) as [->|Hne].
          -- rewrite fn_lookup_insert. by split.
          -- rewrite fn_lookup_insert_ne by congruence. by split.
      + normal_inv Ho as _ <-. apply same_view_identities_refl.
    - normal_inv Ho as _ <-. apply same_view_identities_refl. }
  eapply same_view_identities_trans; [exact S1|].
  eapply same_view_identities_trans; [exact S2|exact S3].
Qed.

Lemma Fdelete_xwidget_view_inv (o r : Lisp_Object) (ds : list disconnection)
    (st st' : emacs) :
  Fdelete_xwidget_view o st = Normal (r, ds) st' ->
  exists q m, o = XWidgetView q /\ xv_model (xwidget_views st q) = XWidget m.
Proof.
  unfold Fdelete_xwidget_view. intros H.
  bind_inv H as u1 st1 H1. destruct o; try discriminate H1. normal_inv H1 as _ <-.
  bind_inv H as q st1 H1. normal_inv H1 as <- <-.
  bind_inv H as xv st1 H1. normal_inv H1 as <- <-.
  bind_inv H as u2 st1 H1. normal_inv H1 as _ <-.
  bind_inv H as m st2 H2. apply XXWIDGET_inv in H2 as [Hm _].
  by exists p, m.
Qed.

Lemma views_ok_filter (P : Lisp_Object -> Prop) `{!forall o, Decision (P o)}
    (st st' : emacs) :
  views_ok st ->
  Vxwidget_view_list st' = filter P (Vxwidget_view_list st) ->
  xwidget_views st' = xwidget_views st ->
  next_xwidget_view st' = next_xwidget_view st ->
  views_ok st'.
Proof.
  intros Hok Hl Hv Hn. apply (views_ok_kept st st' Hok).
  - rewrite Hl. apply NoDup_filter, Hok.
  - intros o. rewrite Hl, list_elem_of_filter. tauto.
  - lia.
  - intros q _. by rewrite Hv.
Qed.

Lemma perform_views_ok (op : operation) (u : unit) (st st' : emacs) :
  perform op st = Normal u st' -> views_ok st -> views_ok st'.
Proof.
  destruct op as [type title width height arguments buffer|s|w matrix
                 |xw new_width new_height|xwidget_view|w|buffer|c];
    cbn [perform]; intros H Hok.
  - bind_inv H as r st1 H1. normal_inv H as _ <-.
    apply Fmake_xwidget_same_views in H1. by apply (same_views_ok st).
  - destruct u. by apply (x_draw_xwidget_glyph_string_views_ok s st st').
  - apply xwidget_end_redisplay_same_view_identities in H.
    by apply (same_view_identities_ok st).
  - bind_inv H as r st1 H1. normal_inv H as _ <-.
    destruct xw; try discriminate H1.
    apply Fxwidget_resize_inv in H1 as (w' & h' & _ & _ & (_ & Hv & Hn & Hl & _)).
    apply (same_views_ok st); [|exact Hok]. repeat split; assumption.
  - bind_inv H as r st1 H1. normal_inv H as _ <-. destruct r as [r ds].
    destruct (Fdelete_xwidget_view_inv _ _ _ _ _ H1) as (q & m & -> & Hm).
    rewrite (Fdelete_xwidget_view_deleted q m st Hm) in H1. injection H1 as _ _ <-.
    by apply (views_ok_filter (fun o => EQ (XWidgetView q) o = false) st).
  - bind_inv H as ds st1 H1. normal_inv H as _ <-.
    destruct (delete_all_loop_spec w (length (Vxwidget_view_list st))
                (Vxwidget_view_list st) st (le_n _))
      as (ds' & st2 & Hrun & Hv & _ & Hn & _ & _ & _ & Hl & _).
    { intros q Hq _. destruct Hok as (_ & Hviews & _).
      destruct (Hviews _ Hq) as (q' & xw & _ & [= <-] & _ & Hm & _). by exists xw. }
    unfold xwidget_view_delete_all_in_window in H1.
    rewrite (bind_Normal _ _ st st (Vxwidget_view_list st)) in H1 by reflexivity.
    rewrite Hrun in H1. injection H1 as _ <-.
    by eapply views_ok_filter.
  - apply kill_buffer_xwidgets_same_views in H. by apply (same_views_ok st).
  - normal_inv H as _ <-. by apply (same_views_ok st).
Qed.
Lemma views_ok_startup (ta : box) : views_ok (startup ta).
Proof.
  split; [apply NoDup_nil_2|]. split.
  - intros o Ho. by apply elem_of_nil in Ho.
  - intros q1 q2 H1. by apply elem_of_nil in H1.
Qed.

Lemma returned_Normal {A} (c : M A) (st : emacs) (a : A) :
  returned (c st) = Some a -> c st = Normal a (run c st).
Proof. unfold run. destruct (c st); cbn; [by intros [= ->]|discriminate..]. Qed.

(** X11.  Whatever operations are performed, in whatever order and with
    whatever arguments, as long as each returns: a well-formed view
    registry stays well formed.  It lists views only and none twice, and
    at most one view of a widget in a window. *)
Theorem operations_keep_views_ok (ops : list operation) (st st' : emacs) :
  views_ok st ->
  for_each ops perform st = Normal tt st' ->
  views_ok st'.
Proof.
  revert st. induction ops as [|op ops IH]; intros st Hok H.
  - normal_inv H as _ <-. exact Hok.
  - cbn [for_each] in H. bind_inv H as u st1 H1.
    apply (IH st1); [|exact H].
    by apply (perform_views_ok op u st).
Qed.

Lemma operations_keep_views_ok_witness :
  views_ok (startup sample_text_area)
  /\ for_each sample_operations perform (startup sample_text_area)
     = Normal tt (run (for_each sample_operations perform) (startup sample_text_area))
  /\ Vxwidget_view_list
       (run (for_each sample_operations perform) (startup sample_text_area))
     = [XWidgetView 0]
  /\ views_ok (run (for_each sample_operations perform) (startup sample_text_area)).
Proof.
  assert (Hrun : for_each sample_operations perform (startup sample_text_area)
                 = Normal tt (run (for_each sample_operations perform)
                                (startup sample_text_area))).
  { refine (returned_Normal (for_each sample_operations perform)
              (startup sample_text_area) tt _).
    vm_compute. reflexivity. }
  split; [apply views_ok_startup|]. split; [exact Hrun|].
  split; [vm_compute; reflexivity|].
  exact (operations_keep_views_ok sample_operations (startup sample_text_area) _
           (views_ok_startup sample_text_area) Hrun).
Defined.
Lemma delete_xwidget_view_spec_witness :
  xv_model (xwidget_views drawn_widget 0) = XWidget 0
  /\ exists st',
       Fdelete_xwidget_view (XWidgetView 0) drawn_widget
       = Normal (Qnil, [g_signal_handlers_disconnect_matched (GtkOffscreenWindow 0)
                          (GtkDrawingArea 0)]) st'
       /\ Vxwidget_view_list st' = [].
Proof.
  assert (Hm : xv_model (xwidget_views drawn_widget 0) = XWidget 0)
    by (vm_compute; reflexivity).
  split; [exact Hm|].
  destruct (delete_xwidget_view_spec 0 0 drawn_widget Hm) as (st' & Hrun & Hreg & _).
  assert (Hd : disconnect_on (xw_widgetwindow_osr (xwidgets drawn_widget 0))
                 (xv_widget (xwidget_views drawn_widget 0))
               = [g_signal_handlers_disconnect_matched (GtkOffscreenWindow 0)
                    (GtkDrawingArea 0)]) by (vm_compute; reflexivity).
  rewrite Hd in Hrun.
  exists st'. split; [exact Hrun|].
  rewrite Hreg. vm_compute. reflexivity.
Defined.

Lemma xwidget_view_delete_all_in_window_spec_witness :
  (forall q, XWidgetView q ∈ Vxwidget_view_list two_widgets_drawn ->
             in_window (xwidget_views two_widgets_drawn) 0 (XWidgetView q) = true ->
             exists m, xv_model (xwidget_views two_widgets_drawn q) = XWidget m)
  /\ exists ds st',
       xwidget_view_delete_all_in_window 0 two_widgets_drawn = Normal ds st'
       /\ Vxwidget_view_list st' = [].
Proof.
  assert (Hreg : Vxwidget_view_list two_widgets_drawn = [XWidgetView 1; XWidgetView 0])
    by (vm_compute; reflexivity).
  assert (Hm : forall q, XWidgetView q ∈ Vxwidget_view_list two_widgets_drawn ->
                 in_window (xwidget_views two_widgets_drawn) 0 (XWidgetView q) = true ->
                 exists m, xv_model (xwidget_views two_widgets_drawn q) = XWidget m).
  { intros q Hq _. rewrite Hreg in Hq.
    apply elem_of_cons in Hq as [[= ->]|Hq].
    - exists 1%nat. vm_compute. reflexivity.
    - apply list_elem_of_singleton in Hq as [= ->]. exists 0%nat. vm_compute. reflexivity. }
  split; [exact Hm|].
  destruct (xwidget_view_delete_all_in_window_spec 0 two_widgets_drawn Hm)
    as (ds & st' & Hrun & Hl & _).
  exists ds, st'. split; [exact Hrun|].
  rewrite Hl, Hreg. vm_compute. reflexivity.
Defined.

Lemma draw_returns_witness :
  views_ok webkit_widget
  /\ xg_gtk_initialized (host webkit_widget) = true
  /\ EQ (xw_type (xwidgets webkit_widget 0)) Qwebkit = true
  /\ text_area (host webkit_widget) 0 = sample_text_area
  /\ xw_height (xwidgets webkit_widget 0) = 200
  /\ (forall q, view_small (xwidget_views webkit_widget q))
  /\ destroyed (gtk_log webkit_widget) = []
  /\ exists st1 p,
       x_draw_xwidget_glyph_string sample_glyph_string webkit_widget = Normal tt st1
       /\ Vxwidget_view_list st1 = [XWidgetView 0]
       /\ xwidget_view_lookup 0 0 st1 = Normal (Some p) st1.
Proof.
  assert (Hok : views_ok webkit_widget).
  { split; [apply NoDup_nil_2|]. split.
    - intros o Ho. by apply elem_of_nil in Ho.
    - intros q1 q2 H1. by apply elem_of_nil in H1. }
  assert (Hinit : xg_gtk_initialized (host webkit_widget) = true)
    by (vm_compute; reflexivity).
  assert (Hwebkit : EQ (xw_type (xwidgets webkit_widget 0)) Qwebkit = true)
    by (vm_compute; reflexivity).
  assert (Hta : text_area (host webkit_widget) 0 = sample_text_area)
    by (vm_compute; reflexivity).
  assert (Hheight : xw_height (xwidgets webkit_widget 0) = 200)
    by (vm_compute; reflexivity).
  assert (Hviews : forall q, view_small (xwidget_views webkit_widget q))
    by (intros q; vm_compute; repeat split; discriminate).
  assert (Halive : destroyed (gtk_log webkit_widget) = []) by (vm_compute; reflexivity).
  do 7 (split; [assumption|]).
  destruct (draw_returns sample_glyph_string webkit_widget Hok Hinit (fun _ => Hwebkit))
    as (st1 & p & Hrun & _ & _ & Hreg & Hlook);
    try exact Halive;
    try (cbn [gs_w gs_xwidget gs_x gs_y gs_height sample_glyph_string];
         rewrite ?Hta, ?Hheight; vm_compute; split; discriminate).
  { exact Hviews. }
  exists st1, p. split; [exact Hrun|]. split; [|exact Hlook].
  rewrite Hreg. vm_compute. reflexivity.
Defined.
Lemma spec_value_loop_plist (pairs : list (Lisp_Object * Lisp_Object))
    (tail key : Lisp_Object) :
  plist_end tail = true ->
  spec_value_loop (plist_of pairs tail) key = first_value pairs key.
Proof.
  intros Hend. induction pairs as [|[k v] pairs IH]; cbn.
  - destruct tail as [| | | | | |car cdr| | | | | | |]; try reflexivity.
    destruct cdr; try reflexivity. discriminate Hend.
  - by rewrite IH.
Qed.

(** X13.  On the specification [(xwidget K1 V1 K2 V2 ...)] xwidget_spec_value,
    asked for a symbol, returns the value that follows the first key that
    is this symbol, and nil when no key is; it looks at keys only, so a
    value that is the symbol is passed over, as is a last key without a
    value.  lookup_xwidget returns the widget under [:xwidget]. *)
Theorem xwidget_spec_value_plist (pairs : list (Lisp_Object * Lisp_Object))
    (tail key : Lisp_Object) (st : emacs) :
  plist_end tail = true ->
  symbolp key = true ->
  valid_xwidget_spec_p (Cons Qxwidget (plist_of pairs tail)) = true
  /\ xwidget_spec_value (Cons Qxwidget (plist_of pairs tail)) key st
     = Normal (first_value pairs key) st
  /\ (forall p, first_value pairs QCxwidget = XWidget p ->
                lookup_xwidget (Cons Qxwidget (plist_of pairs tail)) st = Normal p st).
Proof.
  intros Hend _. split; [reflexivity|].
  assert (Hv : forall key, xwidget_spec_value (Cons Qxwidget (plist_of pairs tail)) key st
                           = Normal (first_value pairs key) st).
  { intros k. unfold xwidget_spec_value. cbn [valid_xwidget_spec_p CONSP XCAR XCDR andb].
    cbn [Qxwidget EQ]. rewrite String.eqb_refl. unfold ret.
    by rewrite spec_value_loop_plist. }
  split; [apply Hv|].
  intros p Hp. unfold lookup_xwidget. rewrite (bind_Normal _ _ st st _ (Hv QCxwidget)).
  by rewrite Hp.
Qed.

Lemma xwidget_spec_value_plist_witness :
  plist_end (Cons (Symbol ":title") Qnil) = true
  /\ symbolp QCxwidget = true
  /\ lookup_xwidget
       (Cons Qxwidget
          (plist_of [(Symbol ":alias", QCxwidget); (QCxwidget, XWidget 3);
                     (QCxwidget, XWidget 4)]
             (Cons (Symbol ":title") Qnil)))
       (startup sample_text_area)
     = Normal 3%nat (startup sample_text_area).
Proof.
  split; [reflexivity|]. split; [reflexivity|].
  exact (proj2 (proj2 (xwidget_spec_value_plist
                         [(Symbol ":alias", QCxwidget); (QCxwidget, XWidget 3);
                          (QCxwidget, XWidget 4)]
                         (Cons (Symbol ":title") Qnil) QCxwidget
                         (startup sample_text_area) eq_refl eq_refl)) 3%nat eq_refl).
Defined.
Lemma save_script_callback_first_free (st : emacs) (p : nat) (cbs : list Lisp_Object)
    (i : nat) (script : string) (fn : Lisp_Object) :
  callback_table (xwidgets st p) = Some cbs ->
  (forall j, (j < i)%nat -> pending cbs j) ->
  cbs !! i = Some Qnil ->
  save_script_callback p script fn st = Normal (Z.of_nat i) (requested p cbs i script fn st).
Proof.
  intros Htable Hpend Hnil.
  pose proof (lookup_lt_Some _ _ _ Hnil) as Hlt.
  unfold save_script_callback.
  rewrite (bind_Normal _ _ st st (xwidgets st p)) by reflexivity.
  rewrite (bind_Normal _ _ st st cbs).
  2:{ unfold callback_table in Htable.
      destruct (xw_script_callbacks (xwidgets st p)); try discriminate Htable;
        cbn [NILP make_nil_vector]; by injection Htable as <-. }
  rewrite (find_first_free_hole cbs i 0 (length cbs)); [|intros; apply Hpend; lia|done|lia].
  cbn [Nat.add]. unfold ASET.
  rewrite in_bounds by exact Hlt. rewrite Nat2Z.id.
  reflexivity.
Qed.

Lemma WEBKIT_FN_INIT_web_view (st : emacs) (p : nat) (rest : nat -> M Lisp_Object) :
  xwidget_is_web_view (xwidgets st p) = true ->
  WEBKIT_FN_INIT (XWidget p) rest st = rest p st.
Proof.
  intros Hweb. unfold WEBKIT_FN_INIT.
  rewrite (bind_Normal _ _ st st tt) by reflexivity.
  rewrite (bind_Normal _ _ st st p) by reflexivity.
  rewrite (bind_Normal _ _ st st (xwidgets st p)) by reflexivity.
  by rewrite Hweb.
Qed.

Lemma Fxwidget_webkit_execute_script_requested (st : emacs) (p : nat) (widget : GtkWidget)
    (text : string) (fn : Lisp_Object) (cbs : list Lisp_Object) (i : nat) :
  xw_widget_osr (xwidgets st p) = Some widget ->
  WEBKIT_IS_WEB_VIEW widget = true ->
  NILP fn || functionp (host st) fn = true ->
  callback_table (xwidgets st p) = Some cbs ->
  (forall j, (j < i)%nat -> pending cbs j) ->
  cbs !! i = Some Qnil ->
  Fxwidget_webkit_execute_script (XWidget p) (String text) fn st
  = Normal Qnil
      (set_gtk_log
         (gtk_log st ++ [webkit_web_view_run_javascript widget text (Z.of_nat i)])
         (requested p cbs i text fn st)).
Proof.
  intros Hosr Hweb Hfn Htable Hpend Hnil.
  pose proof (lookup_lt_Some _ _ _ Hnil) as Hlt.
  unfold Fxwidget_webkit_execute_script.
  rewrite WEBKIT_FN_INIT_web_view by (unfold xwidget_is_web_view; by rewrite Hosr).
  rewrite (bind_Normal _ _ st st tt) by reflexivity.
  rewrite (bind_Normal _ _ st st (functionp (host st) fn)) by reflexivity.
  replace (negb (NILP fn) && negb (functionp (host st) fn)) with false
    by (destruct (NILP fn), (functionp (host st) fn); done).
  rewrite (bind_Normal _ _ st st text) by reflexivity.
  rewrite (bind_Normal _ _ st _ _
             (save_script_callback_first_free st p cbs i text fn Htable Hpend Hnil)).
  set (st1 := requested p cbs i text fn st).
  assert (Hx : xwidgets st1 p
               = set_script_callbacks (Vector (<[i := Cons (MintPtr text) fn]> cbs))
                   (xwidgets st p))
    by (unfold st1, requested; cbn -[insert]; apply fn_lookup_insert).
  rewrite (bind_Normal _ _ st1 st1 (xwidgets st1 p)) by reflexivity.
  rewrite (bind_Normal _ _ st1 st1 (Cons (MintPtr text) fn)).
  2:{ rewrite Hx. cbn [xw_script_callbacks set_script_callbacks]. unfold AREF.
      rewrite length_insert, in_bounds by exact Hlt.
      rewrite Nat2Z.id, list_lookup_insert_eq by exact Hlt. reflexivity. }
  cbn [XCAR].
  rewrite (bind_Normal _ _ st1 st1 text) by reflexivity.
  rewrite (bind_Normal _ _ st1 st1 widget).
  2:{ unfold WEBKIT_WEB_VIEW. rewrite (bind_Normal _ _ st1 st1 (xwidgets st1 p))
        by reflexivity.
      rewrite Hx. cbn [xw_widget_osr set_script_callbacks]. by rewrite Hosr. }
  reflexivity.
Qed.

(** X14.  A script sent to a web view whose table has a free slot, with nil or
    a function to call back, takes the first free slot and is handed to
    WebKit with the index of that slot; nothing is enqueued yet.  When
    the evaluation then finishes with a value that converts, the slot is
    nil again, so that the table is as it was before the request, the
    saved script text is freed, and the event (javascript-callback,
    widget, function, converted value) is enqueued if a function was
    given and nothing is enqueued otherwise. *)
Theorem execute_script_round_trip (st : emacs) (p : nat) (widget : GtkWidget)
    (text : string) (fn : Lisp_Object) (cbs : list Lisp_Object) (i : nat)
    (value : JSCValue) (lisp_value : Lisp_Object) :
  xw_widget_osr (xwidgets st p) = Some widget ->
  WEBKIT_IS_WEB_VIEW widget = true ->
  NILP fn || functionp (host st) fn = true ->
  callback_table (xwidgets st p) = Some cbs ->
  (forall j, (j < i)%nat -> pending cbs j) ->
  cbs !! i = Some Qnil ->
  webkit_js_to_lisp value = Ok lisp_value ->
  exists st1 st2,
    Fxwidget_webkit_execute_script (XWidget p) (String text) fn st = Normal Qnil st1
    /\ gtk_log st1
       = gtk_log st ++ [webkit_web_view_run_javascript widget text (Z.of_nat i)]
    /\ callback_slots st1 p = <[i := Cons (MintPtr text) fn]> cbs
    /\ kbd_buffer st1 = kbd_buffer st
    /\ webkit_javascript_finished_cb p (js_value value) (Z.of_nat i) st1 = Normal tt st2
    /\ callback_slots st2 p = cbs
    /\ freed st2 = freed st ++ [MintPtr text]
    /\ kbd_buffer st2
       = kbd_buffer st
         ++ (if NILP fn then []
             else [{| kind := XWIDGET_EVENT; frame_or_window := Qnil;
                      arg := list4 (Symbol "javascript-callback") (XWidget p) fn
                               lisp_value |}]).
Proof.
  intros Hosr Hweb Hfn Htable Hpend Hnil Hconv.
  pose proof (lookup_lt_Some _ _ _ Hnil) as Hlt.
  set (st1 := set_gtk_log
                (gtk_log st ++ [webkit_web_view_run_javascript widget text (Z.of_nat i)])
                (requested p cbs i text fn st)).
  assert (Hslots : xw_script_callbacks (xwidgets st1 p)
                   = Vector (<[i := Cons (MintPtr text) fn]> cbs))
    by (unfold st1, requested; cbn -[insert]; by rewrite fn_lookup_insert).
  assert (Hcb : <[i := Cons (MintPtr text) fn]> cbs !! i = Some (Cons (MintPtr text) fn))
    by (by apply list_lookup_insert_eq).
  exists st1, (state_after
                 (finished_cb_outcome st1 p (<[i := Cons (MintPtr text) fn]> cbs) i
                    (Cons (MintPtr text) fn) (js_value value)) st1).
  split; [by apply Fxwidget_webkit_execute_script_requested|].
  split; [reflexivity|].
  split; [unfold callback_slots; by rewrite Hslots|].
  split; [reflexivity|].
  rewrite (webkit_javascript_finished_cb_outcome st1 p _ i _ (js_value value) Hslots Hcb).
  unfold finished_cb_outcome. rewrite Hconv.
  unfold continuation_registered, script_callback_event. cbn [NILP XCDR XCAR negb andb].
  destruct (NILP fn) eqn:Hn; cbn -[insert];
    unfold callback_slots; cbn -[insert];
    rewrite ?app_nil_r, !fn_lookup_insert; cbn -[insert];
    rewrite ?list_insert_insert_eq, ?list_insert_id by exact Hnil;
    repeat split; try reflexivity.
Qed.
Lemma execute_script_round_trip_witness :
  xw_widget_osr (xwidgets webkit_widget 0) = Some (WebKitWebView 0)
  /\ callback_table (xwidgets webkit_widget 0) = Some (replicate 32 Qnil)
  /\ webkit_js_to_lisp (JNumber (inject_Z 2)) = Ok (Fixnum 2)
  /\ exists st1 st2,
       Fxwidget_webkit_execute_script (XWidget 0) (String "1+1") (Closure 7) webkit_widget
       = Normal Qnil st1
       /\ webkit_javascript_finished_cb 0 (js_value (JNumber (inject_Z 2))) 0 st1
          = Normal tt st2
       /\ kbd_buffer st2
          = [{| kind := XWIDGET_EVENT; frame_or_window := Qnil;
                arg := list4 (Symbol "javascript-callback") (XWidget 0) (Closure 7)
                         (Fixnum 2) |}].
Proof.
  assert (Hosr : xw_widget_osr (xwidgets webkit_widget 0) = Some (WebKitWebView 0))
    by (vm_compute; reflexivity).
  assert (Hfn : NILP (Closure 7) || functionp (host webkit_widget) (Closure 7) = true)
    by (vm_compute; reflexivity).
  assert (Htable : callback_table (xwidgets webkit_widget 0) = Some (replicate 32 Qnil))
    by (vm_compute; reflexivity).
  assert (Hconv : webkit_js_to_lisp (JNumber (inject_Z 2)) = Ok (Fixnum 2))
    by (vm_compute; reflexivity).
  assert (Hkbd : kbd_buffer webkit_widget = []) by (vm_compute; reflexivity).
  do 3 (split; [assumption|]).
  destruct (execute_script_round_trip webkit_widget 0 (WebKitWebView 0) "1+1" (Closure 7)
              (replicate 32 Qnil) 0 (JNumber (inject_Z 2)) (Fixnum 2)
              Hosr eq_refl Hfn Htable ltac:(intros j Hj; lia) eq_refl Hconv)
    as (st1 & st2 & Hrun & _ & _ & _ & Hfin & _ & _ & Hev).
  exists st1, st2. split; [exact Hrun|]. split; [exact Hfin|].
  rewrite Hev, Hkbd. reflexivity.
Defined.

(** X15.  On a web view, xwidget-webkit-goto-uri and
    xwidget-webkit-execute-script check their arguments before they act.
    A uri or a script that is not a string signals wrong-type-argument;
    a callback that is neither nil nor a function signals
    wrong-type-argument with [invalid-function].  In each case nothing
    is sent to WebKit, no slot of the callback table is taken and the
    editor is as it was.  With a string, goto-uri loads it. *)
Theorem web_view_argument_checks (st : emacs) (p : nat) (widget : GtkWidget) :
  xw_widget_osr (xwidgets st p) = Some widget ->
  WEBKIT_IS_WEB_VIEW widget = true ->
  (forall uri, (forall s, uri <> String s) ->
     Fxwidget_webkit_goto_uri (XWidget p) uri st
     = Signal (wrong_type_argument "stringp" uri) st)
  /\ (forall s,
        Fxwidget_webkit_goto_uri (XWidget p) (String s) st
        = Normal Qnil (set_gtk_log (gtk_log st ++ [webkit_web_view_load_uri widget s]) st))
  /\ (forall script fn, (forall s, script <> String s) ->
        Fxwidget_webkit_execute_script (XWidget p) script fn st
        = Signal (wrong_type_argument "stringp" script) st)
  /\ (forall s fn, NILP fn = false -> functionp (host st) fn = false ->
        Fxwidget_webkit_execute_script (XWidget p) (String s) fn st
        = Signal (wrong_type_argument "invalid-function" fn) st).
Proof.
  intros Hosr Hweb.
  assert (Hview : xwidget_is_web_view (xwidgets st p) = true)
    by (unfold xwidget_is_web_view; by rewrite Hosr).
  repeat split.
  - intros uri Hs. unfold Fxwidget_webkit_goto_uri. rewrite WEBKIT_FN_INIT_web_view by done.
    apply bind_Signal. destruct uri; try reflexivity. by destruct (Hs s).
  - intros s. unfold Fxwidget_webkit_goto_uri. rewrite WEBKIT_FN_INIT_web_view by done.
    rewrite (bind_Normal _ _ st st tt) by reflexivity.
    rewrite (bind_Normal _ _ st st s) by reflexivity.
    rewrite (bind_Normal _ _ st st widget).
    2:{ unfold WEBKIT_WEB_VIEW. rewrite (bind_Normal _ _ st st (xwidgets st p)) by reflexivity.
        by rewrite Hosr. }
    reflexivity.
  - intros script fn Hs. unfold Fxwidget_webkit_execute_script.
    rewrite WEBKIT_FN_INIT_web_view by done.
    apply bind_Signal. destruct script; try reflexivity. by destruct (Hs s).
  - intros s fn Hn Hf. unfold Fxwidget_webkit_execute_script.
    rewrite WEBKIT_FN_INIT_web_view by done.
    rewrite (bind_Normal _ _ st st tt) by reflexivity.
    rewrite (bind_Normal _ _ st st (functionp (host st) fn)) by reflexivity.
    by rewrite Hn, Hf.
Qed.

Lemma web_view_argument_checks_witness :
  xw_widget_osr (xwidgets webkit_widget 0) = Some (WebKitWebView 0)
  /\ Fxwidget_webkit_execute_script (XWidget 0) (String "1+1") (Fixnum 5) webkit_widget
     = Signal (wrong_type_argument "invalid-function" (Fixnum 5)) webkit_widget.
Proof.
  assert (Hosr : xw_widget_osr (xwidgets webkit_widget 0) = Some (WebKitWebView 0))
    by (vm_compute; reflexivity).
  split; [exact Hosr|].
  refine (proj2 (proj2 (proj2 (web_view_argument_checks webkit_widget 0 (WebKitWebView 0)
                                 Hosr eq_refl))) "1+1" (Fixnum 5) eq_refl _).
  vm_compute. reflexivity.
Defined.

(** X16.  On a web view, xwidget-webkit-goto-history with an integer below -1
    or above 1 signals args-out-of-range with the bounds -1 and 1 and
    does nothing; with 0 it reloads the page and with 1 it goes
    forward. *)
Theorem webkit_goto_history_range (st : emacs) (p : nat) (widget : GtkWidget) (n : Z) :
  xw_widget_osr (xwidgets st p) = Some widget ->
  WEBKIT_IS_WEB_VIEW widget = true ->
  (n < -1 \/ 1 < n ->
   Fxwidget_webkit_goto_history (XWidget p) (Fixnum n) st
   = Signal (args_out_of_range_3 (Fixnum n) (Fixnum (-1)) (Fixnum 1)) st)
  /\ (n = 0 ->
      Fxwidget_webkit_goto_history (XWidget p) (Fixnum n) st
      = Normal Qnil (set_gtk_log (gtk_log st ++ [webkit_web_view_reload widget]) st))
  /\ (n = 1 ->
      Fxwidget_webkit_goto_history (XWidget p) (Fixnum n) st
      = Normal Qnil (set_gtk_log (gtk_log st ++ [webkit_web_view_go_forward widget]) st)).
Proof.
  intros Hosr Hweb.
  assert (Hview : xwidget_is_web_view (xwidgets st p) = true)
    by (unfold xwidget_is_web_view; by rewrite Hosr).
  assert (Hw : WEBKIT_WEB_VIEW p st = Normal widget st).
  { unfold WEBKIT_WEB_VIEW. rewrite (bind_Normal _ _ st st (xwidgets st p)) by reflexivity.
    by rewrite Hosr. }
  unfold Fxwidget_webkit_goto_history. rewrite WEBKIT_FN_INIT_web_view by done.
  rewrite (bind_Normal _ _ st st n) by reflexivity.
  repeat split.
  - intros Hn. replace ((n <? -1) || (n >? 1)) with true; [reflexivity|].
    symmetry. apply orb_true_iff. rewrite Z.ltb_lt, Z.gtb_gt. lia.
  - intros ->. cbn [Z.ltb Z.gtb Z.compare orb].
    rewrite (bind_Normal _ _ st st widget Hw). reflexivity.
  - intros ->. cbn [Z.ltb Z.gtb Z.compare orb Pos.compare Pos.compare_cont].
    rewrite (bind_Normal _ _ st st widget Hw). reflexivity.
Qed.

Lemma webkit_goto_history_range_witness :
  xw_widget_osr (xwidgets webkit_widget 0) = Some (WebKitWebView 0)
  /\ Fxwidget_webkit_goto_history (XWidget 0) (Fixnum 2) webkit_widget
     = Signal (args_out_of_range_3 (Fixnum 2) (Fixnum (-1)) (Fixnum 1)) webkit_widget.
Proof.
  assert (Hosr : xw_widget_osr (xwidgets webkit_widget 0) = Some (WebKitWebView 0))
    by (vm_compute; reflexivity).
  split; [exact Hosr|].
  exact (proj1 (webkit_goto_history_range webkit_widget 0 (WebKitWebView 0) 2 Hosr eq_refl)
           ltac:(lia)).
Defined.
Lemma wrap_int32_range (z : Z) : - 2 ^ 31 <= wrap_int32 z < 2 ^ 31.
Proof.
  unfold wrap_int32. pose proof (Z.mod_pos_bound (z + 2 ^ 31) (2 ^ 32) ltac:(lia)). lia.
Qed.

Lemma forallb_replicate_nil (n : nat) : forallb converted (replicate n Qnil) = true.
Proof. induction n; [reflexivity|exact IHn]. Qed.

Lemma fill_array_converted (l : list JSCValue) (n : nat) :
  Forall (fun v => match webkit_js_to_lisp v with
                   | Ok o => converted o = true
                   | Raise e => e = memory_full
                   end) l ->
  match fill_array l n with
  | Ok os => forallb converted os = true
  | Raise e => e = memory_full
  end.
Proof.
  intros Hall. revert n. induction Hall as [|v l Hv Hall IH]; intros n.
  - destruct n; [reflexivity|]. cbn [fill_array]. apply (forallb_replicate_nil (S n)).
  - destruct n; [reflexivity|]. cbn [fill_array].
    destruct (webkit_js_to_lisp v) as [o|e]; [|exact Hv].
    specialize (IH n). destruct (fill_array l n) as [os|e]; [|exact IH].
    cbn [forallb]. by rewrite Hv, IH.
Qed.

Lemma fill_object_converted (ps : list (string * JSCValue)) (names : list string)
    (n : nat) :
  Forall (fun p => match webkit_js_to_lisp (snd p) with
                   | Ok o => converted o = true
                   | Raise e => e = memory_full
                   end) ps ->
  match fill_object ps names n with
  | Ok os => forallb converted os = true
  | Raise e => e = memory_full
  end.
Proof.
  intros Hall.
  assert (Hget : forall name,
            match webkit_js_to_lisp (jsc_value_object_get_property ps name) with
            | Ok o => converted o = true
            | Raise e => e = memory_full
            end).
  { intros name. induction Hall as [|[name' v] ps Hv Hall IH]; [reflexivity|].
    cbn [jsc_value_object_get_property]. destruct (String.eqb name' name); assumption. }
  revert n. induction names as [|name names IH]; intros n.
  - destruct n; [reflexivity|]. cbn [fill_object]. apply (forallb_replicate_nil (S n)).
  - destruct n; [reflexivity|]. cbn [fill_object].
    specialize (Hget name).
    destruct (webkit_js_to_lisp (jsc_value_object_get_property ps name)) as [o|e];
      [|exact Hget].
    specialize (IH n). destruct (fill_object ps names n) as [os|e]; [|exact IH].
    cbn [forallb converted build_string]. by rewrite Hget, IH.
Qed.

(** X18.  Whatever the JavaScript value, its conversion either returns a Lisp
    value made of nil, t, strings, integers between -2^31 and 2^31 - 1,
    vectors, and pairs of a property name and a value, or raises
    memory-full and nothing else. *)
Theorem webkit_js_to_lisp_image (v : JSCValue) :
  match webkit_js_to_lisp v with
  | Ok o => converted o = true
  | Raise e => e = memory_full
  end.
Proof.
  induction v as [s|b|d|l IH|ps IH|] using JSCValue_nested_ind.
  - reflexivity.
  - by destruct b.
  - cbn [webkit_js_to_lisp make_fixnum converted jsc_value_to_int32].
    pose proof (wrap_int32_range (Z.quot (Qnum d) (Z.pos (Qden d)))) as [H1 H2].
    apply andb_true_iff. by rewrite Z.leb_le, Z.ltb_lt.
  - rewrite webkit_js_to_lisp_array. cbv zeta.
    destruct (negb _); [reflexivity|].
    pose proof (fill_array_converted l
                  (Z.to_nat (jsc_value_to_int32 (jsc_array_length l))) IH) as H.
    by destruct (fill_array _ _).
  - rewrite webkit_js_to_lisp_object. cbv zeta.
    destruct (PTRDIFF_MAX <? _); [reflexivity|].
    pose proof (fill_object_converted ps (jsc_value_object_enumerate_properties ps)
                  (Z.to_nat
                     (wrap_guint
                        (Z.of_nat (length (jsc_value_object_enumerate_properties ps)))))
                  IH) as H.
    by destruct (fill_object _ _ _).
  - reflexivity.
Qed.

(** X17.  xwidget-webkit-zoom on a web view adds a float to the zoom level of
    the view, in the arithmetic of C doubles: after two calls the level
    is the level before plus the first float, rounded, plus the second,
    rounded, and WebKit has been told each level.  A factor that is not a
    float, an integer for one, is ignored without a word. *)
Theorem webkit_zoom_accumulates (st : emacs) (p : nat) (widget : GtkWidget)
    (d1 d2 : float) :
  xw_widget_osr (xwidgets st p) = Some widget ->
  WEBKIT_IS_WEB_VIEW widget = true ->
  let level := webkit_zoom_level (host st) p in
  (exists st1 st2,
     Fxwidget_webkit_zoom (XWidget p) (Float d1) st = Normal Qnil st1
     /\ Fxwidget_webkit_zoom (XWidget p) (Float d2) st1 = Normal Qnil st2
     /\ gtk_log st2
        = gtk_log st
          ++ [webkit_web_view_set_zoom_level widget (PrimFloat.add level d1);
              webkit_web_view_set_zoom_level widget
                (PrimFloat.add (PrimFloat.add level d1) d2)]
     /\ webkit_zoom_level (host st2) p = PrimFloat.add (PrimFloat.add level d1) d2
     /\ (forall q, q <> p -> webkit_zoom_level (host st2) q = webkit_zoom_level (host st) q)
     /\ xwidgets st2 = xwidgets st)
  /\ (forall factor, (forall d, factor <> Float d) ->
        Fxwidget_webkit_zoom (XWidget p) factor st = Normal Qnil st).
Proof.
  intros Hosr Hweb level.
  assert (Hview : forall s, xwidgets s = xwidgets st ->
            xwidget_is_web_view (xwidgets s p) = true)
    by (intros s ->; unfold xwidget_is_web_view; by rewrite Hosr).
  assert (Hzoom : forall s d, xwidgets s = xwidgets st ->
            Fxwidget_webkit_zoom (XWidget p) (Float d) s
            = Normal Qnil
                (set_host
                   (set_zoom p (PrimFloat.add (webkit_zoom_level (host s) p) d) (host s))
                   (set_gtk_log
                      (gtk_log s
                       ++ [webkit_web_view_set_zoom_level widget
                             (PrimFloat.add (webkit_zoom_level (host s) p) d)]) s))).
  { intros s d Hs. unfold Fxwidget_webkit_zoom.
    rewrite WEBKIT_FN_INIT_web_view by (by apply Hview).
    unfold WEBKIT_WEB_VIEW, bind, get_xwidget, gets, gtk, modify, ret.
    rewrite Hs, Hosr. reflexivity. }
  split.
  - eexists _, _. split; [by apply Hzoom|]. split; [by apply Hzoom|].
    cbn -[insert PrimFloat.add]. rewrite <- app_assoc, !fn_lookup_insert. fold level.
    repeat split.
    intros q Hq. by rewrite !fn_lookup_insert_ne by congruence.
  - intros factor Hf. unfold Fxwidget_webkit_zoom.
    rewrite WEBKIT_FN_INIT_web_view by (by apply Hview).
    destruct factor; try reflexivity. by destruct (Hf d).
Qed.

(** From the level 1, zooming twice by 2^-53 leaves the level 1: each sum
    is rounded to a double, where the exact sum is 1 + 2^-52. *)
Lemma webkit_zoom_accumulates_witness :
  xw_widget_osr (xwidgets webkit_widget 0) = Some (WebKitWebView 0)
  /\ exists st1 st2,
       Fxwidget_webkit_zoom (XWidget 0) (Float 0x1p-53) webkit_widget = Normal Qnil st1
       /\ Fxwidget_webkit_zoom (XWidget 0) (Float 0x1p-53) st1 = Normal Qnil st2
       /\ webkit_zoom_level (host st2) 0 = 1%float
       /\ PrimFloat.add 1 (PrimFloat.add 0x1p-53 0x1p-53) = 0x1.0000000000001p+0%float.
Proof.
  assert (Hosr : xw_widget_osr (xwidgets webkit_widget 0) = Some (WebKitWebView 0))
    by (vm_compute; reflexivity).
  split; [exact Hosr|].
  destruct (proj1 (webkit_zoom_accumulates webkit_widget 0 (WebKitWebView 0)
                     0x1p-53 0x1p-53 Hosr eq_refl))
    as (st1 & st2 & Hrun1 & Hrun2 & _ & Hlevel & _).
  exists st1, st2. split; [exact Hrun1|]. split; [exact Hrun2|].
  split; [rewrite Hlevel|]; vm_compute; reflexivity.
Defined.
(** X19.  The policy handler answers TRUE exactly when it has decided itself,
    which it does only to turn a response of a MIME type that WebKit
    cannot show into a download; it then enqueues nothing.  For a
    navigation or a new window it leaves the decision to WebKit and
    enqueues one event (decide-policy, widget, uri of the request).  It
    always returns, and changes nothing in the editor but the event
    queue.  The load handler enqueues (load-changed, widget, "") when a
    load has finished and does nothing for any other load event. *)
Theorem bridge_handlers_enqueue (st : emacs) (xw : nat) :
  (forall decision type,
     download_decided decision = false ->
     exists handled decision' events,
       webkit_decide_policy_cb xw decision type st
       = Normal (handled, decision')
           (match events with [] => st | _ => set_kbd_buffer (kbd_buffer st ++ events) st end)
       /\ handled = download_decided decision'
       /\ (handled = true
           <-> type = WEBKIT_POLICY_DECISION_TYPE_RESPONSE
               /\ is_mime_type_supported decision = false)
       /\ (handled = false -> decision' = decision)
       /\ events
          = match type with
            | WEBKIT_POLICY_DECISION_TYPE_RESPONSE => []
            | _ => [{| kind := XWIDGET_EVENT; frame_or_window := Qnil;
                       arg := list3 (Symbol "decide-policy") (XWidget xw)
                                (String (navigation_request_uri decision)) |}]
            end)
  /\ (forall load_event,
        webkit_view_load_changed_cb xw load_event st
        = Normal tt
            (match load_event with
             | WEBKIT_LOAD_FINISHED =>
                 set_kbd_buffer
                   (kbd_buffer st
                    ++ [{| kind := XWIDGET_EVENT; frame_or_window := Qnil;
                           arg := list3 (Symbol "load-changed") (XWidget xw) (String "") |}])
                   st
             | _ => st
             end)).
Proof.
  split.
  - intros decision type Hd. destruct type; cbn [webkit_decide_policy_cb].
    + eexists false, decision, [_]. split; [reflexivity|]. rewrite Hd.
      repeat split; try done. intros [? _]; discriminate.
    + eexists false, decision, [_]. split; [reflexivity|]. rewrite Hd.
      repeat split; try done. intros [? _]; discriminate.
    + destruct (is_mime_type_supported decision) eqn:Hs; cbn [negb].
      * exists false, decision, []. split; [reflexivity|]. rewrite Hd.
        repeat split; try done. intros [_ ?]; discriminate.
      * exists true, (webkit_policy_decision_download decision), [].
        split; [reflexivity|]. repeat split; try done.
  - intros load_event. by destruct load_event.
Qed.

Lemma bridge_handlers_enqueue_witness :
  download_decided
    {| is_mime_type_supported := false; navigation_request_uri := "";
       download_decided := false |} = false
  /\ exists handled decision' events,
       webkit_decide_policy_cb 0
         {| is_mime_type_supported := false; navigation_request_uri := "";
            download_decided := false |}
         WEBKIT_POLICY_DECISION_TYPE_RESPONSE webkit_widget
       = Normal (handled, decision')
           (match events with
            | [] => webkit_widget
            | _ => set_kbd_buffer (kbd_buffer webkit_widget ++ events) webkit_widget
            end)
       /\ handled = download_decided decision'.
Proof.
  split; [reflexivity|].
  destruct (proj1 (bridge_handlers_enqueue webkit_widget 0)
              {| is_mime_type_supported := false; navigation_request_uri := "";
                 download_decided := false |}
              WEBKIT_POLICY_DECISION_TYPE_RESPONSE eq_refl)
    as (handled & decision' & events & Hrun & Hh & _).
  exists handled, decision', events. split; [exact Hrun|exact Hh].
Defined.

(** X12.  Killing the widgets of a buffer deletes no view: the views and the
    view registry are as before, and xwidget-view-lookup finds for every
    widget, those killed too, the view that it found before. *)
Theorem kill_buffer_xwidgets_keeps_views (st : emacs) (b : nat) :
  (forall p, XWidget p ∈ Vxwidget_list st -> callback_table_ok (xwidgets st p)) ->
  exists st',
    kill_buffer_xwidgets (Buffer b) st = Normal tt st'
    /\ xwidget_views st' = xwidget_views st
    /\ Vxwidget_view_list st' = Vxwidget_view_list st
    /\ forall x w,
         returned (Fxwidget_view_lookup (XWidget x) (Window w) st')
         = returned (Fxwidget_view_lookup (XWidget x) (Window w) st).
Proof.
  intros Hok.
  set (l := buffer_xwidgets (xwidgets st) (Buffer b) (Vxwidget_list st) []).
  destruct (kill_loop l st) as (st' & Hrun & _).
  { intros o Ho. unfold l in Ho. rewrite elem_of_buffer_xwidgets, elem_of_nil in Ho.
    destruct Ho as [[]|[Hin Hown]]. destruct o; try discriminate Hown. eauto. }
  assert (Hkill : kill_buffer_xwidgets (Buffer b) st = Normal tt st')
    by (unfold kill_buffer_xwidgets, bind; rewrite Fget_buffer_xwidgets_scan; exact Hrun).
  destruct (kill_buffer_xwidgets_same_views _ _ _ _ Hkill) as (Hv & Hl & _).
  exists st'. split; [exact Hkill|]. split; [exact Hv|]. split; [exact Hl|].
  intros x w. rewrite !Fxwidget_view_lookup_pure, Hv, Hl.
  by destruct (lookup_in _ _ _ _).
Qed.

Lemma kill_buffer_xwidgets_keeps_views_witness :
  (forall p, XWidget p ∈ Vxwidget_list drawn_widget ->
             callback_table_ok (xwidgets drawn_widget p))
  /\ exists st',
       kill_buffer_xwidgets (Buffer 0) drawn_widget = Normal tt st'
       /\ Vxwidget_list st' = []
       /\ returned (Fxwidget_view_lookup (XWidget 0) (Window 0) st') = Some (XWidgetView 0).
Proof.
  assert (Hok : forall p, XWidget p ∈ Vxwidget_list drawn_widget ->
                  callback_table_ok (xwidgets drawn_widget p)).
  { intros p Hp.
    assert (Hreg : Vxwidget_list drawn_widget = [XWidget 0]) by (vm_compute; reflexivity).
    rewrite Hreg in Hp. apply list_elem_of_singleton in Hp as [= ->].
    left. vm_compute. reflexivity. }
  split; [exact Hok|].
  destruct (kill_buffer_xwidgets_keeps_views drawn_widget 0 Hok)
    as (st' & Hrun & _ & _ & Hlook).
  exists st'. split; [exact Hrun|]. split.
  - assert (Hst : st' = run (kill_buffer_xwidgets (Buffer 0)) drawn_widget)
      by (unfold run; by rewrite Hrun).
    rewrite Hst. vm_compute. reflexivity.
  - rewrite Hlook. vm_compute. reflexivity.
Defined.




